(** * Banking & ATM simulation: the ledger engine of [banking_atm_system.py]

    A shallow embedding of the account store and of the operations that
    read and mutate it, followed by the properties of the ledger engine.

    Modelling conventions.
    - The accounts dictionary is a [gmap string Account]; one account
      dictionary is a record with the twelve keys the program writes.
    - Monetary values are Python floats, IEEE 754 binary64 numbers.  They
      are the primitive [float]s here, with the operations of the
      processor: [+], [-], [*] and [/] round to the nearest number, ties to
      even, and every comparison with NaN is false.  The comparisons are the
      program's ([amount <= 0], [amount > balance],
      [withdrawn_today + amount > limit]).
    - [today_str()] and [now_str()] read the clock; the clock reading is the
      environment [Env] every operation receives.  ISO date strings are
      compared for equality only, or split into year and month; they are
      records of integers.
    - [input(...)] is an argument of the operation.  An amount typed by the
      user is [option float]: [None] when [float(...)] raises [ValueError],
      and otherwise the number [float] returns, which is any binary64
      number: "nan", "inf" and "-inf" are accepted, and a decimal is read
      as the nearest number.
    - Strings are compared for equality only, except the new PIN in
      [create_account]: there Python looks at the Unicode code points
      ([pin.isdigit()], [len(pin)]), with tables that are not part of the
      program, and the value of its test is an argument next to the PIN.
    - [save_accounts] overwrites the file with the dictionary in memory: the
      world is the pair of the dictionary in memory and the one on disk.
    - The program mutates account dictionaries in place.  Here every
      mutation is written back into the map at once, so that a mutation made
      before an early [return] stays visible. *)

From Stdlib Require Import ZArith QArith Lia Bool Ascii String List Floats.
From stdpp Require Import base option list strings gmap.

(** A decimal such as [0.04] stands for the nearest binary64 number, as it
    does in Python. *)
#[local] Set Warnings "-inexact-float".

Local Open Scope Z_scope.
Local Open Scope string_scope.
Local Open Scope list_scope.
Local Open Scope float_scope.

(** [x > y] on floats. *)
Notation "x >? y" := (PrimFloat.ltb y x)
  (at level 70, no associativity) : float_scope.

(** ** Data model *)

Record Date := mkDate { year : Z; month : Z; day : Z }.

#[global] Instance Date_eq_dec : EqDecision Date.
Proof. solve_decision. Defined.

(** The value of the "type" key of a transaction. *)
Inductive TxnType :=
| Deposit       (* "deposit" *)
| Withdraw      (* "withdraw" *)
| TransferOut   (* "transfer_out" *)
| TransferIn    (* "transfer_in" *)
| Interest      (* "interest" *).

(** The value of the "note" key: the program formats a fixed text around
    the data kept here. *)
Inductive Note :=
| CashDeposit
| CashWithdrawal
| TransferTo (target_acc_no : string)
| TransferFrom (acc_no : string)
| InterestFor (months : Z) (rate : float)
| OpeningDeposit.

(** One entry of the "transactions" list, keys "time", "type", "amount",
    "balance_after" and "note". *)
Record Transaction := mkTransaction {
  txn_time : string;
  txn_type : TxnType;
  txn_amount : float;
  txn_balance_after : float;
  txn_note : Note
}.

(** The value of the "type" key of an account: "savings" or "current". *)
Inductive AccountType := Savings | Current.

#[global] Instance AccountType_eq_dec : EqDecision AccountType.
Proof. solve_decision. Defined.

Record Account := mkAccount {
  name : string;
  pin : string;
  balance : float;
  type : AccountType;
  transactions : list Transaction;
  failed_attempts : Z;
  locked : bool;
  daily_limit : float;
  withdrawn_today : float;
  last_withdraw_date : Date;
  interest_rate : float;
  last_interest_date : Date
}.

(** [account[key] = v] for the keys the program assigns. *)
Definition set_balance (v : float) (a : Account) : Account :=
  mkAccount (name a) (pin a) v (type a) (transactions a) (failed_attempts a)
    (locked a) (daily_limit a) (withdrawn_today a) (last_withdraw_date a)
    (interest_rate a) (last_interest_date a).

Definition set_transactions (v : list Transaction) (a : Account) : Account :=
  mkAccount (name a) (pin a) (balance a) (type a) v (failed_attempts a)
    (locked a) (daily_limit a) (withdrawn_today a) (last_withdraw_date a)
    (interest_rate a) (last_interest_date a).

Definition set_failed_attempts (v : Z) (a : Account) : Account :=
  mkAccount (name a) (pin a) (balance a) (type a) (transactions a) v
    (locked a) (daily_limit a) (withdrawn_today a) (last_withdraw_date a)
    (interest_rate a) (last_interest_date a).

Definition set_locked (v : bool) (a : Account) : Account :=
  mkAccount (name a) (pin a) (balance a) (type a) (transactions a)
    (failed_attempts a) v (daily_limit a) (withdrawn_today a)
    (last_withdraw_date a) (interest_rate a) (last_interest_date a).

Definition set_withdrawn_today (v : float) (a : Account) : Account :=
  mkAccount (name a) (pin a) (balance a) (type a) (transactions a)
    (failed_attempts a) (locked a) (daily_limit a) v (last_withdraw_date a)
    (interest_rate a) (last_interest_date a).

Definition set_last_withdraw_date (v : Date) (a : Account) : Account :=
  mkAccount (name a) (pin a) (balance a) (type a) (transactions a)
    (failed_attempts a) (locked a) (daily_limit a) (withdrawn_today a) v
    (interest_rate a) (last_interest_date a).

Definition set_last_interest_date (v : Date) (a : Account) : Account :=
  mkAccount (name a) (pin a) (balance a) (type a) (transactions a)
    (failed_attempts a) (locked a) (daily_limit a) (withdrawn_today a)
    (last_withdraw_date a) (interest_rate a) v.

(** The accounts dictionary. *)
Abbreviation Ledger := (gmap string Account).

(** The dictionary in memory and the content of the data file. *)
Record World := mkWorld { mem : Ledger; disk : Ledger }.

(** The clock: [today_str()] and [now_str()]. *)
Record Env := mkEnv { today_str : Date; now_str : string }.

(** The four ways [apply_interest_if_savings] returns without applying
    interest. *)
Inductive NoAccrual := NotSavings | NoRate | UpToDate | NoInterest.

(** What an operation reports: the message it prints, by kind.  [KeyError]
    is the exception of [accounts[acc_no]] on an unknown key, which nothing
    catches. *)
Inductive Outcome :=
| Success
| NotFound
| AccountLocked
| InvalidPin
| InvalidAmount
| InsufficientFunds
| DailyLimitExceeded
| SameAccount
| DuplicateId
| InvalidType
| NothingToAccrue (why : NoAccrual)
| Cancelled
| KeyError.

#[global] Instance NoAccrual_eq_dec : EqDecision NoAccrual.
Proof. solve_decision. Defined.

#[global] Instance Outcome_eq_dec : EqDecision Outcome.
Proof. solve_decision. Defined.

(** ** Data handling *)

Definition save_accounts (w : World) : World :=
  mkWorld (mem w) (mem w).

Definition with_mem (m : Ledger) (w : World) : World :=
  mkWorld m (disk w).

Definition create_default_accounts (today : Date) : Ledger :=
  <["1002" := mkAccount "Priya Verma" "4321" 8000 Current [] 0%Z false
                30000 0 today 0 today]>
  (<["1001" := mkAccount "Rahul Sharma" "1234" 15000 Savings [] 0%Z false
                20000 0 today 0.04 today]> ∅).

(** [file] is the dictionary read from the data file, [None] when the file
    is missing or is not JSON. *)
Definition load_accounts (today : Date) (file : option Ledger) : World :=
  match file with
  | None =>
      let accounts := create_default_accounts today in
      save_accounts (mkWorld accounts ∅)
  | Some data => mkWorld data data
  end.

(** The first start: there is no data file. *)
Definition load_accounts_fresh (today : Date) : World :=
  load_accounts today None.

(** A later start, on the file the last [save_accounts] wrote. *)
Definition load_accounts_existing (today : Date) (w : World) : World :=
  load_accounts today (Some (disk w)).

(** ** Utility functions *)

(** The conversion of an integer to a float in [float * int], for the
    count of months: it is rounded to the nearest float, and exact below
    2^53.  A [datetime.date] holds a year from 1 to 9999, which keeps the
    count below 120000. *)
Definition float_of_int (n : Z) : float := of_uint63 (Uint63.of_Z n).

(** [l[-n:]] for a positive [n]. *)
Definition last_n {A} (n : nat) (l : list A) : list A :=
  drop (length l - n) l.

Definition log_transaction (e : Env) (account : Account) (t_type : TxnType)
    (amount balance_after : float) (note : Note) : Account :=
  let txns :=
    transactions account ++
      [mkTransaction (now_str e) t_type amount balance_after note] in
  if Nat.ltb 50 (length txns)
  then set_transactions (last_n 50 txns) account
  else set_transactions txns account.

Definition reset_daily_withdraw_if_new_day (e : Env) (account : Account)
    : Account :=
  if decide (last_withdraw_date account ≠ today_str e)
  then set_last_withdraw_date (today_str e) (set_withdrawn_today 0 account)
  else account.

(** ** Authentication *)

(** How a call of [authenticate] ends: the account number it returns, or
    [None] after one of three messages. *)
Inductive AuthResult :=
| Authenticated (acc_no : string)
| AuthNotFound
| AuthLocked
| AuthExhausted.

Definition auth_return (r : AuthResult) : option string :=
  match r with
  | Authenticated acc_no => Some acc_no
  | _ => None
  end.

(** [authenticate] reads up to three PINs.  Its execution is cut at the
    calls of [input]: [AwaitPin attempt w] is the program blocked on
    [input("Enter 4-digit PIN: ")] in iteration [attempt] of the loop, and
    [AuthDone r w] is the program after [return]. *)
Inductive AuthState :=
| AwaitPin (attempt : nat) (w : World)
| AuthDone (r : AuthResult) (w : World).

Definition auth_world (s : AuthState) : World :=
  match s with
  | AwaitPin _ w => w
  | AuthDone _ w => w
  end.

(** Lines 107-116: up to the loop. *)
Definition authenticate_begin (w : World) (acc_no : string) : AuthState :=
  match mem w !! acc_no with
  | None => AuthDone AuthNotFound w
  | Some account =>
      if locked account then AuthDone AuthLocked w else AwaitPin 0 w
  end.

(** One iteration of [for attempt in range(3)] on the PIN read, and, after
    the last iteration, the two lines behind the loop.  [account] is the
    object bound before the loop, which is still [accounts[acc_no]]: the
    first branch is never taken after [authenticate_begin]. *)
Definition submit_pin (acc_no : string) (attempt : nat) (w : World)
    (pin_in : string) : AuthState :=
  match mem w !! acc_no with
  | None => AuthDone AuthNotFound w
  | Some account =>
      if decide (pin_in = pin account) then
        let account := set_failed_attempts 0 account in
        let w := with_mem (<[acc_no := account]> (mem w)) w in
        AuthDone (Authenticated acc_no) (save_accounts w)
      else
        let account :=
          set_failed_attempts (failed_attempts account + 1)%Z account in
        let w := with_mem (<[acc_no := account]> (mem w)) w in
        if (3 <=? failed_attempts account)%Z then
          let account := set_locked true account in
          let w := with_mem (<[acc_no := account]> (mem w)) w in
          AuthDone AuthLocked (save_accounts w)
        else if (S attempt <? 3)%nat then AwaitPin (S attempt) w
        else AuthDone AuthExhausted (save_accounts w)
  end.

Definition feed_pin (acc_no : string) (s : AuthState) (pin_in : string)
    : AuthState :=
  match s with
  | AwaitPin attempt w => submit_pin acc_no attempt w pin_in
  | AuthDone _ _ => s
  end.

(** [authenticate] on the account number and the PINs typed. *)
Definition authenticate (w : World) (acc_no : string) (pins : list string)
    : AuthState :=
  foldl (feed_pin acc_no) (authenticate_begin w acc_no) pins.

(** ** Banking operations *)

Definition check_balance (w : World) (acc_no : string) : option float :=
  balance <$> mem w !! acc_no.

Definition deposit_amount (e : Env) (w : World) (acc_no : string)
    (inp : option float) : Outcome * World :=
  match inp with
  | None => (InvalidAmount, w)
  | Some amount =>
      if amount <=? 0 then (InvalidAmount, w) else
      match mem w !! acc_no with
      | None => (KeyError, w)
      | Some account =>
          let account := set_balance (balance account + amount) account in
          let account :=
            log_transaction e account Deposit amount (balance account)
              CashDeposit in
          let w := with_mem (<[acc_no := account]> (mem w)) w in
          (Success, save_accounts w)
      end
  end.

Definition withdraw_amount (e : Env) (w : World) (acc_no : string)
    (inp : option float) : Outcome * World :=
  match inp with
  | None => (InvalidAmount, w)
  | Some amount =>
      if amount <=? 0 then (InvalidAmount, w) else
      match mem w !! acc_no with
      | None => (KeyError, w)
      | Some account =>
          let account := reset_daily_withdraw_if_new_day e account in
          let w := with_mem (<[acc_no := account]> (mem w)) w in
          if amount >? balance account
          then (InsufficientFunds, w) else
          let withdrawn := withdrawn_today account in
          let limit := daily_limit account in
          if withdrawn + amount >? limit
          then (DailyLimitExceeded, w) else
          let account := set_balance (balance account - amount) account in
          let account := set_withdrawn_today (withdrawn + amount) account in
          let account := set_last_withdraw_date (today_str e) account in
          let account :=
            log_transaction e account Withdraw amount (balance account)
              CashWithdrawal in
          let w := with_mem (<[acc_no := account]> (mem w)) w in
          (Success, save_accounts w)
      end
  end.

(** [source] and [target] are distinct objects: the two keys differ. *)
Definition transfer_funds (e : Env) (w : World) (acc_no : string)
    (target_acc_no : string) (inp : option float) : Outcome * World :=
  match mem w !! target_acc_no with
  | None => (NotFound, w)
  | Some target =>
      if decide (target_acc_no = acc_no) then (SameAccount, w) else
      match inp with
      | None => (InvalidAmount, w)
      | Some amount =>
          if amount <=? 0 then (InvalidAmount, w) else
          match mem w !! acc_no with
          | None => (KeyError, w)
          | Some source =>
              let source := reset_daily_withdraw_if_new_day e source in
              let w := with_mem (<[acc_no := source]> (mem w)) w in
              if amount >? balance source
              then (InsufficientFunds, w) else
              let withdrawn := withdrawn_today source in
              let limit := daily_limit source in
              if withdrawn + amount >? limit
              then (DailyLimitExceeded, w) else
              let source := set_balance (balance source - amount) source in
              let source :=
                set_withdrawn_today (withdrawn + amount) source in
              let source := set_last_withdraw_date (today_str e) source in
              let source :=
                log_transaction e source TransferOut amount (balance source)
                  (TransferTo target_acc_no) in
              let w := with_mem (<[acc_no := source]> (mem w)) w in
              let target := set_balance (balance target + amount) target in
              let target :=
                log_transaction e target TransferIn amount (balance target)
                  (TransferFrom acc_no) in
              let w := with_mem (<[target_acc_no := target]> (mem w)) w in
              (Success, save_accounts w)
          end
      end
  end.

(** [txns[-10:]], the lines [mini_statement] prints. *)
Definition mini_statement (w : World) (acc_no : string)
    : option (list Transaction) :=
  (fun account => last_n 10 (transactions account)) <$> mem w !! acc_no.

(** [(today.year - last_date.year) * 12 + (today.month - last_date.month)] *)
Definition months_between (last_date today : Date) : Z :=
  ((year today - year last_date) * 12 + (month today - month last_date))%Z.

Definition apply_interest_if_savings (e : Env) (w : World) (acc_no : string)
    : Outcome * World :=
  match mem w !! acc_no with
  | None => (KeyError, w)
  | Some account =>
      if decide (type account ≠ Savings)
      then (NothingToAccrue NotSavings, w) else
      let rate := interest_rate account in
      if rate <=? 0 then (NothingToAccrue NoRate, w) else
      let months :=
        months_between (last_interest_date account) (today_str e) in
      if (months <=? 0)%Z then (NothingToAccrue UpToDate, w) else
      let bal := balance account in
      let interest := bal * (rate / 12) * float_of_int months in
      if interest <=? 0 then (NothingToAccrue NoInterest, w) else
      let account := set_balance (balance account + interest) account in
      let account := set_last_interest_date (today_str e) account in
      let account :=
        log_transaction e account Interest interest (balance account)
          (InterestFor months rate) in
      let w := with_mem (<[acc_no := account]> (mem w)) w in
      (Success, save_accounts w)
  end.

(** ** Admin features *)

(** The inputs are stripped, and the account type is lowered, as the
    program does before it looks at them.  [pin_is_4_digits] is the value of
    [pin.isdigit() and len(pin) == 4] on the PIN typed: Python counts
    Unicode code points and takes every Unicode digit for a digit, so that
    four Arabic-Indic digits pass as "1234" does. *)
Definition create_account (e : Env) (w : World) (acc_no name_in pin_in : string)
    (pin_is_4_digits : bool) (opening : option float) (acc_type : string)
    : Outcome * World :=
  match mem w !! acc_no with
  | Some _ => (DuplicateId, w)
  | None =>
      if negb pin_is_4_digits then (InvalidPin, w) else
      match opening with
      | None => (InvalidAmount, w)
      | Some opening_balance =>
          if negb (bool_decide (acc_type = "savings")
                   || bool_decide (acc_type = "current"))
          then (InvalidType, w) else
          let today := today_str e in
          let rate := if bool_decide (acc_type = "savings")
                      then 0.04 else 0 in
          let ty := if bool_decide (acc_type = "savings")
                    then Savings else Current in
          let account :=
            mkAccount name_in pin_in opening_balance ty [] 0%Z false
              20000 0 today rate today in
          let account :=
            log_transaction e account Deposit opening_balance opening_balance
              OpeningDeposit in
          let w := with_mem (<[acc_no := account]> (mem w)) w in
          (Success, save_accounts w)
      end
  end.

Definition delete_account (w : World) (acc_no confirm : string)
    : Outcome * World :=
  match mem w !! acc_no with
  | None => (NotFound, w)
  | Some _ =>
      if decide (confirm = "y")
      then (Success, save_accounts (with_mem (delete acc_no (mem w)) w))
      else (Cancelled, w)
  end.

Definition unlock_account (w : World) (acc_no : string) : Outcome * World :=
  match mem w !! acc_no with
  | None => (NotFound, w)
  | Some account =>
      let account := set_locked false account in
      let account := set_failed_attempts 0 account in
      let w := with_mem (<[acc_no := account]> (mem w)) w in
      (Success, save_accounts w)
  end.

(** ** Sessions: the operations the menus offer *)

Inductive Op :=
| OpLogin (acc_no : string) (pins : list string)
| OpDeposit (acc_no : string) (inp : option float)
| OpWithdraw (acc_no : string) (inp : option float)
| OpTransfer (acc_no target_acc_no : string) (inp : option float)
| OpInterest (acc_no : string)
| OpCreate (acc_no name_in pin_in : string) (pin_is_4_digits : bool)
    (opening : option float) (acc_type : string)
| OpDelete (acc_no confirm : string)
| OpUnlock (acc_no : string)
| OpRestart.

(** The world an operation leaves behind, [None] when the program dies of
    an exception ([KeyError], or the end of the input in a login). *)
Definition finished (r : Outcome * World) : option World :=
  match r with
  | (KeyError, _) => None
  | (_, w) => Some w
  end.

Definition exec (e : Env) (w : World) (op : Op) : option World :=
  match op with
  | OpLogin acc_no pins =>
      match authenticate w acc_no pins with
      | AuthDone _ w' => Some w'
      | AwaitPin _ _ => None
      end
  | OpDeposit acc_no inp => finished (deposit_amount e w acc_no inp)
  | OpWithdraw acc_no inp => finished (withdraw_amount e w acc_no inp)
  | OpTransfer acc_no target inp =>
      finished (transfer_funds e w acc_no target inp)
  | OpInterest acc_no => finished (apply_interest_if_savings e w acc_no)
  | OpCreate acc_no name_in pin_in pin_is_4_digits opening acc_type =>
      finished
        (create_account e w acc_no name_in pin_in pin_is_4_digits opening
           acc_type)
  | OpDelete acc_no confirm => finished (delete_account w acc_no confirm)
  | OpUnlock acc_no => finished (unlock_account w acc_no)
  | OpRestart => Some (load_accounts_existing (today_str e) w)
  end.

(** The worlds a run of the program goes through between two operations,
    from the first start on the default accounts.  The menus offer the
    banking operations on the account of the last login only; a run here
    may apply them to any account number, so the runs of the program are
    among these. *)
Inductive reachable : World -> Prop :=
| reachable_seed (today : Date) : reachable (load_accounts_fresh today)
| reachable_step (e : Env) (w w' : World) (op : Op) :
    reachable w -> exec e w op = Some w' -> reachable w'.

(** Runs in which every operation satisfies [allowed]. *)
Inductive reachable_by (allowed : Op -> Prop) : World -> Prop :=
| reachable_by_seed (today : Date) :
    reachable_by allowed (load_accounts_fresh today)
| reachable_by_step (e : Env) (w w' : World) (op : Op) :
    reachable_by allowed w -> allowed op -> exec e w op = Some w' ->
    reachable_by allowed w'.

(** A property of every account, in memory and on disk. *)
Definition all_accounts (P : Account -> Prop) (w : World) : Prop :=
  map_Forall (fun _ => P) (mem w) /\ map_Forall (fun _ => P) (disk w).

(** The entry a call of [log_transaction] appends. *)
Definition entry (e : Env) (t_type : TxnType) (amount balance_after : float)
    (note : Note) : Transaction :=
  mkTransaction (now_str e) t_type amount balance_after note.

(** One call of [log_transaction], as data. *)
Record LogCall := mkLogCall {
  call_env : Env;
  call_type : TxnType;
  call_amount : float;
  call_balance_after : float;
  call_note : Note
}.

Definition call_entry (c : LogCall) : Transaction :=
  entry (call_env c) (call_type c) (call_amount c) (call_balance_after c)
    (call_note c).

Definition log_call (account : Account) (c : LogCall) : Account :=
  log_transaction (call_env c) account (call_type c) (call_amount c)
    (call_balance_after c) (call_note c).

(** ** Properties of accounts *)

Definition history_bounded (a : Account) : Prop :=
  (length (transactions a) <= 50)%nat.

(** What the test [amount <= 0] lets through: the numbers above 0, and
    NaN. *)
Definition positive_or_nan (x : float) : Prop :=
  (0 <? x) = true \/ is_nan x = true.

Definition amounts_positive_or_nan (a : Account) : Prop :=
  Forall (fun t => positive_or_nan (txn_amount t)) (transactions a).


(** Between two operations an account that is not locked has no failed
    attempt on record. *)
Definition attempts_cleared (a : Account) : Prop :=
  locked a = false -> failed_attempts a = 0%Z.

(** ** The mutations of one account, named

    The operations above mutate an account field by field.  The accounts
    they leave behind are named here; the lemmas of the form [_cases] below
    show that each operation stores exactly these. *)

(** Lines 161-162 and 249-251: add to the balance, log. *)
Definition credited (e : Env) (a : Account) (k : TxnType) (amount : float)
    (n : Note) : Account :=
  log_transaction e (set_balance (balance a + amount) a) k amount
    (balance a + amount) n.

(** Lines 195-199 and 242-246, on the account after the daily reset. *)
Definition debited (e : Env) (a : Account) (k : TxnType) (amount : float)
    (n : Note) : Account :=
  log_transaction e
    (set_last_withdraw_date (today_str e)
       (set_withdrawn_today (withdrawn_today a + amount)
          (set_balance (balance a - amount) a)))
    k amount (balance a - amount) n.

(** Line 294. *)
Definition interest_due (e : Env) (a : Account) : float :=
  balance a * (interest_rate a / 12) *
  float_of_int (months_between (last_interest_date a) (today_str e)).

(** Lines 300-303. *)
Definition accrued (e : Env) (a : Account) : Account :=
  log_transaction e
    (set_last_interest_date (today_str e)
       (set_balance (balance a + interest_due e a) a))
    Interest (interest_due e a) (balance a + interest_due e a)
    (InterestFor (months_between (last_interest_date a) (today_str e))
       (interest_rate a)).

(** Lines 354-370. *)
Definition opened (e : Env) (name_in pin_in : string) (opening_balance : float)
    (ty : AccountType) : Account :=
  log_transaction e
    (mkAccount name_in pin_in opening_balance ty [] 0%Z false 20000 0
       (today_str e) (match ty with Savings => 0.04 | Current => 0 end)
       (today_str e))
    Deposit opening_balance opening_balance OpeningDeposit.

(** Lines 399-400. *)
Definition unlocked (a : Account) : Account :=
  set_failed_attempts 0 (set_locked false a).

(** The operations that open an account with a balance satisfying [good]:
    every operation but [create_account] on another opening balance. *)
Definition opening_is (good : float -> Prop) (op : Op) : Prop :=
  match op with
  | OpCreate _ _ _ _ (Some opening_balance) _ => good opening_balance
  | _ => True
  end.

(** The state of a login on an account that is not locked and has no
    failed attempt on record, after [k] wrong PINs. *)
Definition after_wrong_pins (w : World) (acc_no : string) (a : Account)
    (k : nat) : AuthState :=
  match k with
  | 0%nat => AwaitPin 0 w
  | 1%nat | 2%nat =>
      AwaitPin k
        (with_mem (<[acc_no := set_failed_attempts (Z.of_nat k) a]> (mem w)) w)
  | _ =>
      AuthDone AuthLocked
        (save_accounts
           (with_mem
              (<[acc_no := set_locked true (set_failed_attempts 3 a)]>
                 (mem w)) w))
  end.

(** The world after [reset_daily_withdraw_if_new_day(accounts[acc_no])] and
    nothing else: what a withdrawal or a transfer leaves behind when it
    returns after line 181, or 227, without saving. *)
Definition reset_applied (e : Env) (w : World) (acc_no : string) : World :=
  match mem w !! acc_no with
  | Some a =>
      with_mem (<[acc_no := reset_daily_withdraw_if_new_day e a]> (mem w)) w
  | None => w
  end.

(** Two accounts that differ at most in the daily window, the keys
    "withdrawn_today" and "last_withdraw_date". *)
Definition same_but_window (a a' : Account) : Prop :=
  name a' = name a /\ pin a' = pin a /\ balance a' = balance a /\
  type a' = type a /\ transactions a' = transactions a /\
  failed_attempts a' = failed_attempts a /\ locked a' = locked a /\
  daily_limit a' = daily_limit a /\ interest_rate a' = interest_rate a /\
  last_interest_date a' = last_interest_date a.

(** What holds of a login in progress, started in the world [w0]: while it
    waits for a PIN only the account [acc_no] differs from [w0], it is not
    locked and counts the wrong PINs so far, and nothing was saved. *)
Definition login_invariant (w0 : World) (acc_no : string) (s : AuthState)
    : Prop :=
  match s with
  | AwaitPin attempt w =>
      (attempt < 3)%nat /\ disk w = disk w0 /\
      exists a, mem w = <[acc_no := a]> (mem w0) /\
                locked a = false /\ failed_attempts a = Z.of_nat attempt
  | AuthDone _ w => all_accounts attempts_cleared w
  end.

(** ** Floats as numbers *)

(** The rational number a finite float stands for. *)
Definition real_value (x : float) : option Q :=
  match Prim2SF x with
  | S754_zero _ => Some 0%Q
  | S754_finite s m e =>
      Some ((if s then -1 else 1) * inject_Z (Zpos m) * 2 ^ e)%Q
  | S754_infinity _ | S754_nan => None
  end.

(** [x + y <= z], [x' = x - d] and [x' = x + d] on the numbers the floats
    stand for, with nothing rounded; false when one of them is infinite or
    NaN. *)
Definition sum_at_most (x y z : float) : bool :=
  match real_value x, real_value y, real_value z with
  | Some p, Some q, Some r => Qle_bool (p + q) r
  | _, _, _ => false
  end.

Definition less_by (x' x d : float) : bool :=
  match real_value x', real_value x, real_value d with
  | Some p', Some p, Some q => Qeq_bool p' (p - q)
  | _, _, _ => false
  end.

Definition more_by (x' x d : float) : bool :=
  match real_value x', real_value x, real_value d with
  | Some p', Some p, Some q => Qeq_bool p' (p + q)
  | _, _, _ => false
  end.

(** [balance * (rate / 12) * months] on the numbers the floats stand for. *)
Definition exact_interest (e : Env) (a : Account) : option Q :=
  match real_value (balance a), real_value (interest_rate a) with
  | Some b, Some r =>
      Some (b * (r / 12) *
            inject_Z (months_between (last_interest_date a) (today_str e)))%Q
  | _, _ => None
  end.

(** ** Statements that are refuted below *)

(** A transfer that succeeds takes the amount from the balance of the
    source and adds it to the balance of the target, exactly. *)
Definition transfer_moves_amount : Prop :=
  forall e w acc_no target_acc_no amount a t,
    mem w !! acc_no = Some a -> mem w !! target_acc_no = Some t ->
    target_acc_no <> acc_no ->
    let r := transfer_funds e w acc_no target_acc_no (Some amount) in
    r.1 = Success ->
    exists a' t',
      mem r.2 !! acc_no = Some a' /\ mem r.2 !! target_acc_no = Some t' /\
      less_by (balance a') (balance a) amount = true /\
      more_by (balance t') (balance t) amount = true.

(** A withdrawal succeeds exactly when the amount is above 0, at most the
    balance, and the amount withdrawn today plus the amount, as numbers, is
    at most the daily limit. *)
Definition withdraw_rule : Prop :=
  forall e w acc_no a amount,
    mem w !! acc_no = Some a ->
    let a0 := reset_daily_withdraw_if_new_day e a in
    (withdraw_amount e w acc_no (Some amount)).1 = Success <->
    (0 <? amount) = true /\ (amount <=? balance a0) = true /\
    sum_at_most (withdrawn_today a0) amount (daily_limit a0) = true.

(** On every account that is not locked the third wrong PIN of a login
    locks, and the right PIN after fewer than three wrong ones logs in. *)
Definition lockout_on_third_wrong_pin : Prop :=
  forall w acc_no a wrong,
    mem w !! acc_no = Some a -> locked a = false ->
    Forall (fun p => p <> pin a) wrong ->
    (length wrong = 3%nat ->
     exists w' a',
       authenticate w acc_no wrong = AuthDone AuthLocked w' /\
       mem w' !! acc_no = Some a' /\ locked a' = true) /\
    ((length wrong < 3)%nat ->
     exists w' a',
       authenticate w acc_no (wrong ++ [pin a]) =
         AuthDone (Authenticated acc_no) w' /\
       mem w' !! acc_no = Some a' /\ failed_attempts a' = 0%Z).

(** On a savings account with a rate above 0, after at least one month,
    interest is applied whenever [balance * (rate / 12) * months], as a
    number, is above 0. *)
Definition interest_commits : Prop :=
  forall e w acc_no a due,
    mem w !! acc_no = Some a -> type a = Savings ->
    (0 <? interest_rate a) = true ->
    (0 < months_between (last_interest_date a) (today_str e))%Z ->
    exact_interest e a = Some due -> (0 < due)%Q ->
    (apply_interest_if_savings e w acc_no).1 = Success.

(** A call that reports a failure leaves the dictionary as it was. *)
Definition failed_calls_leave_ledger : Prop :=
  forall e w acc_no target_acc_no inp,
    ((deposit_amount e w acc_no inp).1 <> Success ->
     mem (deposit_amount e w acc_no inp).2 = mem w) /\
    ((withdraw_amount e w acc_no inp).1 <> Success ->
     mem (withdraw_amount e w acc_no inp).2 = mem w) /\
    ((transfer_funds e w acc_no target_acc_no inp).1 <> Success ->
     mem (transfer_funds e w acc_no target_acc_no inp).2 = mem w) /\
    ((apply_interest_if_savings e w acc_no).1 <> Success ->
     mem (apply_interest_if_savings e w acc_no).2 = mem w).

(** The store on disk follows the dictionary in memory after every PIN. *)
Definition saved_after_every_submission : Prop :=
  forall w acc_no pins,
    disk w = mem w ->
    disk (auth_world (authenticate w acc_no pins)) =
    mem (auth_world (authenticate w acc_no pins)).

(** What holds of the store on disk during a login started in [w0]. *)
Definition save_invariant (w0 : World) (acc_no : string) (s : AuthState)
    : Prop :=
  match s with
  | AwaitPin _ w => disk w = disk w0 /\ is_Some (mem w !! acc_no)
  | AuthDone r w =>
      disk w = mem w \/ (w = w0 /\ authenticate_begin w0 acc_no = AuthDone r w0)
  end.

(** ** Sample data for the examples *)

Definition day1 : Date := mkDate 2024 1 15.
Definition day2 : Date := mkDate 2024 1 16.
Definition env1 : Env := mkEnv day1 "2024-01-15 10:00:00".
Definition env2 : Env := mkEnv day2 "2024-01-16 09:30:00".

(** Three months after the first start. *)
Definition day3 : Date := mkDate 2024 4 2.
Definition env3 : Env := mkEnv day3 "2024-04-02 12:00:00".

(** The world after the first start, on [day1]. *)
Definition seed_world : World := load_accounts_fresh day1.

(** The first default account, "1001". *)
Definition rahul : Account :=
  mkAccount "Rahul Sharma" "1234" 15000 Savings [] 0%Z false 20000 0 day1
    0.04 day1.

Definition sample_call (amount : float) : LogCall :=
  mkLogCall env1 Deposit amount amount CashDeposit.

(** An account opened on a negative balance, and one opened on nothing. *)
Definition opened_overdrawn : Outcome * World :=
  create_account env2 seed_world "2001" "Asha Rao" "1111" true (Some (-500))
    "current".

Definition opened_empty : Outcome * World :=
  create_account env2 seed_world "2002" "Vikram Nair" "2222" true (Some 0)
    "savings".

(** The second default account, "1002", on [day1]. *)
Definition priya_seed : Account :=
  mkAccount "Priya Verma" "4321" 8000 Current [] 0%Z false 30000 0 day1
    0 day1.

(** An account opened on 1e17, a number above 2^53: next to it the floats
    are 16 apart. *)
Definition rich_world : World :=
  (create_account env1 seed_world "3001" "Kiran Das" "7777" true (Some 1e17)
     "current").2.

(** An account opened on 50000, after a withdrawal of 19999 on the same
    day: 1 below the daily limit of 20000. *)
Definition near_limit_world : World :=
  (withdraw_amount env1
     (create_account env1 seed_world "3003" "Leela Bose" "3333" true
        (Some 50000) "current").2
     "3003" (Some 19999)).2.

(** The float after 1, typed as 1.0000000000000002. *)
Definition just_above_one : float := 0x1.0000000000001p0.

(** A savings account opened on the smallest float above 0, typed as
    5e-324. *)
Definition smallest_positive : float := 0x1p-1074.

Definition dust_world : World :=
  (create_account env1 seed_world "3002" "Mohan Rao" "5555" true
     (Some smallest_positive) "savings").2.

(** A data file in which the first default account is not locked and has
    two failed attempts on record. *)
Definition two_strikes_world : World :=
  load_accounts day1
    (Some (<["1001" := set_failed_attempts 2 rahul]>
             (create_default_accounts day1))).

(** ** The menus

    A menu reads a choice and calls the operation chosen, which reads its
    own lines.  One turn of a menu loop is the record of the lines typed in
    it (a line the turn does not read is ignored) and of the clock. *)

(** How far a function got on the input it was given: it returned, it is
    blocked on [input] with nothing left to read, or it died of a
    [KeyError]. *)
Inductive Run :=
| Finished (w : World)
| Pending (w : World)
| Died.

Definition run_world (r : Run) : option World :=
  match r with
  | Finished w | Pending w => Some w
  | Died => None
  end.

Record AtmTurn := mkAtmTurn {
  atm_env : Env;
  atm_choice : string;
  atm_target : string;
  atm_amount : option float
}.

(** [atm_menu]: the loop ends on choice "7". *)
Fixpoint atm_menu (w : World) (acc_no : string) (turns : list AtmTurn) : Run :=
  match turns with
  | [] => Pending w
  | t :: rest =>
      let e := atm_env t in
      if decide (atm_choice t = "1") then
        match check_balance w acc_no with
        | Some _ => atm_menu w acc_no rest
        | None => Died
        end
      else if decide (atm_choice t = "2") then
        match finished (deposit_amount e w acc_no (atm_amount t)) with
        | Some w' => atm_menu w' acc_no rest
        | None => Died
        end
      else if decide (atm_choice t = "3") then
        match finished (withdraw_amount e w acc_no (atm_amount t)) with
        | Some w' => atm_menu w' acc_no rest
        | None => Died
        end
      else if decide (atm_choice t = "4") then
        match finished
                (transfer_funds e w acc_no (atm_target t) (atm_amount t)) with
        | Some w' => atm_menu w' acc_no rest
        | None => Died
        end
      else if decide (atm_choice t = "5") then
        match mini_statement w acc_no with
        | Some _ => atm_menu w acc_no rest
        | None => Died
        end
      else if decide (atm_choice t = "6") then
        match finished (apply_interest_if_savings e w acc_no) with
        | Some w' => atm_menu w' acc_no rest
        | None => Died
        end
      else if decide (atm_choice t = "7") then Finished w
      else atm_menu w acc_no rest
  end.

Definition ADMIN_USERNAME : string := "admin".
Definition ADMIN_PASSWORD : string := "admin123".

Definition admin_login (username password : string) : bool :=
  bool_decide (username = ADMIN_USERNAME)
  && bool_decide (password = ADMIN_PASSWORD).

Record AdminTurn := mkAdminTurn {
  adm_env : Env;
  adm_choice : string;
  adm_acc_no : string;
  adm_name : string;
  adm_pin : string;
  adm_pin_is_4_digits : bool;
  adm_opening : option float;
  adm_type : string;
  adm_confirm : string
}.

(** The loop of [admin_menu], behind the login: it ends on choice "5";
    choice "4", [view_all_accounts], prints and changes nothing. *)
Fixpoint admin_loop (w : World) (turns : list AdminTurn) : Run :=
  match turns with
  | [] => Pending w
  | t :: rest =>
      if decide (adm_choice t = "1") then
        match finished
                (create_account (adm_env t) w (adm_acc_no t) (adm_name t)
                   (adm_pin t) (adm_pin_is_4_digits t) (adm_opening t)
                   (adm_type t)) with
        | Some w' => admin_loop w' rest
        | None => Died
        end
      else if decide (adm_choice t = "2") then
        match finished (delete_account w (adm_acc_no t) (adm_confirm t)) with
        | Some w' => admin_loop w' rest
        | None => Died
        end
      else if decide (adm_choice t = "3") then
        match finished (unlock_account w (adm_acc_no t)) with
        | Some w' => admin_loop w' rest
        | None => Died
        end
      else if decide (adm_choice t = "4") then admin_loop w rest
      else if decide (adm_choice t = "5") then Finished w
      else admin_loop w rest
  end.

Definition admin_menu (w : World) (username password : string)
    (turns : list AdminTurn) : Run :=
  if negb (admin_login username password) then Finished w
  else admin_loop w turns.

(** One turn of the loop of [main]: the choice, and what is typed in the
    login and in the menu it leads to. *)
Record MainTurn := mkMainTurn {
  main_choice : string;
  main_acc_no : string;
  main_pins : list string;
  main_atm : list AtmTurn;
  main_username : string;
  main_password : string;
  main_admin : list AdminTurn
}.

(** [if acc_no:] on the value [authenticate] returns: [None] and the empty
    string are false. *)
Definition truthy (r : option string) : option string :=
  match r with
  | Some "" => None
  | other => other
  end.

Fixpoint main_loop (w : World) (turns : list MainTurn) : Run :=
  match turns with
  | [] => Pending w
  | t :: rest =>
      if decide (main_choice t = "1") then
        match authenticate w (main_acc_no t) (main_pins t) with
        | AwaitPin _ w' => Pending w'
        | AuthDone r w' =>
            match truthy (auth_return r) with
            | Some acc_no =>
                match atm_menu w' acc_no (main_atm t) with
                | Finished w'' => main_loop w'' rest
                | stuck => stuck
                end
            | None => main_loop w' rest
            end
        end
      else if decide (main_choice t = "2") then
        match admin_menu w (main_username t) (main_password t)
                (main_admin t) with
        | Finished w' => main_loop w' rest
        | stuck => stuck
        end
      else if decide (main_choice t = "3") then Finished w
      else main_loop w rest
  end.

(** [main], on the content of the data file at the start. *)
Definition main (today : Date) (file : option Ledger) (turns : list MainTurn)
    : Run :=
  main_loop (load_accounts today file) turns.

(** ** More properties of worlds and accounts *)

(** The file holds every account of the dictionary, up to the daily
    window: a restart loses nothing else. *)
Definition durable (w : World) : Prop :=
  forall id,
    match disk w !! id, mem w !! id with
    | Some d, Some m => same_but_window d m
    | None, None => True
    | _, _ => False
    end.

(** Two accounts that differ at most in the keys a login assigns,
    "failed_attempts" and "locked". *)
Definition same_but_attempts (a a' : Account) : Prop :=
  name a' = name a /\ pin a' = pin a /\ balance a' = balance a /\
  type a' = type a /\ transactions a' = transactions a /\
  daily_limit a' = daily_limit a /\ withdrawn_today a' = withdrawn_today a /\
  last_withdraw_date a' = last_withdraw_date a /\
  interest_rate a' = interest_rate a /\
  last_interest_date a' = last_interest_date a.

(** The keys no operation assigns once the account exists. *)
Definition same_identity (a a' : Account) : Prop :=
  name a' = name a /\ pin a' = pin a /\ type a' = type a /\
  daily_limit a' = daily_limit a /\ interest_rate a' = interest_rate a.

(** Closes the rows of a decision table once the tests are decided. *)
Ltac table_row :=
  intros;
  repeat match goal with
  | H : _ /\ _ |- _ => destruct H
  | H : is_Some _ |- _ => destruct H
  | H : exists _, _ |- _ => destruct H
  | H : _ \/ _ |- _ => destruct H
  end;
  simplify_eq; simpl in *;
  first [done | congruence | tauto | solve [eauto 6]].

Ltac table := split_and?; first [table_row | split; table_row | idtac].

(** What holds of a login on [acc_no] started in the world [w0], once the
    PINs [typed] have been read. *)
Definition login_trace (w0 : World) (acc_no : string) (typed : list string)
    (s : AuthState) : Prop :=
  (forall id, id <> acc_no -> mem (auth_world s) !! id = mem w0 !! id) /\
  match mem w0 !! acc_no with
  | None => s = AuthDone AuthNotFound w0
  | Some a =>
      (exists a', mem (auth_world s) !! acc_no = Some a' /\
                  same_but_attempts a a' /\
                  (locked a' = false -> locked a = false)) /\
      (locked a = true -> s = AuthDone AuthLocked w0) /\
      match s with
      | AwaitPin attempt _ =>
          attempt = length typed /\ (attempt < 3)%nat /\
          Forall (fun p => p <> pin a) typed
      | AuthDone (Authenticated id) _ =>
          id = acc_no /\ locked a = false /\
          exists wrong rest,
            typed = wrong ++ pin a :: rest /\
            Forall (fun p => p <> pin a) wrong /\ (length wrong < 3)%nat
      | AuthDone _ _ => True
      end
  end.

(** What a banking operation may do to an account: it keeps the identity,
    the lock and the count of failed attempts. *)
Definition banking_related (a a' : Account) : Prop :=
  same_identity a a' /\ locked a' = locked a /\
  failed_attempts a' = failed_attempts a.

(** What a session may do to the account of somebody else: change its
    balance and its history, by a transfer into it. *)
Definition same_but_funds (a a' : Account) : Prop :=
  name a' = name a /\ pin a' = pin a /\ type a' = type a /\
  failed_attempts a' = failed_attempts a /\ locked a' = locked a /\
  daily_limit a' = daily_limit a /\ withdrawn_today a' = withdrawn_today a /\
  last_withdraw_date a' = last_withdraw_date a /\
  interest_rate a' = interest_rate a /\
  last_interest_date a' = last_interest_date a.

(** Two dictionaries with the same account numbers, the account of each
    number changed within [R]. *)
Definition ledger_related (R : string -> Account -> Account -> Prop)
    (m m' : Ledger) : Prop :=
  forall id,
    match m !! id, m' !! id with
    | Some a, Some a' => R id a a'
    | None, None => True
    | _, _ => False
    end.

(** What a session of [acc_no] may do to the account [id]. *)
Definition session_related (acc_no id : string) (a a' : Account) : Prop :=
  banking_related a a' /\ (id <> acc_no -> same_but_funds a a').

(** A session on "1001": a deposit, a transfer to "1002", a look at the
    balance, and the logout. *)
Definition sample_session : list AtmTurn :=
  [mkAtmTurn env2 "2" "" (Some 300);
   mkAtmTurn env2 "4" "1002" (Some 1000);
   mkAtmTurn env2 "1" "" None;
   mkAtmTurn env2 "7" "" None].

(** What an admin session may leave under an account number: nothing, the
    account that was there with at most its lock and its count of failed
    attempts changed, or an account opened anew by [create_account]. *)
Definition admin_related (o o' : option Account) : Prop :=
  o' = None \/
  (exists a a', o = Some a /\ o' = Some a' /\ same_but_attempts a a') \/
  (exists e name_in pin_in b ty a',
     o' = Some a' /\ same_but_attempts (opened e name_in pin_in b ty) a').

(** The clock is not read in a login. *)
Definition no_clock : Env := mkEnv (mkDate 0 0 0) "".

(** The world after three wrong PINs on "1001": the account is locked. *)
Definition locked_world : World :=
  auth_world (authenticate seed_world "1001" ["0000"; "1111"; "2222"]).

(** ** Comparisons of floats *)

Section Comparisons.
Implicit Types x y : float.

Lemma SFcompare_antisym (u v : spec_float) :
  SFcompare v u = CompOpp <$> SFcompare u v.
Proof.
  destruct u as [s1 | s1 | | s1 m1 e1], v as [s2 | s2 | | s2 m2 e2];
    try reflexivity;
    try (destruct s1; reflexivity); try (destruct s2; reflexivity);
    try (destruct s1, s2; reflexivity).
  simpl. destruct s1, s2; try reflexivity;
    rewrite (Z.compare_antisym e1 e2);
    destruct (e1 ?= e2)%Z eqn:He; simpl; try reflexivity;
    rewrite (Pos.compare_cont_antisym m1 m2 Eq); simpl;
    try reflexivity; rewrite CompOpp_involutive; reflexivity.
Qed.

Lemma SFcompare_None (u v : spec_float) :
  SFcompare u v = None <-> u = S754_nan \/ v = S754_nan.
Proof.
  destruct u as [s1 | s1 | | s1 m1 e1], v as [s2 | s2 | | s2 m2 e2];
    simpl; split; intros H; try discriminate; auto;
    destruct H; discriminate.
Qed.

Lemma is_nan_Prim2SF x : is_nan x = true <-> Prim2SF x = S754_nan.
Proof.
  split.
  - intros H. unfold Prim2SF. rewrite H. reflexivity.
  - intros H. unfold Prim2SF in H.
    destruct (is_nan x); [reflexivity|].
    destruct (is_zero x); [discriminate|].
    destruct (is_infinity x); [discriminate|].
    destruct (Z.frexp x) as [r ex].
    destruct (shr_fexp prec emax _ _ _) as [sh e'].
    destruct (shr_m sh); discriminate.
Qed.

Lemma compare_defined x y :
  is_nan x = false -> is_nan y = false ->
  exists c, SFcompare (Prim2SF x) (Prim2SF y) = Some c.
Proof.
  intros Hx Hy.
  destruct (SFcompare (Prim2SF x) (Prim2SF y)) as [c|] eqn:Hc; [eauto|].
  apply SFcompare_None in Hc as [H | H]; apply is_nan_Prim2SF in H; congruence.
Qed.

(** [x < y] excludes [y <= x], and [x <= y] excludes [y < x]. *)
Lemma ltb_not_leb x y : (x <? y) = true -> (y <=? x) = false.
Proof.
  rewrite ltb_spec, leb_spec. unfold SFltb, SFleb.
  rewrite (SFcompare_antisym (Prim2SF x) (Prim2SF y)).
  destruct (SFcompare (Prim2SF x) (Prim2SF y)) as [[]|]; simpl; congruence.
Qed.

Lemma leb_not_ltb x y : (x <=? y) = true -> (y <? x) = false.
Proof.
  rewrite ltb_spec, leb_spec. unfold SFltb, SFleb.
  rewrite (SFcompare_antisym (Prim2SF x) (Prim2SF y)).
  destruct (SFcompare (Prim2SF x) (Prim2SF y)) as [[]|]; simpl; congruence.
Qed.

(** Between two numbers one of [x <= y] and [y < x] holds. *)
Lemma not_leb_ltb x y :
  is_nan x = false -> is_nan y = false -> (x <=? y) = false -> (y <? x) = true.
Proof.
  intros Hx Hy. destruct (compare_defined x y Hx Hy) as [c Hc].
  rewrite ltb_spec, leb_spec. unfold SFltb, SFleb.
  rewrite (SFcompare_antisym (Prim2SF x) (Prim2SF y)), Hc.
  destruct c; simpl; congruence.
Qed.

Lemma not_ltb_leb x y :
  is_nan x = false -> is_nan y = false -> (x <? y) = false -> (y <=? x) = true.
Proof.
  intros Hx Hy. destruct (compare_defined x y Hx Hy) as [c Hc].
  rewrite ltb_spec, leb_spec. unfold SFltb, SFleb.
  rewrite (SFcompare_antisym (Prim2SF x) (Prim2SF y)), Hc.
  destruct c; simpl; congruence.
Qed.

(** Every comparison with NaN is false. *)
Lemma leb_nan_l x y : is_nan x = true -> (x <=? y) = false.
Proof.
  intros H. apply is_nan_Prim2SF in H.
  rewrite leb_spec, H. reflexivity.
Qed.

Lemma ltb_nan_r x y : is_nan y = true -> (x <? y) = false.
Proof.
  intros H. apply is_nan_Prim2SF in H.
  rewrite ltb_spec, H. unfold SFltb. destruct (Prim2SF x); reflexivity.
Qed.

Lemma ltb_is_number x y :
  (x <? y) = true -> is_nan x = false /\ is_nan y = false.
Proof.
  rewrite ltb_spec. unfold SFltb. intros H.
  destruct (is_nan x) eqn:Hx.
  { apply is_nan_Prim2SF in Hx. rewrite Hx in H. discriminate. }
  destruct (is_nan y) eqn:Hy; [|auto].
  apply is_nan_Prim2SF in Hy. rewrite Hy in H.
  destruct (Prim2SF x); discriminate.
Qed.

(** A sum or a difference with NaN is NaN. *)
Lemma add_nan x y : is_nan y = true -> is_nan (x + y) = true.
Proof.
  intros H. apply is_nan_Prim2SF in H. apply is_nan_Prim2SF.
  rewrite add_spec, H. destruct (Prim2SF x); reflexivity.
Qed.

Lemma sub_nan x y : is_nan y = true -> is_nan (x - y) = true.
Proof.
  intros H. apply is_nan_Prim2SF in H. apply is_nan_Prim2SF.
  rewrite sub_spec, H. destruct (Prim2SF x); reflexivity.
Qed.

Lemma leb_false_positive_or_nan x : (x <=? 0) = false -> positive_or_nan x.
Proof.
  intros H. unfold positive_or_nan.
  destruct (is_nan x) eqn:Hx; [right; reflexivity | left].
  apply not_leb_ltb; [exact Hx | reflexivity | exact H].
Qed.

Lemma positive_or_nan_leb_false x : positive_or_nan x -> (x <=? 0) = false.
Proof.
  intros [H | H]; [apply ltb_not_leb, H | apply leb_nan_l, H].
Qed.

End Comparisons.

(** Closes a goal whose hypotheses hold two comparisons that exclude each
    other. *)
Ltac float_order :=
  repeat match goal with
  | H : PrimFloat.ltb ?x ?y = true |- _ =>
      lazymatch goal with
      | _ : PrimFloat.leb y x = false |- _ => fail
      | _ => pose proof (ltb_not_leb x y H)
      end
  | H : PrimFloat.leb ?x ?y = true |- _ =>
      lazymatch goal with
      | _ : PrimFloat.ltb y x = false |- _ => fail
      | _ => pose proof (leb_not_ltb x y H)
      end
  end;
  congruence.

(** ** Lists: the last [n] elements *)

Section LastN.
Context {A : Type}.
Implicit Types l : list A.

Lemma last_n_all n l : (length l <= n)%nat -> last_n n l = l.
Proof.
  intros Hle. unfold last_n.
  replace (length l - n)%nat with 0%nat by lia. reflexivity.
Qed.

Lemma last_n_length n l : length (last_n n l) = Nat.min n (length l).
Proof. unfold last_n. rewrite length_drop. lia. Qed.

Lemma last_n_length_le n l : (length (last_n n l) <= n)%nat.
Proof. rewrite last_n_length. lia. Qed.

(** Truncating, appending and truncating again is appending and
    truncating once. *)
Lemma last_n_last_n_app n l1 l2 :
  last_n n (last_n n l1 ++ l2) = last_n n (l1 ++ l2).
Proof.
  destruct (Nat.le_gt_cases (length l1) n) as [Hle | Hgt].
  - rewrite (last_n_all n l1) by exact Hle. reflexivity.
  - assert (Hlen : length (last_n n l1) = n)
      by (rewrite last_n_length; lia).
    unfold last_n at 1 3. rewrite !length_app, Hlen.
    replace (n + length l2 - n)%nat with (length l2) by lia.
    replace (length l1 + length l2 - n)%nat
      with ((length l1 - n) + length l2)%nat by lia.
    rewrite <- drop_drop. f_equal.
    unfold last_n. rewrite drop_app_le by lia. reflexivity.
Qed.

Lemma last_n_snoc_last n l x : (0 < n)%nat -> last (last_n n (l ++ [x])) = Some x.
Proof.
  intros Hn. unfold last_n. rewrite length_app. simpl.
  rewrite drop_app_le by lia. apply last_snoc.
Qed.

End LastN.

(** ** [log_transaction] *)

(** The new list is the old one with the entry appended, cut to its last
    fifty elements; everything else is left alone. *)
Lemma log_transaction_eq e a k amt bal n :
  log_transaction e a k amt bal n =
  set_transactions (last_n 50 (transactions a ++ [entry e k amt bal n])) a.
Proof.
  unfold log_transaction, entry.
  destruct (Nat.ltb_spec 50
    (length (transactions a ++ [mkTransaction (now_str e) k amt bal n])))
    as [Hlt | Hle].
  - reflexivity.
  - rewrite last_n_all by exact Hle. reflexivity.
Qed.

Lemma log_transaction_transactions e a k amt bal n :
  transactions (log_transaction e a k amt bal n) =
  last_n 50 (transactions a ++ [entry e k amt bal n]).
Proof. rewrite log_transaction_eq. reflexivity. Qed.

Lemma log_transaction_length e a k amt bal n :
  (length (transactions (log_transaction e a k amt bal n)) <= 50)%nat.
Proof. rewrite log_transaction_transactions. apply last_n_length_le. Qed.

Lemma log_transaction_last e a k amt bal n :
  last (transactions (log_transaction e a k amt bal n)) =
  Some (entry e k amt bal n).
Proof.
  rewrite log_transaction_transactions. apply last_n_snoc_last. lia.
Qed.

(** A run of calls on one account keeps the last fifty entries of the
    whole history. *)
Lemma log_calls_transactions calls : forall a,
  (length (transactions a) <= 50)%nat ->
  transactions (foldl log_call a calls) =
  last_n 50 (transactions a ++ map call_entry calls).
Proof.
  induction calls as [|c calls IH]; intros a Ha; simpl.
  - rewrite app_nil_r, last_n_all by exact Ha. reflexivity.
  - rewrite IH by apply log_transaction_length.
    unfold log_call. rewrite log_transaction_transactions.
    fold (call_entry c).
    rewrite last_n_last_n_app, <- app_assoc. reflexivity.
Qed.

(** ** What each operation stores *)

Lemma deposit_amount_cases e w acc_no a amount :
  mem w !! acc_no = Some a ->
  deposit_amount e w acc_no (Some amount) =
  if amount <=? 0 then (InvalidAmount, w)
  else (Success,
        save_accounts
          (with_mem (<[acc_no := credited e a Deposit amount CashDeposit]>
                       (mem w)) w)).
Proof. intros Ha. unfold deposit_amount. rewrite Ha. reflexivity. Qed.

Lemma withdraw_amount_cases e w acc_no a amount :
  mem w !! acc_no = Some a ->
  let a0 := reset_daily_withdraw_if_new_day e a in
  withdraw_amount e w acc_no (Some amount) =
  if amount <=? 0 then (InvalidAmount, w)
  else if amount >? balance a0
  then (InsufficientFunds, with_mem (<[acc_no := a0]> (mem w)) w)
  else if withdrawn_today a0 + amount >? daily_limit a0
  then (DailyLimitExceeded, with_mem (<[acc_no := a0]> (mem w)) w)
  else (Success,
        save_accounts
          (with_mem (<[acc_no := debited e a0 Withdraw amount CashWithdrawal]>
                       (mem w)) w)).
Proof.
  intros Ha a0. unfold withdraw_amount. rewrite Ha. fold a0.
  repeat case_match; try reflexivity.
  simpl. rewrite insert_insert_eq. reflexivity.
Qed.

Lemma transfer_funds_cases e w acc_no target_acc_no a t amount :
  mem w !! acc_no = Some a ->
  mem w !! target_acc_no = Some t ->
  target_acc_no <> acc_no ->
  let a0 := reset_daily_withdraw_if_new_day e a in
  transfer_funds e w acc_no target_acc_no (Some amount) =
  if amount <=? 0 then (InvalidAmount, w)
  else if amount >? balance a0
  then (InsufficientFunds, with_mem (<[acc_no := a0]> (mem w)) w)
  else if withdrawn_today a0 + amount >? daily_limit a0
  then (DailyLimitExceeded, with_mem (<[acc_no := a0]> (mem w)) w)
  else (Success,
        save_accounts
          (with_mem
             (<[target_acc_no :=
                  credited e t TransferIn amount (TransferFrom acc_no)]>
                (<[acc_no :=
                     debited e a0 TransferOut amount
                       (TransferTo target_acc_no)]> (mem w))) w)).
Proof.
  intros Ha Ht Hne a0. unfold transfer_funds. rewrite Ht, Ha. fold a0.
  destruct (decide (target_acc_no = acc_no)) as [Heq | _]; [contradiction|].
  repeat case_match; try reflexivity.
  simpl. rewrite insert_insert_eq. reflexivity.
Qed.

Lemma apply_interest_cases e w acc_no a :
  mem w !! acc_no = Some a ->
  apply_interest_if_savings e w acc_no =
  if decide (type a <> Savings) then (NothingToAccrue NotSavings, w)
  else if interest_rate a <=? 0 then (NothingToAccrue NoRate, w)
  else if (months_between (last_interest_date a) (today_str e) <=? 0)%Z
  then (NothingToAccrue UpToDate, w)
  else if interest_due e a <=? 0 then (NothingToAccrue NoInterest, w)
  else (Success,
        save_accounts (with_mem (<[acc_no := accrued e a]> (mem w)) w)).
Proof. intros Ha. unfold apply_interest_if_savings. rewrite Ha. reflexivity. Qed.

Lemma create_account_cases e w acc_no name_in pin_in pin_is_4_digits
    opening_balance acc_type :
  mem w !! acc_no = None ->
  create_account e w acc_no name_in pin_in pin_is_4_digits
    (Some opening_balance) acc_type =
  if negb pin_is_4_digits then (InvalidPin, w)
  else if bool_decide (acc_type = "savings")
  then (Success,
        save_accounts
          (with_mem (<[acc_no :=
                         opened e name_in pin_in opening_balance Savings]>
                       (mem w)) w))
  else if bool_decide (acc_type = "current")
  then (Success,
        save_accounts
          (with_mem (<[acc_no :=
                         opened e name_in pin_in opening_balance Current]>
                       (mem w)) w))
  else (InvalidType, w).
Proof.
  intros Ha. unfold create_account. rewrite Ha.
  repeat case_match; try reflexivity; try discriminate.
Qed.

Lemma unlock_account_cases w acc_no a :
  mem w !! acc_no = Some a ->
  unlock_account w acc_no =
  (Success, save_accounts (with_mem (<[acc_no := unlocked a]> (mem w)) w)).
Proof. intros Ha. unfold unlock_account. rewrite Ha. reflexivity. Qed.

(** ** The sample world *)

Lemma seed_world_rahul : mem seed_world !! "1001" = Some rahul.
Proof. reflexivity. Qed.

Lemma seed_world_reachable : reachable seed_world.
Proof. apply reachable_seed. Qed.

(** ** Invariants of the accounts, along every run *)

Lemma all_accounts_save P w m :
  map_Forall (fun _ => P) m -> all_accounts P (save_accounts (with_mem m w)).
Proof. intros Hm. split; exact Hm. Qed.

Lemma all_accounts_with_mem P w m :
  map_Forall (fun _ => P) m -> all_accounts P w ->
  all_accounts P (with_mem m w).
Proof. intros Hm [_ Hd]. split; [exact Hm | exact Hd]. Qed.

Lemma all_accounts_seed P today :
  (forall id a, create_default_accounts today !! id = Some a -> P a) ->
  all_accounts P (load_accounts_fresh today).
Proof. intros H. split; exact H. Qed.

Lemma all_accounts_restart P today w :
  all_accounts P w -> all_accounts P (load_accounts_existing today w).
Proof. intros [_ Hd]. split; exact Hd. Qed.

(** Induction along a run, for a property of single accounts. *)
Lemma reachable_by_all_accounts (allowed : Op -> Prop) (P : Account -> Prop) :
  (forall today id a, create_default_accounts today !! id = Some a -> P a) ->
  (forall e w op w', allowed op -> all_accounts P w ->
     exec e w op = Some w' -> all_accounts P w') ->
  forall w, reachable_by allowed w -> all_accounts P w.
Proof.
  intros Hseed Hstep w Hw.
  induction Hw as [today | e w w' op _ IH Hop Hexec].
  - apply all_accounts_seed, Hseed.
  - exact (Hstep e w op w' Hop IH Hexec).
Qed.

Lemma reachable_by_weaken (allowed : Op -> Prop) w :
  reachable_by allowed w -> reachable w.
Proof.
  induction 1 as [today | e w w' op _ IH _ Hexec].
  - constructor.
  - exact (reachable_step e w w' op IH Hexec).
Qed.

Lemma authenticate_preserves_fields (P : Account -> Prop) acc_no pins :
  (forall a v, P a -> P (set_failed_attempts v a)) ->
  (forall a v, P a -> P (set_locked v a)) ->
  forall s, all_accounts P (auth_world s) ->
  all_accounts P (auth_world (foldl (feed_pin acc_no) s pins)).
Proof.
  intros Hfa Hlk. induction pins as [|p pins IH]; intros s Hs; simpl.
  - exact Hs.
  - apply IH. destruct s as [attempt w | r w]; simpl; [|exact Hs].
    simpl in Hs. destruct Hs as [Hm Hd].
    unfold submit_pin.
    destruct (mem w !! acc_no) as [a|] eqn:Ha; simpl; [|by split].
    pose proof (Hm acc_no a Ha) as HPa. simpl in HPa.
    repeat case_match; simpl;
      (split; [| try exact Hd]);
      repeat (apply map_Forall_insert_2; [auto|]); auto.
Qed.

(** A login keeps every property that does not read the two keys it
    assigns. *)
Lemma login_preserves_fields (P : Account -> Prop) :
  (forall a v, P a -> P (set_failed_attempts v a)) ->
  (forall a v, P a -> P (set_locked v a)) ->
  forall w acc_no pins r w',
  all_accounts P w -> authenticate w acc_no pins = AuthDone r w' ->
  all_accounts P w'.
Proof.
  intros Hfa Hlk w acc_no pins r w' Hw Hauth.
  pose proof (authenticate_preserves_fields P acc_no pins Hfa Hlk
                (authenticate_begin w acc_no)) as H.
  unfold authenticate in Hauth. rewrite Hauth in H. simpl in H. apply H.
  unfold authenticate_begin. repeat case_match; exact Hw.
Qed.

(** One operation keeps a property of accounts that the mutations keep. *)
Section Preservation.
Variable P : Account -> Prop.
Variable good : float -> Prop.

Hypothesis P_login : forall w acc_no pins r w',
  all_accounts P w -> authenticate w acc_no pins = AuthDone r w' ->
  all_accounts P w'.
Hypothesis P_unlocked : forall a, P a -> P (unlocked a).
Hypothesis P_reset : forall e a, P a -> P (reset_daily_withdraw_if_new_day e a).
Hypothesis P_credited : forall e a k amount n,
  P a -> (amount <=? 0) = false -> P (credited e a k amount n).
Hypothesis P_debited : forall e a k amount n,
  P a -> (amount <=? 0) = false -> (amount >? balance a) = false ->
  (withdrawn_today a + amount >? daily_limit a) = false ->
  P (debited e a k amount n).
Hypothesis P_accrued : forall e a,
  P a -> (interest_due e a <=? 0) = false -> P (accrued e a).
Hypothesis P_opened : forall e name_in pin_in opening_balance ty,
  good opening_balance -> P (opened e name_in pin_in opening_balance ty).

Lemma exec_preserves e w op w' :
  opening_is good op -> all_accounts P w -> exec e w op = Some w' ->
  all_accounts P w'.
Proof.
  intros Hop Hw Hexec. pose proof Hw as [Hm Hd].
  destruct op as [acc_no pins | acc_no [amount|] | acc_no [amount|]
                 | acc_no target [amount|] | acc_no
                 | acc_no name_in pin_in pin_is_4_digits [opening_balance|]
                     acc_type
                 | acc_no confirm | acc_no | ]; cbn [exec] in Hexec.
  - (* login *)
    destruct (authenticate w acc_no pins) as [k wk | r wr] eqn:Hauth;
      [discriminate|].
    simplify_eq. exact (P_login w acc_no pins r w' Hw Hauth).
  - (* deposit *)
    destruct (mem w !! acc_no) as [a|] eqn:Ha.
    + rewrite (deposit_amount_cases e w acc_no a amount Ha) in Hexec.
      destruct (amount <=? 0) eqn:Hpos; simpl in Hexec; simplify_eq;
        [exact Hw|].
      apply all_accounts_save, map_Forall_insert_2; [|exact Hm].
      apply P_credited; [exact (Hm _ _ Ha) | exact Hpos].
    + unfold deposit_amount in Hexec. rewrite Ha in Hexec.
      destruct (amount <=? 0); simpl in Hexec; simplify_eq. exact Hw.
  - simpl in Hexec. simplify_eq. exact Hw.
  - (* withdraw *)
    destruct (mem w !! acc_no) as [a|] eqn:Ha.
    + rewrite (withdraw_amount_cases e w acc_no a amount Ha) in Hexec.
      pose proof (P_reset e a (Hm _ _ Ha)) as Hreset.
      destruct (amount <=? 0) eqn:Hpos; simpl in Hexec;
        [simplify_eq; exact Hw|].
      destruct (amount >? _) eqn:Hbal; simpl in Hexec.
      { simplify_eq. apply all_accounts_with_mem; [|exact Hw].
        apply map_Forall_insert_2; assumption. }
      destruct (_ + amount >? _) eqn:Hlim; simpl in Hexec.
      { simplify_eq. apply all_accounts_with_mem; [|exact Hw].
        apply map_Forall_insert_2; assumption. }
      simplify_eq. apply all_accounts_save, map_Forall_insert_2; [|exact Hm].
      apply P_debited; assumption.
    + unfold withdraw_amount in Hexec. rewrite Ha in Hexec.
      destruct (amount <=? 0); simpl in Hexec; simplify_eq. exact Hw.
  - simpl in Hexec. simplify_eq. exact Hw.
  - (* transfer *)
    destruct (mem w !! target) as [t|] eqn:Ht;
      [|unfold transfer_funds in Hexec; rewrite Ht in Hexec;
        simpl in Hexec; simplify_eq; exact Hw].
    destruct (decide (target = acc_no)) as [Heq | Hne].
    { unfold transfer_funds in Hexec. rewrite Ht in Hexec.
      destruct (decide (target = acc_no)); [|contradiction].
      simpl in Hexec. simplify_eq. exact Hw. }
    destruct (mem w !! acc_no) as [a|] eqn:Ha.
    + rewrite (transfer_funds_cases e w acc_no target a t amount Ha Ht Hne)
        in Hexec.
      pose proof (P_reset e a (Hm _ _ Ha)) as Hreset.
      destruct (amount <=? 0) eqn:Hpos; simpl in Hexec;
        [simplify_eq; exact Hw|].
      destruct (amount >? _) eqn:Hbal; simpl in Hexec.
      { simplify_eq. apply all_accounts_with_mem; [|exact Hw].
        apply map_Forall_insert_2; assumption. }
      destruct (_ + amount >? _) eqn:Hlim; simpl in Hexec.
      { simplify_eq. apply all_accounts_with_mem; [|exact Hw].
        apply map_Forall_insert_2; assumption. }
      simplify_eq. apply all_accounts_save.
      apply map_Forall_insert_2;
        [apply P_credited; [exact (Hm _ _ Ht) | exact Hpos]|].
      apply map_Forall_insert_2; [|exact Hm].
      apply P_debited; assumption.
    + unfold transfer_funds in Hexec. rewrite Ht, Ha in Hexec.
      destruct (decide (target = acc_no)); [contradiction|].
      destruct (amount <=? 0); simpl in Hexec; simplify_eq. exact Hw.
  - unfold transfer_funds in Hexec.
    repeat case_match; simpl in Hexec; simplify_eq; exact Hw.
  - (* interest *)
    destruct (mem w !! acc_no) as [a|] eqn:Ha;
      [|unfold apply_interest_if_savings in Hexec; rewrite Ha in Hexec;
        discriminate].
    rewrite (apply_interest_cases e w acc_no a Ha) in Hexec.
    repeat case_match; simpl in Hexec; simplify_eq; try exact Hw.
    apply all_accounts_save, map_Forall_insert_2; [|exact Hm].
    apply P_accrued; [exact (Hm _ _ Ha) | assumption].
  - (* create *)
    destruct (mem w !! acc_no) as [a|] eqn:Ha;
      [unfold create_account in Hexec; rewrite Ha in Hexec;
       simpl in Hexec; simplify_eq; exact Hw|].
    rewrite (create_account_cases e w acc_no _ _ _ _ _ Ha) in Hexec.
    simpl in Hop.
    repeat case_match; simpl in Hexec; simplify_eq; try exact Hw;
      apply all_accounts_save, map_Forall_insert_2;
        solve [exact Hm | apply P_opened, Hop].
  - unfold create_account in Hexec.
    repeat case_match; simpl in Hexec; simplify_eq; exact Hw.
  - (* delete *)
    unfold delete_account in Hexec.
    repeat case_match; simpl in Hexec; simplify_eq; try exact Hw.
    apply all_accounts_save, map_Forall_delete, Hm.
  - (* unlock *)
    destruct (mem w !! acc_no) as [a|] eqn:Ha;
      [|unfold unlock_account in Hexec; rewrite Ha in Hexec;
        simpl in Hexec; simplify_eq; exact Hw].
    rewrite (unlock_account_cases w acc_no a Ha) in Hexec.
    simpl in Hexec. simplify_eq.
    apply all_accounts_save, map_Forall_insert_2; [|exact Hm].
    apply P_unlocked, (Hm _ _ Ha).
  - (* restart *)
    simplify_eq. apply all_accounts_restart, Hw.
Qed.

Lemma reachable_by_preserves :
  (forall today id a, create_default_accounts today !! id = Some a -> P a) ->
  forall w, reachable_by (opening_is good) w -> all_accounts P w.
Proof.
  intros Hseed. apply reachable_by_all_accounts; [exact Hseed|].
  intros e w op w'. apply exec_preserves.
Qed.

End Preservation.

(** *** The history holds at most fifty entries *)


Lemma reachable_opening_any w :
  reachable w -> reachable_by (opening_is (fun _ => True)) w.
Proof.
  induction 1 as [today | e w w' op _ IH Hexec].
  - constructor.
  - apply (reachable_by_step _ e w w' op IH); [|exact Hexec].
    destruct op; simpl; auto. destruct opening; exact I.
Qed.

Lemma seed_accounts (P : Account -> Prop) today :
  P (mkAccount "Rahul Sharma" "1234" 15000 Savings [] 0%Z false 20000 0 today
       0.04 today) ->
  P (mkAccount "Priya Verma" "4321" 8000 Current [] 0%Z false 30000 0 today
       0 today) ->
  forall id a, create_default_accounts today !! id = Some a -> P a.
Proof.
  intros H1 H2 id a Hid. unfold create_default_accounts in Hid.
  apply lookup_insert_Some in Hid as [[_ <-] | [_ Hid]]; [exact H2|].
  apply lookup_insert_Some in Hid as [[_ <-] | [_ Hid]]; [exact H1|].
  rewrite lookup_empty in Hid. discriminate.
Qed.

Lemma reset_fields e a :
  let a0 := reset_daily_withdraw_if_new_day e a in
  balance a0 = balance a /\ transactions a0 = transactions a /\
  locked a0 = locked a /\ failed_attempts a0 = failed_attempts a /\
  daily_limit a0 = daily_limit a /\ pin a0 = pin a /\ name a0 = name a /\
  type a0 = type a /\ interest_rate a0 = interest_rate a /\
  last_interest_date a0 = last_interest_date a.
Proof.
  unfold reset_daily_withdraw_if_new_day. case_match; simpl; repeat split.
Qed.

Lemma history_bounded_reachable w :
  reachable w -> all_accounts history_bounded w.
Proof.
  intros Hw. apply reachable_opening_any in Hw. revert w Hw.
  apply (reachable_by_preserves history_bounded (fun _ => True)).
  - apply login_preserves_fields; intros a v Ha; exact Ha.
  - intros a Ha. exact Ha.
  - intros e a Ha. unfold history_bounded.
    destruct (reset_fields e a) as (_ & -> & _). exact Ha.
  - intros. apply log_transaction_length.
  - intros. apply log_transaction_length.
  - intros. apply log_transaction_length.
  - intros. apply log_transaction_length.
  - intros today. apply seed_accounts; unfold history_bounded; simpl; lia.
Qed.

(** *** The daily limit *)




(** *** Logged amounts, when every account is opened on a positive balance *)

Lemma amounts_log e a k amount bal n :
  amounts_positive_or_nan a -> positive_or_nan amount ->
  amounts_positive_or_nan (log_transaction e a k amount bal n).
Proof.
  intros Ha Hpos. unfold amounts_positive_or_nan in *.
  rewrite log_transaction_transactions. unfold last_n.
  apply Forall_drop, Forall_app. split; [exact Ha|].
  constructor; [exact Hpos | constructor].
Qed.

(** X2. Along every run in which every account is opened on a balance
    above 0, no logged transaction, in memory or on disk, has an amount
    that is 0 or below: every amount is above 0, or is NaN, which the test
    [amount <= 0] lets through. *)
Theorem amounts_positive_reachable w :
  reachable_by (opening_is (fun b => (0 <? b) = true)) w ->
  all_accounts amounts_positive_or_nan w.
Proof.
  revert w. apply (reachable_by_preserves amounts_positive_or_nan).
  - apply login_preserves_fields; intros a v Ha; exact Ha.
  - intros a Ha. exact Ha.
  - intros e a Ha. unfold amounts_positive_or_nan.
    destruct (reset_fields e a) as (_ & -> & _). exact Ha.
  - intros e a k amount n Ha Hpos.
    apply amounts_log; [exact Ha | apply leb_false_positive_or_nan, Hpos].
  - intros e a k amount n Ha Hpos _ _.
    apply amounts_log; [exact Ha | apply leb_false_positive_or_nan, Hpos].
  - intros e a Ha Hpos.
    apply amounts_log; [exact Ha | apply leb_false_positive_or_nan, Hpos].
  - intros e name_in pin_in b ty Hb.
    apply amounts_log; [constructor | left; exact Hb].
  - intros today. apply seed_accounts; constructor.
Qed.

Lemma amounts_positive_reachable_witness :
  all_accounts amounts_positive_or_nan
    (deposit_amount env2 seed_world "1002" (Some 700)).2 /\
  (length ∘ transactions <$>
     mem (deposit_amount env2 seed_world "1002" (Some 700)).2 !! "1002")
  = Some 1%nat.
Proof.
  split; [|vm_compute; reflexivity].
  apply amounts_positive_reachable.
  apply (reachable_by_step _ env2 seed_world _ (OpDeposit "1002" (Some 700))).
  - apply reachable_by_seed.
  - exact I.
  - vm_compute. reflexivity.
Defined.

(** *** The fields of the accounts the operations store *)

Lemma debited_fields e a k amount n :
  let a' := debited e a k amount n in
  balance a' = balance a - amount /\
  withdrawn_today a' = withdrawn_today a + amount /\
  last_withdraw_date a' = today_str e /\
  transactions a' =
    last_n 50 (transactions a ++ [entry e k amount (balance a - amount) n]) /\
  name a' = name a /\ pin a' = pin a /\ type a' = type a /\
  failed_attempts a' = failed_attempts a /\ locked a' = locked a /\
  daily_limit a' = daily_limit a /\ interest_rate a' = interest_rate a /\
  last_interest_date a' = last_interest_date a.
Proof.
  unfold debited. rewrite log_transaction_eq. simpl. repeat split.
Qed.

Lemma credited_fields e a k amount n :
  let a' := credited e a k amount n in
  balance a' = balance a + amount /\
  transactions a' =
    last_n 50 (transactions a ++ [entry e k amount (balance a + amount) n]) /\
  withdrawn_today a' = withdrawn_today a /\
  last_withdraw_date a' = last_withdraw_date a /\
  name a' = name a /\ pin a' = pin a /\ type a' = type a /\
  failed_attempts a' = failed_attempts a /\ locked a' = locked a /\
  daily_limit a' = daily_limit a /\ interest_rate a' = interest_rate a /\
  last_interest_date a' = last_interest_date a.
Proof.
  unfold credited. rewrite log_transaction_eq. simpl. repeat split.
Qed.

Lemma accrued_fields e a :
  let a' := accrued e a in
  balance a' = balance a + interest_due e a /\
  last_interest_date a' = today_str e /\
  transactions a' =
    last_n 50
      (transactions a ++
       [entry e Interest (interest_due e a) (balance a + interest_due e a)
          (InterestFor (months_between (last_interest_date a) (today_str e))
             (interest_rate a))]) /\
  withdrawn_today a' = withdrawn_today a /\
  last_withdraw_date a' = last_withdraw_date a /\
  name a' = name a /\ pin a' = pin a /\ type a' = type a /\
  failed_attempts a' = failed_attempts a /\ locked a' = locked a /\
  daily_limit a' = daily_limit a /\ interest_rate a' = interest_rate a.
Proof.
  unfold accrued. rewrite log_transaction_eq. simpl. repeat split.
Qed.

Lemma reset_window e a :
  let a0 := reset_daily_withdraw_if_new_day e a in
  (last_withdraw_date a <> today_str e ->
   withdrawn_today a0 = 0 /\ last_withdraw_date a0 = today_str e) /\
  (last_withdraw_date a = today_str e -> a0 = a).
Proof.
  unfold reset_daily_withdraw_if_new_day.
  destruct (decide (last_withdraw_date a <> today_str e)) as [Hne | Heq];
    simpl; split; intros H; try contradiction; auto.
Qed.

(** *** Transfers and withdrawals, case by case *)

Lemma transfer_funds_success e w acc_no target_acc_no inp w' :
  transfer_funds e w acc_no target_acc_no inp = (Success, w') ->
  exists amount a t,
    inp = Some amount /\ target_acc_no <> acc_no /\
    mem w !! acc_no = Some a /\ mem w !! target_acc_no = Some t /\
    (amount <=? 0) = false /\
    (amount >? balance a) = false /\
    (withdrawn_today (reset_daily_withdraw_if_new_day e a) + amount
       >? daily_limit a) = false /\
    w' = save_accounts
           (with_mem
              (<[target_acc_no :=
                   credited e t TransferIn amount (TransferFrom acc_no)]>
                 (<[acc_no :=
                      debited e (reset_daily_withdraw_if_new_day e a)
                        TransferOut amount (TransferTo target_acc_no)]>
                    (mem w))) w).
Proof.
  intros H.
  destruct (mem w !! target_acc_no) as [t|] eqn:Ht;
    [|unfold transfer_funds in H; rewrite Ht in H; discriminate].
  destruct (decide (target_acc_no = acc_no)) as [Heq | Hne];
    [unfold transfer_funds in H; rewrite Ht in H;
     destruct (decide (target_acc_no = acc_no)); [discriminate | contradiction]|].
  destruct inp as [amount|];
    [|unfold transfer_funds in H; rewrite Ht in H;
      destruct (decide (target_acc_no = acc_no)); discriminate].
  destruct (mem w !! acc_no) as [a|] eqn:Ha;
    [|unfold transfer_funds in H; rewrite Ht, Ha in H;
      destruct (decide (target_acc_no = acc_no)); [discriminate|];
      destruct (amount <=? 0); discriminate].
  rewrite (transfer_funds_cases e w acc_no target_acc_no a t amount Ha Ht Hne)
    in H.
  destruct (reset_fields e a) as (Hbal & _ & _ & _ & Hlim & _).
  rewrite Hbal, Hlim in H.
  destruct (amount <=? 0) eqn:Hpos; [discriminate|].
  destruct (amount >? balance a) eqn:Hfunds; [discriminate|].
  destruct (_ >? daily_limit a) eqn:Hcap; [discriminate|].
  exists amount, a, t. simplify_eq.
  repeat split; assumption.
Qed.

Lemma transfer_funds_failure e w acc_no target_acc_no inp r w' :
  transfer_funds e w acc_no target_acc_no inp = (r, w') -> r <> Success ->
  (In r [NotFound; SameAccount; InvalidAmount; KeyError] /\ w' = w) \/
  (In r [InsufficientFunds; DailyLimitExceeded] /\
   w' = reset_applied e w acc_no).
Proof.
  intros H Hr. unfold transfer_funds, reset_applied in *.
  repeat case_match; simplify_eq; simpl; auto 10.
Qed.

Lemma withdraw_amount_failure e w acc_no inp r w' :
  withdraw_amount e w acc_no inp = (r, w') -> r <> Success ->
  (In r [InvalidAmount; KeyError] /\ w' = w) \/
  (In r [InsufficientFunds; DailyLimitExceeded] /\
   w' = reset_applied e w acc_no).
Proof.
  intros H Hr. unfold withdraw_amount, reset_applied in *.
  repeat case_match; simplify_eq; simpl; auto 10.
Qed.

Lemma deposit_amount_failure e w acc_no inp r w' :
  deposit_amount e w acc_no inp = (r, w') -> r <> Success ->
  In r [InvalidAmount; KeyError] /\ w' = w.
Proof.
  intros H Hr. unfold deposit_amount in *.
  repeat case_match; simplify_eq; simpl; auto 10.
Qed.

Lemma apply_interest_failure e w acc_no r w' :
  apply_interest_if_savings e w acc_no = (r, w') -> r <> Success ->
  (r = KeyError \/ exists why, r = NothingToAccrue why) /\ w' = w.
Proof.
  intros H Hr. unfold apply_interest_if_savings in *.
  repeat case_match; simplify_eq; simpl; eauto 10.
Qed.

(** The daily reset alone: no account but [acc_no] changes, and [acc_no]
    changes in its daily window only. *)
Lemma reset_applied_accounts e w acc_no :
  disk (reset_applied e w acc_no) = disk w /\
  (forall id, id <> acc_no ->
     mem (reset_applied e w acc_no) !! id = mem w !! id) /\
  (forall a, mem w !! acc_no = Some a ->
     mem (reset_applied e w acc_no) !! acc_no =
       Some (reset_daily_withdraw_if_new_day e a) /\
     same_but_window a (reset_daily_withdraw_if_new_day e a)) /\
  (forall a, mem w !! acc_no = Some a ->
     last_withdraw_date a = today_str e -> reset_applied e w acc_no = w).
Proof.
  unfold reset_applied.
  destruct (mem w !! acc_no) as [a|] eqn:Ha.
  - split; [reflexivity|]. split; [|split].
    + intros id Hid. simpl. apply lookup_insert_ne. congruence.
    + intros a' [= <-]. simpl. rewrite lookup_insert_eq.
      split; [reflexivity|].
      destruct (reset_fields e a)
        as (H1 & H2 & H3 & H4 & H5 & H6 & H7 & H8 & H9 & H10).
      unfold same_but_window. repeat split; assumption.
    + intros a' [= <-] Hdate.
      destruct (reset_window e a) as [_ Hsame]. rewrite (Hsame Hdate).
      rewrite insert_id by exact Ha. destruct w; reflexivity.
  - repeat split; intros; congruence.
Qed.

(** *** Logins *)

Lemma submit_pin_right acc_no attempt w a :
  mem w !! acc_no = Some a ->
  submit_pin acc_no attempt w (pin a) =
  AuthDone (Authenticated acc_no)
    (save_accounts
       (with_mem (<[acc_no := set_failed_attempts 0 a]> (mem w)) w)).
Proof.
  intros Ha. unfold submit_pin. rewrite Ha.
  destruct (decide (pin a = pin a)); [reflexivity | contradiction].
Qed.

Lemma submit_pin_wrong acc_no attempt w a p :
  mem w !! acc_no = Some a -> p <> pin a ->
  submit_pin acc_no attempt w p =
  if (3 <=? failed_attempts a + 1)%Z
  then AuthDone AuthLocked
         (save_accounts
            (with_mem
               (<[acc_no :=
                    set_locked true
                      (set_failed_attempts (failed_attempts a + 1) a)]>
                  (mem w)) w))
  else if (S attempt <? 3)%nat
  then AwaitPin (S attempt)
         (with_mem
            (<[acc_no := set_failed_attempts (failed_attempts a + 1) a]>
               (mem w)) w)
  else AuthDone AuthExhausted
         (save_accounts
            (with_mem
               (<[acc_no := set_failed_attempts (failed_attempts a + 1) a]>
                  (mem w)) w)).
Proof.
  intros Ha Hp. unfold submit_pin. rewrite Ha.
  destruct (decide (p = pin a)); [contradiction|]. simpl.
  destruct (3 <=? failed_attempts a + 1)%Z; [|reflexivity].
  rewrite insert_insert_eq. reflexivity.
Qed.

Lemma authenticate_snoc w acc_no pins p :
  authenticate w acc_no (pins ++ [p]) =
  feed_pin acc_no (authenticate w acc_no pins) p.
Proof. unfold authenticate. rewrite foldl_app. reflexivity. Qed.

Lemma set_failed_attempts_twice v1 v2 a :
  set_failed_attempts v2 (set_failed_attempts v1 a) = set_failed_attempts v2 a.
Proof. reflexivity. Qed.

Lemma authenticate_wrong_pins w acc_no a pins :
  mem w !! acc_no = Some a -> locked a = false -> failed_attempts a = 0%Z ->
  Forall (fun p => p <> pin a) pins ->
  authenticate w acc_no pins = after_wrong_pins w acc_no a (length pins).
Proof.
  intros Ha Hlk Hfa.
  induction pins as [|p pins IH] using rev_ind; intros Hwrong.
  - unfold authenticate, authenticate_begin. simpl. rewrite Ha, Hlk.
    reflexivity.
  - apply Forall_app in Hwrong as [Hpins Hp].
    apply Forall_inv in Hp.
    rewrite authenticate_snoc, IH by exact Hpins.
    rewrite length_app. simpl.
    destruct (length pins) as [|[|[|k]]]; simpl.
    + rewrite (submit_pin_wrong acc_no 0 w a p Ha Hp), Hfa. reflexivity.
    + rewrite (submit_pin_wrong acc_no 1 _ (set_failed_attempts 1 a) p);
        [|simpl; apply lookup_insert_eq | exact Hp].
      simpl. rewrite insert_insert_eq. reflexivity.
    + rewrite (submit_pin_wrong acc_no 2 _ (set_failed_attempts 2 a) p);
        [|simpl; apply lookup_insert_eq | exact Hp].
      simpl. rewrite insert_insert_eq. reflexivity.
    + replace (k + 1)%nat with (S k) by lia. reflexivity.
Qed.

Lemma authenticate_right_pin w acc_no a pins :
  mem w !! acc_no = Some a -> locked a = false -> failed_attempts a = 0%Z ->
  Forall (fun p => p <> pin a) pins -> (length pins < 3)%nat ->
  authenticate w acc_no (pins ++ [pin a]) =
  AuthDone (Authenticated acc_no)
    (save_accounts (with_mem (<[acc_no := a]> (mem w)) w)).
Proof.
  intros Ha Hlk Hfa Hwrong Hlen.
  rewrite authenticate_snoc,
    (authenticate_wrong_pins w acc_no a pins Ha Hlk Hfa Hwrong).
  assert (Hid : set_failed_attempts 0 a = a).
  { destruct a; simpl in *; subst; reflexivity. }
  destruct (length pins) as [|[|[|k]]]; simpl; [| | |lia].
  - rewrite (submit_pin_right acc_no 0 w a Ha), Hid. reflexivity.
  - rewrite (submit_pin_right acc_no 1 _ (set_failed_attempts 1 a));
      [|simpl; apply lookup_insert_eq].
    cbn [mem with_mem].
    rewrite insert_insert_eq, set_failed_attempts_twice, Hid. reflexivity.
  - rewrite (submit_pin_right acc_no 2 _ (set_failed_attempts 2 a));
      [|simpl; apply lookup_insert_eq].
    cbn [mem with_mem].
    rewrite insert_insert_eq, set_failed_attempts_twice, Hid. reflexivity.
Qed.

Lemma feed_pin_invariant w0 acc_no s p :
  all_accounts attempts_cleared w0 ->
  login_invariant w0 acc_no s -> login_invariant w0 acc_no (feed_pin acc_no s p).
Proof.
  intros [Hm0 Hd0] Hs. destruct s as [attempt w | r w]; [|exact Hs].
  destruct Hs as (Hlt & Hdisk & a & Hmem & Hlk & Hfa). simpl.
  assert (Ha : mem w !! acc_no = Some a)
    by (rewrite Hmem; apply lookup_insert_eq).
  destruct (decide (p = pin a)) as [-> | Hp].
  - rewrite (submit_pin_right acc_no attempt w a Ha). simpl.
    apply all_accounts_save. rewrite Hmem, insert_insert_eq.
    apply map_Forall_insert_2; [|exact Hm0]. intros _. reflexivity.
  - rewrite (submit_pin_wrong acc_no attempt w a p Ha Hp).
    destruct (3 <=? failed_attempts a + 1)%Z eqn:Hthree.
    + apply all_accounts_save. rewrite Hmem, insert_insert_eq.
      apply map_Forall_insert_2; [|exact Hm0].
      intros Hfalse. simpl in Hfalse. discriminate.
    + apply Z.leb_gt in Hthree.
      destruct (S attempt <? 3)%nat eqn:Hnext.
      * apply Nat.ltb_lt in Hnext. simpl.
        split; [exact Hnext|]. split; [exact Hdisk|].
        exists (set_failed_attempts (failed_attempts a + 1) a).
        rewrite Hmem, insert_insert_eq. simpl.
        split; [reflexivity|]. split; [exact Hlk | lia].
      * apply Nat.ltb_ge in Hnext. lia.
Qed.

Lemma authenticate_invariant w acc_no pins :
  all_accounts attempts_cleared w ->
  login_invariant w acc_no (authenticate w acc_no pins).
Proof.
  intros Hw. unfold authenticate.
  assert (Hbegin : login_invariant w acc_no (authenticate_begin w acc_no)).
  { unfold authenticate_begin.
    destruct (mem w !! acc_no) as [a|] eqn:Ha; [|exact Hw].
    destruct (locked a) eqn:Hlk; [exact Hw|]. simpl.
    split; [lia|]. split; [reflexivity|]. exists a.
    split; [symmetry; apply insert_id, Ha|].
    split; [exact Hlk|]. destruct Hw as [Hm _]. exact (Hm _ _ Ha Hlk). }
  revert Hbegin. generalize (authenticate_begin w acc_no).
  induction pins as [|p pins IH]; intros s Hs; [exact Hs|].
  simpl. apply IH, feed_pin_invariant; [exact Hw | exact Hs].
Qed.

Lemma attempts_cleared_login w acc_no pins r w' :
  all_accounts attempts_cleared w ->
  authenticate w acc_no pins = AuthDone r w' ->
  all_accounts attempts_cleared w'.
Proof.
  intros Hw Hauth.
  pose proof (authenticate_invariant w acc_no pins Hw) as Hinv.
  rewrite Hauth in Hinv. exact Hinv.
Qed.

Lemma attempts_cleared_reachable w :
  reachable w -> all_accounts attempts_cleared w.
Proof.
  intros Hw. apply reachable_opening_any in Hw. revert w Hw.
  apply (reachable_by_preserves attempts_cleared (fun _ => True)).
  - apply attempts_cleared_login.
  - intros a _ _. reflexivity.
  - intros e a Ha. unfold attempts_cleared.
    destruct (reset_fields e a) as (_ & _ & -> & -> & _). exact Ha.
  - intros e a k amount n Ha _. unfold credited.
    rewrite log_transaction_eq. exact Ha.
  - intros e a k amount n Ha _ _ _. unfold debited.
    rewrite log_transaction_eq. exact Ha.
  - intros e a Ha _. unfold accrued. rewrite log_transaction_eq. exact Ha.
  - intros e name_in pin_in b ty _. unfold opened.
    rewrite log_transaction_eq. intros _. reflexivity.
  - intros today. apply seed_accounts; intros _; reflexivity.
Qed.

(** C5, as stated, fails: on an account that is not locked and has two
    failed attempts on record the first wrong PIN locks, and the right PIN
    typed after it is refused. *)
Lemma lockout_on_third_wrong_pin_fails : ~ lockout_on_third_wrong_pin.
Proof.
  intros Hclaim.
  destruct (Hclaim two_strikes_world "1001" (set_failed_attempts 2 rahul)
              ["0000"]) as [_ Hlogin].
  - reflexivity.
  - reflexivity.
  - repeat constructor. discriminate.
  - destruct Hlogin as (w' & a' & Hauth & _); [simpl; lia|].
    vm_compute in Hauth. discriminate.
Qed.

(** C5, amended. On an account that is not locked and has no failed attempt
    on record - as every account of a run from the default accounts that is
    not locked - three wrong PINs in one login lock the account and end
    the login with the lock message, fewer than three leave it unlocked and
    the login waiting; the right PIN after fewer than three wrong ones ends
    the login with the account number returned, no failed attempt on record
    and the account not locked. *)
Theorem lockout_determinism w acc_no a :
  mem w !! acc_no = Some a -> locked a = false ->
  (reachable w -> failed_attempts a = 0%Z) /\
  (failed_attempts a = 0%Z ->
   (forall pins, Forall (fun p => p <> pin a) pins -> length pins = 3%nat ->
      exists w' a',
        authenticate w acc_no pins = AuthDone AuthLocked w' /\
        mem w' !! acc_no = Some a' /\ locked a' = true /\
        disk w' = mem w') /\
   (forall pins, Forall (fun p => p <> pin a) pins -> (length pins < 3)%nat ->
      exists w' a',
        authenticate w acc_no pins = AwaitPin (length pins) w' /\
        mem w' !! acc_no = Some a' /\ locked a' = false /\
        failed_attempts a' = Z.of_nat (length pins)) /\
   (forall pins, Forall (fun p => p <> pin a) pins -> (length pins < 3)%nat ->
      exists r w' a',
        authenticate w acc_no (pins ++ [pin a]) = AuthDone r w' /\
        auth_return r = Some acc_no /\
        mem w' !! acc_no = Some a' /\ failed_attempts a' = 0%Z /\
        locked a' = false /\ disk w' = mem w')).
Proof.
  intros Ha Hlk. split.
  { intros Hw. destruct (attempts_cleared_reachable w Hw) as [Hm _].
    exact (Hm _ _ Ha Hlk). }
  intros Hfa. split; [|split].
  - intros pins Hwrong Hlen.
    rewrite (authenticate_wrong_pins w acc_no a pins Ha Hlk Hfa Hwrong), Hlen.
    simpl. eexists _, _. split; [reflexivity|]. simpl.
    rewrite lookup_insert_eq. repeat split.
  - intros pins Hwrong Hlen.
    rewrite (authenticate_wrong_pins w acc_no a pins Ha Hlk Hfa Hwrong).
    destruct (length pins) as [|[|[|k]]]; [| | |lia]; simpl.
    + exists w, a. repeat split; assumption.
    + eexists _, _. split; [reflexivity|]. simpl.
      rewrite lookup_insert_eq. repeat split. exact Hlk.
    + eexists _, _. split; [reflexivity|]. simpl.
      rewrite lookup_insert_eq. repeat split. exact Hlk.
  - intros pins Hwrong Hlen.
    rewrite (authenticate_right_pin w acc_no a pins Ha Hlk Hfa Hwrong Hlen).
    eexists _, _, _. split; [reflexivity|]. simpl.
    rewrite lookup_insert_eq. repeat split; assumption.
Qed.

Lemma lockout_determinism_witness :
  mem seed_world !! "1001" = Some rahul /\ locked rahul = false /\
  failed_attempts rahul = 0%Z /\
  exists w' a',
    authenticate seed_world "1001" ["0000"; "1111"; "2222"] =
      AuthDone AuthLocked w' /\
    mem w' !! "1001" = Some a' /\ locked a' = true /\ disk w' = mem w'.
Proof.
  split; [exact seed_world_rahul|].
  split; [reflexivity|].
  split; [reflexivity|].
  destruct (lockout_determinism seed_world "1001" rahul
              seed_world_rahul eq_refl) as [_ Hlock].
  apply (Hlock eq_refl).
  - repeat constructor; discriminate.
  - reflexivity.
Defined.

Lemma feed_pin_save_invariant w0 acc_no s p :
  save_invariant w0 acc_no s -> save_invariant w0 acc_no (feed_pin acc_no s p).
Proof.
  intros Hs. destruct s as [attempt w | r w]; [|exact Hs].
  destruct Hs as [Hdisk [a Ha]]. simpl. unfold submit_pin. rewrite Ha.
  repeat case_match; simpl; try (left; reflexivity).
  split; [exact Hdisk|]. rewrite lookup_insert_eq. eexists. reflexivity.
Qed.

Lemma authenticate_save_invariant w acc_no pins :
  save_invariant w acc_no (authenticate w acc_no pins).
Proof.
  unfold authenticate.
  assert (Hbegin : save_invariant w acc_no (authenticate_begin w acc_no)).
  { unfold authenticate_begin.
    destruct (mem w !! acc_no) as [a|] eqn:Ha.
    - destruct (locked a) eqn:Hlk; simpl.
      + right. split; [reflexivity|].
        unfold authenticate_begin. rewrite Ha, Hlk. reflexivity.
      + split; [reflexivity|]. rewrite Ha. eexists. reflexivity.
    - simpl. right. split; [reflexivity|].
      unfold authenticate_begin. rewrite Ha. reflexivity. }
  revert Hbegin. generalize (authenticate_begin w acc_no).
  induction pins as [|p pins IH]; intros s Hs; [exact Hs|].
  simpl. apply IH, feed_pin_save_invariant, Hs.
Qed.

(** C9, as stated, fails: after one wrong PIN on the first default account
    the count of failed attempts is 1 in memory and 0 on disk. *)
Lemma saved_after_every_submission_fails : ~ saved_after_every_submission.
Proof.
  intros Hclaim.
  specialize (Hclaim seed_world "1001" ["0000"] eq_refl).
  apply (f_equal (fun m => failed_attempts <$> m !! "1001")) in Hclaim.
  vm_compute in Hclaim. discriminate.
Qed.

Lemma feed_pins_done acc_no r w pins :
  foldl (feed_pin acc_no) (AuthDone r w) pins = AuthDone r w.
Proof. induction pins as [|p pins IH]; [reflexivity | exact IH]. Qed.

Lemma authenticate_not_found w acc_no pins :
  mem w !! acc_no = None -> authenticate w acc_no pins = AuthDone AuthNotFound w.
Proof.
  intros Hnone. unfold authenticate, authenticate_begin. rewrite Hnone.
  apply feed_pins_done.
Qed.

Lemma authenticate_locked w acc_no a pins :
  mem w !! acc_no = Some a -> locked a = true ->
  authenticate w acc_no pins = AuthDone AuthLocked w.
Proof.
  intros Ha Hlk. unfold authenticate, authenticate_begin. rewrite Ha, Hlk.
  apply feed_pins_done.
Qed.

Lemma authenticate_done_app w acc_no pins more r w' :
  authenticate w acc_no pins = AuthDone r w' ->
  authenticate w acc_no (pins ++ more) = AuthDone r w'.
Proof.
  intros H. unfold authenticate in *. rewrite foldl_app, H.
  apply feed_pins_done.
Qed.

Lemma set_failed_attempts_same a : set_failed_attempts (failed_attempts a) a = a.
Proof. destruct a; reflexivity. Qed.

Lemma with_mem_same w : with_mem (mem w) w = w.
Proof. destruct w; reflexivity. Qed.

(** A login on an account that is not locked, after wrong PINs that
    neither lock the account nor end the login: the count of failed attempts
    has gone up in memory by their number, and nothing else has changed. *)
Lemma authenticate_wrong_prefix w acc_no a pins :
  mem w !! acc_no = Some a -> locked a = false ->
  Forall (fun p => p <> pin a) pins -> (length pins < 3)%nat ->
  (failed_attempts a + Z.of_nat (length pins) < 3)%Z ->
  authenticate w acc_no pins =
  AwaitPin (length pins)
    (with_mem
       (<[acc_no :=
            set_failed_attempts
              (failed_attempts a + Z.of_nat (length pins)) a]> (mem w)) w).
Proof.
  intros Ha Hlk.
  induction pins as [|p pins IH] using rev_ind; intros Hwrong Hlen Hfa.
  - unfold authenticate, authenticate_begin. simpl. rewrite Ha, Hlk.
    rewrite Z.add_0_r, set_failed_attempts_same, insert_id by exact Ha.
    rewrite with_mem_same. reflexivity.
  - apply Forall_app in Hwrong as [Hpins Hp]. apply Forall_inv in Hp.
    rewrite length_app in Hlen, Hfa |- *. simpl in Hlen, Hfa |- *.
    rewrite authenticate_snoc, IH by (try exact Hpins; lia). simpl.
    rewrite (submit_pin_wrong acc_no _ _
               (set_failed_attempts
                  (failed_attempts a + Z.of_nat (length pins)) a) p);
      [|simpl; apply lookup_insert_eq | exact Hp].
    cbn [failed_attempts set_failed_attempts mem with_mem].
    destruct (Z.leb_spec 3 (failed_attempts a + Z.of_nat (length pins) + 1))
      as [Hge | _]; [lia|].
    destruct (Nat.ltb_spec (S (length pins)) 3) as [_ | Hge]; [|lia].
    rewrite insert_insert_eq.
    replace (length pins + 1)%nat with (S (length pins)) by lia.
    replace (failed_attempts a + Z.of_nat (S (length pins)))%Z
      with (failed_attempts a + Z.of_nat (length pins) + 1)%Z by lia.
    reflexivity.
Qed.

(** C9, amended. A login refused before the first PIN, on an unknown or a
    locked account, changes and saves nothing.  On an account that is not
    locked, a wrong PIN that does not end the login raises the count of
    failed attempts in memory only: the store on disk stays the one the
    login started with.  The PIN that ends the login - the right one, the
    wrong one that locks, or the third - saves, and then the store on disk
    is the dictionary in memory.  What is typed after the end is not
    read. *)
Theorem login_saved_at_end w acc_no :
  (forall pins, mem w !! acc_no = None ->
     authenticate w acc_no pins = AuthDone AuthNotFound w) /\
  (forall pins a, mem w !! acc_no = Some a -> locked a = true ->
     authenticate w acc_no pins = AuthDone AuthLocked w) /\
  (forall a wrong,
     mem w !! acc_no = Some a -> locked a = false ->
     Forall (fun p => p <> pin a) wrong -> (length wrong < 3)%nat ->
     let n := (failed_attempts a + Z.of_nat (length wrong))%Z in
     (n < 3)%Z ->
     let counted :=
       with_mem (<[acc_no := set_failed_attempts n a]> (mem w)) w in
     authenticate w acc_no wrong = AwaitPin (length wrong) counted /\
     disk counted = disk w /\
     authenticate w acc_no (wrong ++ [pin a]) =
       AuthDone (Authenticated acc_no)
         (save_accounts
            (with_mem (<[acc_no := set_failed_attempts 0 a]> (mem w)) w)) /\
     (forall p, p <> pin a ->
        authenticate w acc_no (wrong ++ [p]) =
        if (3 <=? n + 1)%Z
        then AuthDone AuthLocked
               (save_accounts
                  (with_mem
                     (<[acc_no :=
                          set_locked true (set_failed_attempts (n + 1) a)]>
                        (mem w)) w))
        else if (S (length wrong) <? 3)%nat
        then AwaitPin (S (length wrong))
               (with_mem
                  (<[acc_no := set_failed_attempts (n + 1) a]> (mem w)) w)
        else AuthDone AuthExhausted
               (save_accounts
                  (with_mem
                     (<[acc_no := set_failed_attempts (n + 1) a]> (mem w))
                     w)))) /\
  (forall pins,
     match authenticate w acc_no pins with
     | AwaitPin _ w' => disk w' = disk w
     | AuthDone r w' =>
         disk w' = mem w' \/
         (w' = w /\ (r = AuthNotFound \/ r = AuthLocked) /\
          authenticate_begin w acc_no = AuthDone r w)
     end) /\
  (forall pins more r w',
     authenticate w acc_no pins = AuthDone r w' ->
     authenticate w acc_no (pins ++ more) = AuthDone r w').
Proof.
  split_and?.
  - intros pins. apply authenticate_not_found.
  - intros pins a. apply authenticate_locked.
  - intros a wrong Ha Hlk Hwrong Hlen n Hn counted.
    pose proof (authenticate_wrong_prefix w acc_no a wrong Ha Hlk Hwrong Hlen
                  Hn) as Hprefix.
    fold n in Hprefix. fold counted in Hprefix.
    assert (Hcounted : mem counted !! acc_no = Some (set_failed_attempts n a))
      by (subst counted; simpl; apply lookup_insert_eq).
    split_and?.
    + exact Hprefix.
    + reflexivity.
    + rewrite authenticate_snoc, Hprefix. simpl.
      change (pin a) with (pin (set_failed_attempts n a)).
      rewrite (submit_pin_right acc_no _ counted _ Hcounted).
      subst counted. cbn [mem with_mem set_failed_attempts].
      rewrite insert_insert_eq. reflexivity.
    + intros p Hp. rewrite authenticate_snoc, Hprefix. simpl.
      rewrite (submit_pin_wrong acc_no _ counted _ p Hcounted Hp).
      subst counted. cbn [mem with_mem failed_attempts set_failed_attempts].
      rewrite !insert_insert_eq. reflexivity.
  - intros pins.
    pose proof (authenticate_save_invariant w acc_no pins) as Hinv.
    destruct (authenticate w acc_no pins) as [k w' | r w']; simpl in Hinv.
    + apply Hinv.
    + destruct Hinv as [Hsaved | [-> Hbegin]]; [left; exact Hsaved|].
      right. split; [reflexivity|]. split; [|exact Hbegin].
      unfold authenticate_begin in Hbegin.
      repeat case_match; simplify_eq; auto.
  - intros pins more r w'. apply authenticate_done_app.
Qed.

(** One wrong PIN on the first default account: 1 failed attempt in memory,
    0 on disk; a second one, and then the right PIN: saved, with 0. *)
Lemma login_saved_at_end_witness :
  (exists w',
     authenticate seed_world "1001" ["0000"] = AwaitPin 1 w' /\
     (failed_attempts <$> mem w' !! "1001") = Some 1%Z /\
     (failed_attempts <$> disk w' !! "1001") = Some 0%Z) /\
  (exists w',
     authenticate seed_world "1001" ["0000"; "1111"; "1234"] =
       AuthDone (Authenticated "1001") w' /\
     (failed_attempts <$> mem w' !! "1001") = Some 0%Z /\
     disk w' = mem w').
Proof.
  destruct (login_saved_at_end seed_world "1001") as (_ & _ & Hopen & _).
  split.
  - destruct (Hopen rahul ["0000"] seed_world_rahul eq_refl) as (H1 & _).
    + repeat constructor. discriminate.
    + simpl. lia.
    + simpl. lia.
    + eexists. split; [exact H1|]. split; reflexivity.
  - destruct (Hopen rahul ["0000"; "1111"] seed_world_rahul eq_refl)
      as (_ & _ & H3 & _).
    + repeat constructor; discriminate.
    + simpl. lia.
    + simpl. lia.
    + eexists. split; [exact H3|]. split; reflexivity.
Defined.

Lemma rich_world_reachable : reachable rich_world.
Proof.
  apply (reachable_step env1 seed_world _
           (OpCreate "3001" "Kiran Das" "7777" true (Some 1e17) "current")
           seed_world_reachable).
  vm_compute. reflexivity.
Qed.

(** C1, as stated, fails: a transfer of 7 out of an account that holds 1e17
    succeeds and leaves the balance of the source at 1e17, the nearest
    float to 1e17 - 7, while the target receives 7. *)
Lemma transfer_moves_amount_fails : ~ transfer_moves_amount.
Proof.
  intros Hclaim.
  destruct (mem rich_world !! "3001") as [a|] eqn:Ha;
    [|vm_compute in Ha; discriminate].
  destruct (Hclaim env1 rich_world "3001" "1002" 7 a priya_seed Ha)
    as (a' & t' & Ha' & _ & Hless & _).
  - vm_compute. reflexivity.
  - discriminate.
  - vm_compute. reflexivity.
  - vm_compute in Ha. injection Ha as <-.
    vm_compute in Ha'. injection Ha' as <-.
    vm_compute in Hless. discriminate.
Qed.

(** C1, amended. A transfer that succeeds stores as the balance of the
    source the float nearest to the balance minus the amount, and as the
    balance of the target the float nearest to the balance plus the
    amount; it appends one "transfer_out" entry to the history of the
    source and one "transfer_in" entry to the history of the target (each
    history cut to its last fifty entries), and saves both at once.  A
    transfer that fails changes no balance and no history, and saves
    nothing.  A transfer between two different accounts of an amount above
    0, at most the balance of the source and within its daily limit does
    succeed. *)
Theorem transfer_atomicity e w acc_no target_acc_no inp :
  let r := transfer_funds e w acc_no target_acc_no inp in
  (r.1 = Success ->
   exists amount a t a' t',
     inp = Some amount /\ target_acc_no <> acc_no /\
     mem w !! acc_no = Some a /\ mem w !! target_acc_no = Some t /\
     mem r.2 !! acc_no = Some a' /\ mem r.2 !! target_acc_no = Some t' /\
     balance a' = balance a - amount /\
     balance t' = balance t + amount /\
     transactions a' =
       last_n 50 (transactions a ++
                  [entry e TransferOut amount (balance a - amount)
                     (TransferTo target_acc_no)]) /\
     transactions t' =
       last_n 50 (transactions t ++
                  [entry e TransferIn amount (balance t + amount)
                     (TransferFrom acc_no)]) /\
     ((length (transactions a) < 50)%nat ->
      length (transactions a') = S (length (transactions a))) /\
     ((length (transactions t) < 50)%nat ->
      length (transactions t') = S (length (transactions t))) /\
     disk r.2 = mem r.2) /\
  (r.1 <> Success ->
   In r.1 [NotFound; SameAccount; InvalidAmount; InsufficientFunds;
           DailyLimitExceeded; KeyError] /\
   disk r.2 = disk w /\
   forall id x, mem w !! id = Some x ->
     exists x', mem r.2 !! id = Some x' /\
       balance x' = balance x /\ transactions x' = transactions x) /\
  (forall amount a t,
     inp = Some amount ->
     mem w !! acc_no = Some a -> mem w !! target_acc_no = Some t ->
     target_acc_no <> acc_no ->
     (0 <? amount) = true -> (amount <=? balance a) = true ->
     (withdrawn_today (reset_daily_withdraw_if_new_day e a) + amount
        <=? daily_limit a) = true ->
     r.1 = Success).
Proof.
  intros r. split; [|split].
  - intros Hok.
    destruct (transfer_funds_success e w acc_no target_acc_no inp r.2)
      as (amount & a & t & Hinp & Hne & Ha & Ht & Hpos & Hfunds & Hcap & Hw').
    { rewrite <- Hok. subst r. apply surjective_pairing. }
    destruct (reset_fields e a) as (Hbal & Htx & _).
    destruct (debited_fields e (reset_daily_withdraw_if_new_day e a)
                TransferOut amount (TransferTo target_acc_no))
      as (Hb & _ & _ & Hh & _).
    destruct (credited_fields e t TransferIn amount (TransferFrom acc_no))
      as (Hb' & Hh' & _).
    rewrite Hbal in Hb. rewrite Hbal, Htx in Hh.
    exists amount, a, t. eexists _, _.
    rewrite Hw'. simpl.
    rewrite lookup_insert_ne by congruence.
    rewrite !lookup_insert_eq.
    repeat split; try eassumption.
    + intros Hlen. rewrite Hh, last_n_all; rewrite length_app; simpl; lia.
    + intros Hlen. rewrite Hh', last_n_all; rewrite length_app; simpl; lia.
  - intros Hfail.
    destruct (transfer_funds_failure e w acc_no target_acc_no inp r.1 r.2)
      as [[Hr ->] | [Hr ->]]; try assumption.
    { subst r. apply surjective_pairing. }
    + split; [simpl in *; tauto|]. split; [reflexivity|].
      intros id x Hx. exists x. repeat split. exact Hx.
    + split; [simpl in *; tauto|].
      destruct (reset_applied_accounts e w acc_no)
        as (Hdisk & Hother & Hsource & _).
      split; [exact Hdisk|].
      intros id x Hx. destruct (decide (id = acc_no)) as [-> | Hid].
      * destruct (Hsource x Hx) as [Hlook Hsame].
        eexists. split; [exact Hlook|].
        unfold same_but_window in Hsame. tauto.
      * exists x. rewrite (Hother id Hid). repeat split. exact Hx.
  - intros amount a t -> Ha Ht Hne Hpos Hfunds Hcap. subst r.
    rewrite (transfer_funds_cases e w acc_no target_acc_no a t amount Ha Ht
               Hne).
    destruct (reset_fields e a) as (-> & _ & _ & _ & -> & _).
    rewrite (ltb_not_leb _ _ Hpos), (leb_not_ltb _ _ Hfunds),
      (leb_not_ltb _ _ Hcap).
    reflexivity.
Qed.

(** A transfer of 2500 between the two default accounts. *)
Lemma transfer_atomicity_witness :
  (transfer_funds env2 seed_world "1001" "1002" (Some 2500)).1 = Success /\
  exists a' t',
    mem (transfer_funds env2 seed_world "1001" "1002" (Some 2500)).2 !! "1001"
      = Some a' /\
    mem (transfer_funds env2 seed_world "1001" "1002" (Some 2500)).2 !! "1002"
      = Some t' /\
    balance a' = 12500 /\ balance t' = 10500 /\
    length (transactions a') = 1%nat /\ length (transactions t') = 1%nat.
Proof.
  destruct (transfer_atomicity env2 seed_world "1001" "1002" (Some 2500))
    as (Hyes & _ & Hgoes).
  assert (Hok : (transfer_funds env2 seed_world "1001" "1002" (Some 2500)).1
                = Success).
  { apply (Hgoes 2500 rahul priya_seed); reflexivity || discriminate. }
  split; [exact Hok|].
  destruct (Hyes Hok)
    as (amount & a & t & a' & t' & Hinp & _ & Ha & Ht & Ha' & Ht' & Hb & Hb'
        & _ & _ & Hl & Hl' & _).
  injection Hinp as <-.
  rewrite seed_world_rahul in Ha. injection Ha as <-.
  assert (Hp : mem seed_world !! "1002" = Some priya_seed) by reflexivity.
  rewrite Hp in Ht. injection Ht as <-.
  exists a', t'. split; [exact Ha'|]. split; [exact Ht'|].
  split; [rewrite Hb; reflexivity|]. split; [rewrite Hb'; reflexivity|].
  split; [rewrite Hl; simpl; [reflexivity | lia]
         | rewrite Hl'; simpl; [reflexivity | lia]].
Defined.

(** C10. A transfer that succeeds changes the dictionary at the two keys
    only: of the source it leaves the name, the PIN, the type, the count of
    failed attempts, the lock, the daily limit and the interest keys, of the
    target everything but the balance and the history. *)
Theorem transfer_frame e w acc_no target_acc_no inp :
  (transfer_funds e w acc_no target_acc_no inp).1 = Success ->
  exists a t a' t',
    mem w !! acc_no = Some a /\ mem w !! target_acc_no = Some t /\
    target_acc_no <> acc_no /\
    mem (transfer_funds e w acc_no target_acc_no inp).2 =
      <[target_acc_no := t']> (<[acc_no := a']> (mem w)) /\
    (name a' = name a /\ pin a' = pin a /\ type a' = type a /\
     failed_attempts a' = failed_attempts a /\ locked a' = locked a /\
     daily_limit a' = daily_limit a /\ interest_rate a' = interest_rate a /\
     last_interest_date a' = last_interest_date a) /\
    (name t' = name t /\ pin t' = pin t /\ type t' = type t /\
     failed_attempts t' = failed_attempts t /\ locked t' = locked t /\
     daily_limit t' = daily_limit t /\
     withdrawn_today t' = withdrawn_today t /\
     last_withdraw_date t' = last_withdraw_date t /\
     interest_rate t' = interest_rate t /\
     last_interest_date t' = last_interest_date t) /\
    (forall id, id <> acc_no -> id <> target_acc_no ->
       mem (transfer_funds e w acc_no target_acc_no inp).2 !! id
       = mem w !! id).
Proof.
  intros Hok.
  destruct (transfer_funds_success e w acc_no target_acc_no inp
              (transfer_funds e w acc_no target_acc_no inp).2)
    as (amount & a & t & Hinp & Hne & Ha & Ht & Hpos & Hfunds & Hcap & Hw').
  { rewrite <- Hok. apply surjective_pairing. }
  destruct (reset_fields e a)
    as (_ & _ & R3 & R4 & R5 & R6 & R7 & R8 & R9 & R10).
  destruct (debited_fields e (reset_daily_withdraw_if_new_day e a)
              TransferOut amount (TransferTo target_acc_no))
    as (_ & _ & _ & _ & D1 & D2 & D3 & D4 & D5 & D6 & D7 & D8).
  destruct (credited_fields e t TransferIn amount (TransferFrom acc_no))
    as (_ & _ & C1 & C2 & C3 & C4 & C5 & C6 & C7 & C8 & C9 & C10).
  exists a, t. eexists _, _. rewrite Hw'. simpl.
  split; [exact Ha|]. split; [exact Ht|]. split; [exact Hne|].
  split; [reflexivity|].
  split; [repeat split; congruence|].
  split; [repeat split; assumption|].
  intros id Hid1 Hid2. rewrite !lookup_insert_ne by congruence. reflexivity.
Qed.

Lemma transfer_frame_witness :
  (transfer_funds env2 seed_world "1001" "1002" (Some 2500)).1 = Success /\
  exists a t a' t',
    mem seed_world !! "1001" = Some a /\ mem seed_world !! "1002" = Some t /\
    "1002" <> "1001" /\
    mem (transfer_funds env2 seed_world "1001" "1002" (Some 2500)).2 =
      <["1002" := t']> (<["1001" := a']> (mem seed_world)) /\
    (name a' = name a /\ pin a' = pin a /\ type a' = type a /\
     failed_attempts a' = failed_attempts a /\ locked a' = locked a /\
     daily_limit a' = daily_limit a /\ interest_rate a' = interest_rate a /\
     last_interest_date a' = last_interest_date a) /\
    (name t' = name t /\ pin t' = pin t /\ type t' = type t /\
     failed_attempts t' = failed_attempts t /\ locked t' = locked t /\
     daily_limit t' = daily_limit t /\
     withdrawn_today t' = withdrawn_today t /\
     last_withdraw_date t' = last_withdraw_date t /\
     interest_rate t' = interest_rate t /\
     last_interest_date t' = last_interest_date t) /\
    (forall id, id <> "1001" -> id <> "1002" ->
       mem (transfer_funds env2 seed_world "1001" "1002" (Some 2500)).2 !! id
       = mem seed_world !! id).
Proof.
  split; [vm_compute; reflexivity|].
  apply (transfer_frame env2 seed_world "1001" "1002" (Some 2500)).
  vm_compute. reflexivity.
Defined.

(** C2, as stated, fails: on the day after the first start a withdrawal of
    20000 from the first default account is refused for insufficient funds,
    and the account's daily window has been reset in memory. *)
Lemma failed_calls_leave_ledger_fails : ~ failed_calls_leave_ledger.
Proof.
  intros Hclaim.
  destruct (Hclaim env2 seed_world "1001" "1002" (Some 20000))
    as (_ & Hwithdraw & _).
  assert (Hfail : (withdraw_amount env2 seed_world "1001" (Some 20000)).1
                  <> Success) by (vm_compute; discriminate).
  specialize (Hwithdraw Hfail).
  apply (f_equal (fun m => last_withdraw_date <$> m !! "1001")) in Hwithdraw.
  vm_compute in Hwithdraw. discriminate.
Qed.

(** C2, amended. A deposit or an interest run that fails leaves the world
    as it was, and so does a withdrawal or a transfer refused for its amount
    or its accounts.  A withdrawal or a transfer refused for insufficient
    funds or for the daily limit saves nothing and leaves the world with the
    daily reset applied to the (source) account: no other account changes,
    and this account changes in "withdrawn_today" and "last_withdraw_date"
    only, and not at all when its last withdrawal date is today. *)
Theorem failed_calls_frame e w acc_no target_acc_no inp :
  ((deposit_amount e w acc_no inp).1 <> Success ->
   (deposit_amount e w acc_no inp).2 = w) /\
  ((apply_interest_if_savings e w acc_no).1 <> Success ->
   (apply_interest_if_savings e w acc_no).2 = w) /\
  ((withdraw_amount e w acc_no inp).1 <> Success ->
   (In (withdraw_amount e w acc_no inp).1 [InvalidAmount; KeyError] /\
    (withdraw_amount e w acc_no inp).2 = w) \/
   (In (withdraw_amount e w acc_no inp).1
       [InsufficientFunds; DailyLimitExceeded] /\
    (withdraw_amount e w acc_no inp).2 = reset_applied e w acc_no)) /\
  ((transfer_funds e w acc_no target_acc_no inp).1 <> Success ->
   (In (transfer_funds e w acc_no target_acc_no inp).1
       [NotFound; SameAccount; InvalidAmount; KeyError] /\
    (transfer_funds e w acc_no target_acc_no inp).2 = w) \/
   (In (transfer_funds e w acc_no target_acc_no inp).1
       [InsufficientFunds; DailyLimitExceeded] /\
    (transfer_funds e w acc_no target_acc_no inp).2
    = reset_applied e w acc_no)) /\
  (disk (reset_applied e w acc_no) = disk w /\
   (forall id, id <> acc_no ->
      mem (reset_applied e w acc_no) !! id = mem w !! id) /\
   (forall a, mem w !! acc_no = Some a ->
      mem (reset_applied e w acc_no) !! acc_no =
        Some (reset_daily_withdraw_if_new_day e a) /\
      same_but_window a (reset_daily_withdraw_if_new_day e a)) /\
   (forall a, mem w !! acc_no = Some a ->
      last_withdraw_date a = today_str e -> reset_applied e w acc_no = w)).
Proof.
  split; [|split; [|split; [|split]]].
  - intros Hfail.
    apply (deposit_amount_failure e w acc_no inp
             (deposit_amount e w acc_no inp).1); [|exact Hfail].
    apply surjective_pairing.
  - intros Hfail.
    apply (apply_interest_failure e w acc_no
             (apply_interest_if_savings e w acc_no).1); [|exact Hfail].
    apply surjective_pairing.
  - intros Hfail.
    apply (withdraw_amount_failure e w acc_no inp); [|exact Hfail].
    apply surjective_pairing.
  - intros Hfail.
    apply (transfer_funds_failure e w acc_no target_acc_no inp);
      [|exact Hfail].
    apply surjective_pairing.
  - apply reset_applied_accounts.
Qed.

Lemma months_between_same d : months_between d d = 0%Z.
Proof. unfold months_between. lia. Qed.

(** The second of two interest runs on one day applies nothing. *)
Lemma apply_interest_twice e e' w acc_no :
  today_str e' = today_str e ->
  (apply_interest_if_savings e' (apply_interest_if_savings e w acc_no).2
     acc_no).1 <> Success /\
  (apply_interest_if_savings e' (apply_interest_if_savings e w acc_no).2
     acc_no).2 = (apply_interest_if_savings e w acc_no).2.
Proof.
  intros Hday.
  destruct (mem w !! acc_no) as [a|] eqn:Ha.
  - rewrite (apply_interest_cases e w acc_no a Ha).
    assert (Hdue : interest_due e' a = interest_due e a)
      by (unfold interest_due; rewrite Hday; reflexivity).
    destruct (decide (type a <> Savings)) as [Hty | Hty] eqn:Hdec.
    { simpl. rewrite (apply_interest_cases e' w acc_no a Ha), Hdec.
      split; [discriminate | reflexivity]. }
    destruct (interest_rate a <=? 0) eqn:Hrate.
    { simpl. rewrite (apply_interest_cases e' w acc_no a Ha), Hdec, Hrate.
      split; [discriminate | reflexivity]. }
    destruct (months_between (last_interest_date a) (today_str e) <=? 0)%Z
      eqn:Hmonths.
    { simpl. rewrite (apply_interest_cases e' w acc_no a Ha), Hdec, Hrate,
        Hday, Hmonths.
      split; [discriminate | reflexivity]. }
    destruct (interest_due e a <=? 0) eqn:Hint.
    { simpl. rewrite (apply_interest_cases e' w acc_no a Ha), Hdec, Hrate,
        Hday, Hmonths, Hdue, Hint.
      split; [discriminate | reflexivity]. }
    cbn [fst snd].
    rewrite (apply_interest_cases e' _ acc_no (accrued e a))
      by (simpl; apply lookup_insert_eq).
    destruct (accrued_fields e a)
      as (_ & Hlast & _ & _ & _ & _ & _ & Htype & _ & _ & _ & Hr).
    rewrite Htype, Hr, Hlast, Hdec, Hrate, Hday, months_between_same.
    simpl. split; [discriminate | reflexivity].
  - unfold apply_interest_if_savings. rewrite Ha. simpl. rewrite Ha.
    split; [discriminate | reflexivity].
Qed.

Lemma dust_world_reachable : reachable dust_world.
Proof.
  apply (reachable_step env1 seed_world _
           (OpCreate "3002" "Mohan Rao" "5555" true (Some smallest_positive)
              "savings")
           seed_world_reachable).
  vm_compute. reflexivity.
Qed.

(** C7, as stated, fails: on a savings account that holds the smallest
    float above 0, three months after it was opened at 4%, the interest
    [balance * (rate / 12) * months] is above 0 as a number, and rounds to
    0 as a float: the program reports that there is no interest to apply. *)
Lemma interest_commits_fails : ~ interest_commits.
Proof.
  intros Hclaim.
  assert (Hex : exists a, mem dust_world !! "3002" = Some a)
    by (eexists; vm_compute; reflexivity).
  destruct Hex as [a Ha].
  assert (Hfacts :
    type a = Savings /\ (0 <? interest_rate a) = true /\
    (0 < months_between (last_interest_date a) (today_str env3))%Z /\
    exists due, exact_interest env3 a = Some due /\ (0 < due)%Q).
  { vm_compute in Ha. injection Ha as <-. split_and?; try reflexivity.
    eexists. split; [vm_compute; reflexivity | reflexivity]. }
  destruct Hfacts as (Hty & Hrate & Hmonths & due & Hdue & Hpos).
  assert (Hno : (apply_interest_if_savings env3 dust_world "3002").1
                = NothingToAccrue NoInterest) by (vm_compute; reflexivity).
  rewrite (Hclaim env3 dust_world "3002" a due Ha Hty Hrate Hmonths Hdue Hpos)
    in Hno.
  discriminate.
Qed.

(** C7, amended. [apply_interest_if_savings] applies nothing when the
    account is not a savings account, when its rate is 0 or below, when the
    count of months, (today.year - last.year) * 12 + (today.month -
    last.month), is 0 or below, or when the interest is 0 or below, where
    the interest is the float [balance * (rate / 12) * months], each
    operation rounded to the nearest float.  When the account is a savings
    account and the rate, the count of months and this float are above 0,
    it stores the float nearest to the balance plus the interest, sets the
    last interest date to today, logs one "interest" entry and saves.  A
    second run on the same day applies nothing. *)
Theorem accrue_interest e w acc_no a :
  mem w !! acc_no = Some a ->
  let months :=
    ((year (today_str e) - year (last_interest_date a)) * 12 +
     (month (today_str e) - month (last_interest_date a)))%Z in
  let due := balance a * (interest_rate a / 12) * float_of_int months in
  let r := apply_interest_if_savings e w acc_no in
  (type a <> Savings \/ (interest_rate a <=? 0) = true \/ (months <= 0)%Z \/
   (due <=? 0) = true ->
   (exists why, r.1 = NothingToAccrue why) /\ r.2 = w) /\
  (type a = Savings -> (0 <? interest_rate a) = true -> (0 < months)%Z ->
   (0 <? due) = true ->
   r.1 = Success /\
   exists a',
     mem r.2 = <[acc_no := a']> (mem w) /\ disk r.2 = mem r.2 /\
     balance a' = balance a + due /\
     last_interest_date a' = today_str e /\
     transactions a' =
       last_n 50 (transactions a ++
                  [entry e Interest due (balance a + due)
                     (InterestFor months (interest_rate a))]) /\
     withdrawn_today a' = withdrawn_today a /\
     last_withdraw_date a' = last_withdraw_date a /\
     name a' = name a /\ pin a' = pin a /\ type a' = type a /\
     failed_attempts a' = failed_attempts a /\ locked a' = locked a /\
     daily_limit a' = daily_limit a /\ interest_rate a' = interest_rate a) /\
  (forall e', today_str e' = today_str e ->
     (apply_interest_if_savings e' r.2 acc_no).1 <> Success /\
     (apply_interest_if_savings e' r.2 acc_no).2 = r.2).
Proof.
  intros Ha months due r.
  assert (Hr : r =
    if decide (type a <> Savings) then (NothingToAccrue NotSavings, w)
    else if interest_rate a <=? 0 then (NothingToAccrue NoRate, w)
    else if (months <=? 0)%Z then (NothingToAccrue UpToDate, w)
    else if due <=? 0 then (NothingToAccrue NoInterest, w)
    else (Success,
          save_accounts (with_mem (<[acc_no := accrued e a]> (mem w)) w)))
    by exact (apply_interest_cases e w acc_no a Ha).
  split; [|split].
  - intros Hno. rewrite Hr.
    destruct (decide (type a <> Savings)) as [Hty | Hty]; [eauto|].
    destruct (interest_rate a <=? 0) eqn:Hrate; [eauto|].
    destruct (months <=? 0)%Z eqn:Hmonths; [eauto|].
    apply Z.leb_gt in Hmonths.
    destruct (due <=? 0) eqn:Hdue; [eauto|].
    destruct Hno as [H | [H | [H | H]]];
      [contradiction | discriminate | lia | discriminate].
  - intros Hty Hrate Hmonths Hdue. rewrite Hr.
    destruct (decide (type a <> Savings)) as [Hty' | _]; [contradiction|].
    rewrite (ltb_not_leb _ _ Hrate).
    destruct (months <=? 0)%Z eqn:Hmonths'; [apply Z.leb_le in Hmonths'; lia|].
    rewrite (ltb_not_leb _ _ Hdue).
    split; [reflexivity|]. exists (accrued e a). simpl.
    split; [reflexivity|]. split; [reflexivity|].
    exact (accrued_fields e a).
  - intros e' Hday. subst r. apply apply_interest_twice, Hday.
Qed.

(** Three months of interest at 4% on the 15000 of the first default
    account. *)
Lemma accrue_interest_witness :
  mem seed_world !! "1001" = Some rahul /\
  (apply_interest_if_savings env3 seed_world "1001").1 = Success /\
  exists a',
    mem (apply_interest_if_savings env3 seed_world "1001").2 !! "1001"
      = Some a' /\
    balance a' = 15150 /\ last_interest_date a' = day3.
Proof.
  split; [exact seed_world_rahul|].
  destruct (accrue_interest env3 seed_world "1001" rahul seed_world_rahul)
    as (_ & Hyes & _).
  destruct Hyes as (Hok & a' & Hmem & _ & Hbal & Hdate & _).
  - reflexivity.
  - reflexivity.
  - reflexivity.
  - reflexivity.
  - split; [exact Hok|]. exists a'. rewrite Hmem, lookup_insert_eq.
    split; [reflexivity|]. rewrite Hbal, Hdate. split; reflexivity.
Defined.

Lemma near_limit_world_reachable : reachable near_limit_world.
Proof.
  eapply (reachable_step env1 _ _ (OpWithdraw "3003" (Some 19999))).
  - apply (reachable_step env1 seed_world _
             (OpCreate "3003" "Leela Bose" "3333" true (Some 50000) "current")
             seed_world_reachable).
    vm_compute. reflexivity.
  - vm_compute. reflexivity.
Qed.

(** C4, as stated, fails: with 19999 withdrawn today and a limit of 20000,
    a withdrawal of 1.0000000000000002 succeeds, for the sum rounds to
    20000, though as numbers 19999 + 1.0000000000000002 is above 20000. *)
Lemma withdraw_rule_fails : ~ withdraw_rule.
Proof.
  intros Hclaim.
  destruct (mem near_limit_world !! "3003") as [a|] eqn:Ha;
    [|vm_compute in Ha; discriminate].
  destruct (Hclaim env1 near_limit_world "3003" a just_above_one Ha)
    as [Hto _].
  destruct Hto as (_ & _ & Hsum); [vm_compute; reflexivity|].
  vm_compute in Ha. injection Ha as <-.
  vm_compute in Hsum. discriminate.
Qed.

(** C4, amended. [withdraw_amount] first applies the daily reset.  For an
    amount, a balance, a limit and a sum [withdrawn_today + amount] that
    are numbers, where the sum is the float nearest to the sum of the two
    numbers, it then succeeds exactly when the amount is above 0 and at
    most the balance and the sum is at most the daily limit (the limit
    itself is accepted); on success it stores the float nearest to the
    balance minus the amount, and the sum as the amount withdrawn today;
    otherwise the message is the one of the first test that fails. *)
Theorem withdraw_decision e w acc_no a amount :
  mem w !! acc_no = Some a ->
  let a0 := reset_daily_withdraw_if_new_day e a in
  let total := withdrawn_today a0 + amount in
  let r := withdraw_amount e w acc_no (Some amount) in
  is_nan amount = false -> is_nan (balance a) = false ->
  is_nan (daily_limit a) = false -> is_nan total = false ->
  ((last_withdraw_date a <> today_str e ->
    withdrawn_today a0 = 0 /\ last_withdraw_date a0 = today_str e) /\
   (last_withdraw_date a = today_str e -> a0 = a) /\
   balance a0 = balance a /\ daily_limit a0 = daily_limit a) /\
  (r.1 = Success <->
   (0 <? amount) = true /\ (amount <=? balance a) = true /\
   (total <=? daily_limit a) = true) /\
  (r.1 = Success ->
   exists a', mem r.2 !! acc_no = Some a' /\
     balance a' = balance a - amount /\
     withdrawn_today a' = total /\
     last_withdraw_date a' = today_str e /\
     transactions a' =
       last_n 50 (transactions a ++
                  [entry e Withdraw amount (balance a - amount)
                     CashWithdrawal]) /\
     disk r.2 = mem r.2) /\
  ((amount <=? 0) = true -> r.1 = InvalidAmount) /\
  ((0 <? amount) = true -> (balance a <? amount) = true ->
   r.1 = InsufficientFunds) /\
  ((0 <? amount) = true -> (amount <=? balance a) = true ->
   (daily_limit a <? total) = true -> r.1 = DailyLimitExceeded) /\
  In r.1 [Success; InvalidAmount; InsufficientFunds; DailyLimitExceeded].
Proof.
  intros Ha a0 total r Namount Nbalance Nlimit Ntotal.
  destruct (reset_fields e a) as (Hbal & Htx & _ & _ & Hlim & _).
  destruct (reset_window e a) as [Hnew Hsame].
  fold a0 in Hbal, Htx, Hlim, Hnew, Hsame.
  split; [repeat split; solve [apply Hnew; assumption | auto]|].
  assert (Hr : r =
    if amount <=? 0 then (InvalidAmount, w)
    else if amount >? balance a0
    then (InsufficientFunds, with_mem (<[acc_no := a0]> (mem w)) w)
    else if withdrawn_today a0 + amount >? daily_limit a0
    then (DailyLimitExceeded, with_mem (<[acc_no := a0]> (mem w)) w)
    else (Success,
          save_accounts
            (with_mem
               (<[acc_no := debited e a0 Withdraw amount CashWithdrawal]>
                  (mem w)) w)))
    by exact (withdraw_amount_cases e w acc_no a amount Ha).
  rewrite Hbal, Hlim in Hr. fold total in Hr. clearbody r. subst r.
  destruct (amount <=? 0) eqn:Hpos.
  { simpl. split_and?; try (intros; float_order); auto.
    split; [discriminate | intros (H1 & _); float_order]. }
  assert (Hpos' : (0 <? amount) = true)
    by (apply not_leb_ltb; [exact Namount | reflexivity | exact Hpos]).
  destruct (balance a <? amount) eqn:Hfunds.
  { simpl. split_and?; try (intros; float_order); auto.
    split; [discriminate | intros (_ & H2 & _); float_order]. }
  assert (Hfunds' : (amount <=? balance a) = true)
    by (apply not_ltb_leb; assumption).
  destruct (daily_limit a <? total) eqn:Hcap.
  { simpl. split_and?; try (intros; float_order); auto 6.
    split; [discriminate | intros (_ & _ & H3); float_order]. }
  assert (Hcap' : (total <=? daily_limit a) = true)
    by (apply not_ltb_leb; assumption).
  simpl. split_and?; try (intros; float_order); auto.
  - split; [intros _; split_and?; assumption | reflexivity].
  - intros _. eexists. rewrite lookup_insert_eq. split; [reflexivity|].
    destruct (debited_fields e a0 Withdraw amount CashWithdrawal)
      as (Hb & Hw & Hd & Ht & _).
    rewrite Hb, Hw, Hd, Ht, Hbal, Htx. repeat split.
Qed.

(** A withdrawal of 5000 from the first default account, on the day after
    the first start. *)
Lemma withdraw_decision_witness :
  mem seed_world !! "1001" = Some rahul /\
  (withdraw_amount env2 seed_world "1001" (Some 5000)).1 = Success /\
  exists a',
    mem (withdraw_amount env2 seed_world "1001" (Some 5000)).2 !! "1001"
      = Some a' /\
    balance a' = 10000 /\ withdrawn_today a' = 5000.
Proof.
  split; [exact seed_world_rahul|].
  destruct (withdraw_decision env2 seed_world "1001" rahul 5000
              seed_world_rahul eq_refl eq_refl eq_refl eq_refl)
    as (_ & Hiff & Hyes & _).
  assert (Hok : (withdraw_amount env2 seed_world "1001" (Some 5000)).1
                = Success)
    by (apply Hiff; split_and?; reflexivity).
  split; [exact Hok|].
  destruct (Hyes Hok) as (a' & Ha' & Hb & Hw & _).
  exists a'. split; [exact Ha'|]. rewrite Hb, Hw. split; reflexivity.
Defined.

(** C6. Along every run an account holds at most fifty transactions; a
    call of [log_transaction] puts its entry last and keeps the last fifty;
    after any number of calls the history is the last fifty entries of
    everything logged, oldest first, exactly fifty once more than fifty
    entries have been logged. *)
Theorem history_bound w acc_no a calls :
  reachable w -> mem w !! acc_no = Some a ->
  (length (transactions a) <= 50)%nat /\
  (forall c,
     transactions (log_call a c) = last_n 50 (transactions a ++ [call_entry c])
     /\ last (transactions (log_call a c)) = Some (call_entry c)) /\
  transactions (foldl log_call a calls) =
    last_n 50 (transactions a ++ map call_entry calls) /\
  (length (transactions (foldl log_call a calls)) <= 50)%nat /\
  ((50 < length (transactions a ++ map call_entry calls))%nat ->
   length (transactions (foldl log_call a calls)) = 50%nat) /\
  (forall fresh, transactions fresh = [] ->
     transactions (foldl log_call fresh calls) =
       drop (length calls - 50) (map call_entry calls)).
Proof.
  intros Hw Ha.
  assert (Hbound : (length (transactions a) <= 50)%nat).
  { destruct (history_bounded_reachable w Hw) as [Hm _]. exact (Hm _ _ Ha). }
  pose proof (log_calls_transactions calls a Hbound) as Hcalls.
  split; [exact Hbound|].
  split.
  { intros c. split.
    - apply log_transaction_transactions.
    - apply log_transaction_last. }
  split; [exact Hcalls|].
  split; [rewrite Hcalls; apply last_n_length_le|].
  split.
  - intros Hlong. rewrite Hcalls, last_n_length. lia.
  - intros fresh Hfresh.
    rewrite log_calls_transactions by (rewrite Hfresh; simpl; lia).
    rewrite Hfresh. simpl. unfold last_n. rewrite length_map. reflexivity.
Qed.

Lemma history_bound_witness :
  reachable seed_world /\ mem seed_world !! "1001" = Some rahul /\
  length (transactions
            (foldl log_call rahul
               (map sample_call (map float_of_int (seqZ 1 60)))))
  = 50%nat.
Proof.
  split; [exact seed_world_reachable|].
  split; [exact seed_world_rahul|].
  apply (history_bound seed_world "1001" rahul
           (map sample_call (map float_of_int (seqZ 1 60)))
           seed_world_reachable seed_world_rahul).
  vm_compute. lia.
Defined.

(** ** The opening balance is not validated *)

Lemma opened_overdrawn_reachable : reachable opened_overdrawn.2.
Proof.
  apply (reachable_step env2 seed_world _
           (OpCreate "2001" "Asha Rao" "1111" true (Some (-500)) "current")
           seed_world_reachable).
  vm_compute. reflexivity.
Qed.

Lemma opened_empty_reachable : reachable opened_empty.2.
Proof.
  apply (reachable_step env2 seed_world _
           (OpCreate "2002" "Vikram Nair" "2222" true (Some 0) "savings")
           seed_world_reachable).
  vm_compute. reflexivity.
Qed.

(** C3 fails on the program. [create_account] accepts the opening balance
    -500: the run that creates account "2001" on it succeeds, is saved, and
    leaves an account whose balance is negative. *)
Theorem create_account_negative_balance :
  opened_overdrawn.1 = Success /\
  reachable opened_overdrawn.2 /\
  disk opened_overdrawn.2 = mem opened_overdrawn.2 /\
  exists a, mem opened_overdrawn.2 !! "2001" = Some a /\
            balance a = -500 /\ (0 <=? balance a) = false /\
            (balance a <? 0) = true.
Proof.
  split; [vm_compute; reflexivity|].
  split; [exact opened_overdrawn_reachable|].
  split; [vm_compute; reflexivity|].
  eexists. split; [vm_compute; reflexivity|].
  split_and?; reflexivity.
Qed.

(** C8 fails on the program. [create_account] logs the opening balance as
    the amount of a "deposit" entry without looking at its sign: the
    history of account "2001", opened on -500, is one entry of amount
    -500, and the history of account "2002", opened on 0, is one entry of
    amount 0. *)
Theorem create_account_logs_opening_balance :
  (opened_overdrawn.1 = Success /\
   reachable opened_overdrawn.2 /\
   exists a t, mem opened_overdrawn.2 !! "2001" = Some a /\
     transactions a = [t] /\ txn_type t = Deposit /\
     txn_note t = OpeningDeposit /\ txn_amount t = -500 /\
     (0 <? txn_amount t) = false) /\
  (opened_empty.1 = Success /\
   reachable opened_empty.2 /\
   exists a t, mem opened_empty.2 !! "2002" = Some a /\
     transactions a = [t] /\ txn_type t = Deposit /\
     txn_note t = OpeningDeposit /\ txn_amount t = 0 /\
     (0 <? txn_amount t) = false).
Proof.
  split.
  - split; [vm_compute; reflexivity|].
    split; [exact opened_overdrawn_reachable|].
    eexists _, _. split; [vm_compute; reflexivity|].
    repeat split.
  - split; [vm_compute; reflexivity|].
    split; [exact opened_empty_reachable|].
    eexists _, _. split; [vm_compute; reflexivity|].
    repeat split.
Qed.

(** ** Examples *)

(** A transfer of 2500 from "1001" to "1002" on the day after the first
    start. *)
Example transfer_example :
  let r := transfer_funds env2 seed_world "1001" "1002" (Some 2500) in
  r.1 = Success /\
  (balance <$> mem r.2 !! "1001") = Some 12500 /\
  (balance <$> mem r.2 !! "1002") = Some 10500 /\
  (length ∘ transactions <$> mem r.2 !! "1001") = Some 1%nat /\
  (length ∘ transactions <$> mem r.2 !! "1002") = Some 1%nat /\
  disk r.2 = mem r.2.
Proof. vm_compute. repeat split. Qed.

(** Balance 15000, limit 20000: 5000 is withdrawn; 16000 more on the same
    day is refused, for insufficient funds, the first test that fails. *)
Example withdraw_example :
  let r1 := withdraw_amount env1 seed_world "1001" (Some 5000) in
  let r2 := withdraw_amount env1 r1.2 "1001" (Some 16000) in
  r1.1 = Success /\
  (balance <$> mem r1.2 !! "1001") = Some 10000 /\
  (withdrawn_today <$> mem r1.2 !! "1001") = Some 5000 /\
  r2.1 = InsufficientFunds /\ r2.2 = r1.2.
Proof. vm_compute. repeat split. Qed.

(** The daily limit itself can be reached, and not passed. *)
Example daily_limit_example :
  let rich := set_balance 50000 rahul in
  let w := mkWorld (<["1001" := rich]> ∅) (<["1001" := rich]> ∅) in
  (withdraw_amount env1 w "1001" (Some 20000)).1 = Success /\
  (withdraw_amount env1 w "1001" (Some 20001)).1 = DailyLimitExceeded.
Proof. vm_compute. split; reflexivity. Qed.

(** Rounding: 7 taken from 1e17 leaves 1e17, and the target has 7 more;
    1.0000000000000002 withdrawn after 19999 counts as 20000 withdrawn. *)
Example rounding_example :
  let r := transfer_funds env1 rich_world "3001" "1002" (Some 7) in
  let r' := withdraw_amount env1 near_limit_world "3003"
              (Some just_above_one) in
  r.1 = Success /\
  (balance <$> mem r.2 !! "3001") = Some 1e17 /\
  (balance <$> mem r.2 !! "1002") = Some 8007 /\
  r'.1 = Success /\
  (withdrawn_today <$> mem r'.2 !! "3003") = Some 20000.
Proof. vm_compute. repeat split. Qed.

(** One month of interest at 4% on a savings account of 1000: the balance
    stored is 1003.3333333333334. *)
Example interest_example :
  let opened_on_1000 :=
    (create_account env1 seed_world "3005" "Omar Khan" "6666" true
       (Some 1000) "savings").2 in
  let next_month := mkEnv (mkDate 2024 2 1) "2024-02-01 08:00:00" in
  let r := apply_interest_if_savings next_month opened_on_1000 "3005" in
  r.1 = Success /\
  (balance <$> mem r.2 !! "3005") = Some 1003.3333333333334.
Proof. vm_compute. split; reflexivity. Qed.

(** * The other operations and the menus *)

(** ** Deposits *)

(** X4. A deposit into an existing account succeeds exactly when the amount
    typed is a float above 0, or NaN, for which the test [amount <= 0] is
    false as well.  It then stores the float nearest to the balance plus
    the amount, appends one "deposit" entry, leaves every other key and
    every other account alone, and saves; otherwise it reports an invalid
    amount and the world is as before. *)
Theorem deposit_decision e w acc_no a inp :
  mem w !! acc_no = Some a ->
  let r := deposit_amount e w acc_no inp in
  (r.1 = Success <->
   exists amount, inp = Some amount /\ positive_or_nan amount) /\
  (r.1 <> Success -> r.1 = InvalidAmount /\ r.2 = w) /\
  (forall amount, inp = Some amount -> positive_or_nan amount ->
     exists a',
       mem r.2 = <[acc_no := a']> (mem w) /\ disk r.2 = mem r.2 /\
       balance a' = balance a + amount /\
       transactions a' =
         last_n 50 (transactions a ++
                    [entry e Deposit amount (balance a + amount)
                       CashDeposit]) /\
       withdrawn_today a' = withdrawn_today a /\
       last_withdraw_date a' = last_withdraw_date a /\
       name a' = name a /\ pin a' = pin a /\ type a' = type a /\
       failed_attempts a' = failed_attempts a /\ locked a' = locked a /\
       daily_limit a' = daily_limit a /\
       interest_rate a' = interest_rate a /\
       last_interest_date a' = last_interest_date a).
Proof.
  intros Ha r. subst r. destruct inp as [amount|].
  - rewrite (deposit_amount_cases e w acc_no a amount Ha).
    destruct (amount <=? 0) eqn:Hpos; simpl.
    + split; [|split].
      * split; [discriminate|]. intros (x & [= <-] & Hx).
        apply positive_or_nan_leb_false in Hx. congruence.
      * intros _. split; reflexivity.
      * intros x [= <-] Hx.
        apply positive_or_nan_leb_false in Hx. congruence.
    + split; [|split].
      * split; [|reflexivity]. intros _. exists amount. split; [reflexivity|].
        apply leb_false_positive_or_nan, Hpos.
      * intros H. contradiction.
      * intros x [= <-] _. exists (credited e a Deposit amount CashDeposit).
        split; [reflexivity|]. split; [reflexivity|].
        exact (credited_fields e a Deposit amount CashDeposit).
  - unfold deposit_amount. simpl. split; [|split].
    + split; [discriminate|]. intros (x & Hx & _). discriminate.
    + intros _. split; reflexivity.
    + intros x Hx. discriminate.
Qed.

(** A deposit of 0.2 into an account that holds 0.1 stores
    0.30000000000000004. *)
Lemma deposit_decision_witness :
  let w := (create_account env1 seed_world "3004" "Nisha Pal" "4444" true
              (Some 0.1) "current").2 in
  (deposit_amount env2 w "3004" (Some 0.2)).1 = Success /\
  exists a',
    mem (deposit_amount env2 w "3004" (Some 0.2)).2 !! "3004" = Some a' /\
    balance a' = 0.30000000000000004 /\
    length (transactions a') = 2%nat.
Proof.
  intros w.
  destruct (mem w !! "3004") as [a|] eqn:Ha; [|vm_compute in Ha; discriminate].
  destruct (deposit_decision env2 w "3004" a (Some 0.2) Ha)
    as (Hiff & _ & Hyes).
  assert (Hpos : positive_or_nan 0.2) by (left; reflexivity).
  split; [apply Hiff; eauto|].
  destruct (Hyes 0.2 eq_refl Hpos) as (a' & Hmem & _ & Hb & Ht & _).
  exists a'. rewrite Hmem, lookup_insert_eq. split; [reflexivity|].
  vm_compute in Ha. injection Ha as <-.
  rewrite Hb, Ht. split; reflexivity.
Defined.

(** ** Saving *)

(** X5. Every operation that reports success has saved: the file then
    holds the dictionary in memory, so that a restart brings back the very
    same world. *)
Theorem success_is_saved e w acc_no target_acc_no inp name_in pin_in
    pin_is_4_digits acc_type confirm today :
  let saved (r : Outcome * World) :=
    r.1 = Success ->
    disk r.2 = mem r.2 /\ load_accounts_existing today r.2 = r.2 in
  saved (deposit_amount e w acc_no inp) /\
  saved (withdraw_amount e w acc_no inp) /\
  saved (transfer_funds e w acc_no target_acc_no inp) /\
  saved (apply_interest_if_savings e w acc_no) /\
  saved (create_account e w acc_no name_in pin_in pin_is_4_digits inp
           acc_type) /\
  saved (delete_account w acc_no confirm) /\
  saved (unlock_account w acc_no).
Proof.
  cbv beta zeta.
  repeat split;
    lazymatch goal with
    | H : _ = Success |- _ =>
        unfold deposit_amount, withdraw_amount, transfer_funds,
          apply_interest_if_savings, create_account, delete_account,
          unlock_account in *;
        repeat case_match; simpl in H; try discriminate; reflexivity
    end.
Qed.

(** ** Admin operations *)

Lemma opened_fields e name_in pin_in b ty :
  let a' := opened e name_in pin_in b ty in
  name a' = name_in /\ pin a' = pin_in /\ balance a' = b /\ type a' = ty /\
  transactions a' = [entry e Deposit b b OpeningDeposit] /\
  failed_attempts a' = 0%Z /\ locked a' = false /\
  daily_limit a' = 20000 /\ withdrawn_today a' = 0 /\
  last_withdraw_date a' = today_str e /\
  interest_rate a' = match ty with Savings => 0.04 | Current => 0 end /\
  last_interest_date a' = today_str e.
Proof. unfold opened. rewrite log_transaction_eq. repeat split. Qed.



(** X7. [delete_account] succeeds exactly when the account exists and the
    confirmation is "y".  It then removes this account and no other, and
    saves; afterwards a login on the number reports that the account is not
    found, and so does a transfer to it.  A refused or cancelled deletion
    changes nothing. *)
Theorem delete_account_effect w acc_no confirm :
  let r := delete_account w acc_no confirm in
  (r.1 = Success <-> is_Some (mem w !! acc_no) /\ confirm = "y") /\
  (mem w !! acc_no = None -> r.1 = NotFound) /\
  (is_Some (mem w !! acc_no) -> confirm <> "y" -> r.1 = Cancelled) /\
  (r.1 <> Success -> r.2 = w) /\
  (r.1 = Success ->
   mem r.2 !! acc_no = None /\
   (forall id, id <> acc_no -> mem r.2 !! id = mem w !! id) /\
   disk r.2 = mem r.2 /\
   (forall pins, authenticate r.2 acc_no pins = AuthDone AuthNotFound r.2) /\
   (forall e source inp,
      transfer_funds e r.2 source acc_no inp = (NotFound, r.2))).
Proof.
  intros r. subst r. unfold delete_account.
  destruct (mem w !! acc_no) as [a|] eqn:Ha; [|simpl; table].
  destruct (decide (confirm = "y")) as [-> | Hno]; simpl; [|table].
  split_and?; try table_row; try (split; table_row).
  intros _.
  assert (Hgone : delete acc_no (mem w) !! acc_no = None)
    by apply lookup_delete_eq.
  split_and?.
  - exact Hgone.
  - intros id Hid. apply lookup_delete_ne. congruence.
  - reflexivity.
  - intros pins. apply authenticate_not_found. exact Hgone.
  - intros e source inp. unfold transfer_funds. simpl. rewrite Hgone.
    reflexivity.
Qed.

(** X8. A login on an unknown account number, or on a locked account, is
    refused whatever is typed as PIN, the right PIN included, and changes
    nothing. *)
Theorem login_refused w acc_no pins :
  (mem w !! acc_no = None ->
   authenticate w acc_no pins = AuthDone AuthNotFound w) /\
  (forall a, mem w !! acc_no = Some a -> locked a = true ->
     authenticate w acc_no (pins ++ [pin a]) = AuthDone AuthLocked w /\
     authenticate w acc_no pins = AuthDone AuthLocked w).
Proof.
  split.
  - apply authenticate_not_found.
  - intros a Ha Hlk. split; apply (authenticate_locked w acc_no a); assumption.
Qed.

(** X9. [unlock_account] reports an unknown account and changes nothing;
    on an existing account it clears the lock and the count of failed
    attempts, changes no other key and no other account, and saves.
    Afterwards the account's PIN, typed after fewer than three wrong ones,
    logs in: a lock-out is undone by the admin, and only the two keys
    tell. *)
Theorem unlock_account_effect w acc_no :
  let r := unlock_account w acc_no in
  (mem w !! acc_no = None -> r = (NotFound, w)) /\
  (forall a, mem w !! acc_no = Some a ->
     r.1 = Success /\
     exists a',
       mem r.2 = <[acc_no := a']> (mem w) /\ disk r.2 = mem r.2 /\
       locked a' = false /\ failed_attempts a' = 0%Z /\
       same_but_attempts a a' /\
       forall wrong,
         Forall (fun p => p <> pin a) wrong -> (length wrong < 3)%nat ->
         exists w',
           authenticate r.2 acc_no (wrong ++ [pin a]) =
             AuthDone (Authenticated acc_no) w' /\
           mem w' = mem r.2 /\ disk w' = mem w').
Proof.
  intros r. subst r. split.
  - intros Hnone. unfold unlock_account. rewrite Hnone. reflexivity.
  - intros a Ha. rewrite (unlock_account_cases w acc_no a Ha). simpl.
    split; [reflexivity|]. exists (unlocked a).
    split_and?; try reflexivity.
    + unfold same_but_attempts. split_and?; reflexivity.
    + intros wrong Hwrong Hlen.
      eexists. split.
      * apply (authenticate_right_pin _ acc_no (unlocked a) wrong);
          [simpl; apply lookup_insert_eq | reflexivity | reflexivity
          | exact Hwrong | exact Hlen].
      * simpl. rewrite insert_insert_eq. split; reflexivity.
Qed.

Lemma create_account_shape e w acc_no name_in pin_in pin_is_4_digits opening
    acc_type :
  let r :=
    create_account e w acc_no name_in pin_in pin_is_4_digits opening
      acc_type in
  (r.1 <> Success /\ r.2 = w) \/
  exists b ty,
    opening = Some b /\ mem w !! acc_no = None /\ r.1 = Success /\
    r.2 =
      save_accounts
        (with_mem (<[acc_no := opened e name_in pin_in b ty]> (mem w)) w).
Proof.
  intros r. subst r.
  destruct (mem w !! acc_no) as [old|] eqn:Hold.
  { left. unfold create_account. rewrite Hold. split; [discriminate | reflexivity]. }
  destruct opening as [b|].
  2:{ left. unfold create_account. rewrite Hold.
      destruct (negb pin_is_4_digits); split; try discriminate; reflexivity. }
  rewrite (create_account_cases e w acc_no name_in pin_in pin_is_4_digits b
             acc_type Hold).
  repeat case_match;
    try (left; split; [discriminate | reflexivity]);
    right; eexists b, _; split_and?; reflexivity.
Qed.

(** X10. An account that [create_account] has just opened can be used at
    once: its PIN, typed after fewer than three wrong ones, logs in, and
    the balance shown is the opening balance. *)
Theorem create_then_login e w acc_no name_in pin_in pin_is_4_digits b
    acc_type wrong :
  (create_account e w acc_no name_in pin_in pin_is_4_digits (Some b)
     acc_type).1 = Success ->
  Forall (fun p => p <> pin_in) wrong -> (length wrong < 3)%nat ->
  let w1 :=
    (create_account e w acc_no name_in pin_in pin_is_4_digits (Some b)
       acc_type).2 in
  exists w2,
    authenticate w1 acc_no (wrong ++ [pin_in]) =
      AuthDone (Authenticated acc_no) w2 /\
    mem w2 = mem w1 /\ disk w2 = mem w2 /\
    check_balance w2 acc_no = Some b.
Proof.
  intros Hok Hwrong Hlen w1.
  destruct (create_account_shape e w acc_no name_in pin_in pin_is_4_digits
              (Some b) acc_type)
    as [[Hfail _] | (b' & ty & [= <-] & _ & _ & Hw1)]; [contradiction|].
  fold w1 in Hw1.
  assert (Ha' : mem w1 !! acc_no = Some (opened e name_in pin_in b ty))
    by (rewrite Hw1; simpl; apply lookup_insert_eq).
  destruct (opened_fields e name_in pin_in b ty)
    as (_ & Hpin & Hbal & _ & _ & Hfa & Hlk & _).
  rewrite <- Hpin in Hwrong |- *.
  eexists. split.
  - apply (authenticate_right_pin w1 acc_no _ wrong Ha' Hlk Hfa Hwrong Hlen).
  - simpl. rewrite insert_id by exact Ha'.
    split; [reflexivity|]. split; [reflexivity|].
    unfold check_balance. simpl. rewrite Ha'. reflexivity.
Qed.

Lemma create_then_login_witness :
  exists w2,
    authenticate
      (create_account env2 seed_world "3001" "Meena Iyer" "9090" true
         (Some 1200) "savings").2
      "3001" (["0000"] ++ ["9090"]) = AuthDone (Authenticated "3001") w2 /\
    mem w2 =
      mem (create_account env2 seed_world "3001" "Meena Iyer" "9090" true
             (Some 1200) "savings").2 /\
    disk w2 = mem w2 /\ check_balance w2 "3001" = Some 1200.
Proof.
  apply (create_then_login env2 seed_world "3001" "Meena Iyer" "9090" true
           1200 "savings" ["0000"]).
  - vm_compute. reflexivity.
  - repeat constructor. discriminate.
  - simpl. lia.
Defined.

(** ** Logins, in any world *)

Lemma same_but_attempts_refl a : same_but_attempts a a.
Proof. unfold same_but_attempts. split_and?; reflexivity. Qed.

Lemma same_but_attempts_set_failed a a' v :
  same_but_attempts a a' -> same_but_attempts a (set_failed_attempts v a').
Proof. unfold same_but_attempts. simpl. tauto. Qed.

Lemma same_but_attempts_set_locked a a' v :
  same_but_attempts a a' -> same_but_attempts a (set_locked v a').
Proof. unfold same_but_attempts. simpl. tauto. Qed.

Lemma login_trace_begin w acc_no :
  login_trace w acc_no [] (authenticate_begin w acc_no).
Proof.
  unfold login_trace, authenticate_begin.
  destruct (mem w !! acc_no) as [a|] eqn:Ha.
  - destruct (locked a) eqn:Hlk; simpl.
    + split; [reflexivity|]. rewrite Ha. split_and?; try done.
      exists a. split_and?;
        [reflexivity | apply same_but_attempts_refl | intros; congruence].
    + split; [reflexivity|]. rewrite Ha. split_and?; try done; try lia.
      exists a. split_and?;
        [reflexivity | apply same_but_attempts_refl | intros; congruence].
  - simpl. split; reflexivity.
Qed.

Lemma login_trace_feed w0 acc_no typed s p :
  login_trace w0 acc_no typed s ->
  login_trace w0 acc_no (typed ++ [p]) (feed_pin acc_no s p).
Proof.
  unfold login_trace. intros [Hother Hs].
  destruct (mem w0 !! acc_no) as [a|] eqn:Ha; [|subst s; simpl; done].
  destruct Hs as ((a' & Ha' & Hsame & Hlk') & Hlocked & Hs).
  destruct s as [attempt w | r w]; simpl in *.
  - destruct Hs as (-> & Hlt & Hwrong).
    assert (Hpin : pin a' = pin a) by (destruct Hsame as (_ & H & _); exact H).
    destruct (decide (p = pin a')) as [-> | Hp].
    + rewrite (submit_pin_right acc_no _ w a' Ha'). simpl.
      split; [intros id Hid; rewrite lookup_insert_ne by congruence;
              apply Hother, Hid|].
      split_and?.
      * eexists. rewrite lookup_insert_eq. split_and?; [reflexivity| |].
        -- apply same_but_attempts_set_failed, Hsame.
        -- exact Hlk'.
      * intros Hlk. specialize (Hlocked Hlk). discriminate.
      * reflexivity.
      * destruct (locked a) eqn:Hlk; [|reflexivity].
        specialize (Hlocked eq_refl). discriminate.
      * exists typed, []. rewrite Hpin. split_and?; [reflexivity | exact Hwrong | exact Hlt].
    + rewrite (submit_pin_wrong acc_no _ w a' p Ha' Hp).
      assert (Hunl : locked a = false).
      { destruct (locked a) eqn:Hlk; [|reflexivity].
        specialize (Hlocked eq_refl). discriminate. }
      destruct (3 <=? failed_attempts a' + 1)%Z; simpl.
      * split; [intros id Hid; rewrite lookup_insert_ne by congruence;
                apply Hother, Hid|].
        split_and?; try done.
        -- eexists. rewrite lookup_insert_eq. split_and?; [reflexivity| |].
           ++ apply same_but_attempts_set_locked,
                same_but_attempts_set_failed, Hsame.
           ++ intros _. exact Hunl.
        -- intros Hlk. congruence.
      * destruct (S (length typed) <? 3)%nat eqn:Hnext; simpl.
        -- apply Nat.ltb_lt in Hnext.
           split; [intros id Hid; rewrite lookup_insert_ne by congruence;
                   apply Hother, Hid|].
           split_and?.
           ++ eexists. rewrite lookup_insert_eq. split_and?; [reflexivity| |].
              ** apply same_but_attempts_set_failed, Hsame.
              ** intros _. exact Hunl.
           ++ intros Hlk. congruence.
           ++ rewrite length_app. simpl. lia.
           ++ exact Hnext.
           ++ apply Forall_app. split; [exact Hwrong|].
              constructor; [congruence | constructor].
        -- split; [intros id Hid; rewrite lookup_insert_ne by congruence;
                   apply Hother, Hid|].
           split_and?; try done.
           ++ eexists. rewrite lookup_insert_eq. split_and?; [reflexivity| |].
              ** apply same_but_attempts_set_failed, Hsame.
              ** intros _. exact Hunl.
           ++ intros Hlk. congruence.
  - split; [exact Hother|]. split_and?.
    + exists a'. split_and?; assumption.
    + exact Hlocked.
    + destruct r as [id | | |]; try exact I.
      destruct Hs as (-> & Hunl & wrong & rest & -> & Hwrong & Hlen).
      split_and?; try done.
      exists wrong, (rest ++ [p]). rewrite <- app_assoc. simpl.
      split_and?; done.
Qed.

Lemma authenticate_trace w acc_no pins :
  login_trace w acc_no pins (authenticate w acc_no pins).
Proof.
  induction pins as [|p pins IH] using rev_ind.
  - apply login_trace_begin.
  - rewrite authenticate_snoc. apply login_trace_feed, IH.
Qed.

(** X11. [authenticate] returns an account number only for the number it
    was asked for, only if that account exists and is not locked, and only
    if its PIN has been typed after fewer than three wrong ones: no other
    sequence of PINs logs in, in any world. *)
Theorem authenticate_sound w acc_no pins id w' :
  authenticate w acc_no pins = AuthDone (Authenticated id) w' ->
  id = acc_no /\
  exists a wrong rest,
    mem w !! acc_no = Some a /\ locked a = false /\
    pins = wrong ++ pin a :: rest /\
    Forall (fun p => p <> pin a) wrong /\ (length wrong < 3)%nat.
Proof.
  intros Hauth.
  destruct (authenticate_trace w acc_no pins) as [_ Htrace].
  rewrite Hauth in Htrace.
  destruct (mem w !! acc_no) as [a|] eqn:Ha; [|discriminate].
  destruct Htrace as (_ & _ & -> & Hunl & wrong & rest & Hpins & Hwrong & Hlen).
  split; [reflexivity|]. exists a, wrong, rest. split_and?; done.
Qed.

Lemma authenticate_sound_witness :
  "1001" = "1001" /\
  exists a wrong rest,
    mem seed_world !! "1001" = Some a /\ locked a = false /\
    ["0000"; "1234"; "5555"] = wrong ++ pin a :: rest /\
    Forall (fun p => p <> pin a) wrong /\ (length wrong < 3)%nat.
Proof.
  eapply (authenticate_sound seed_world "1001" ["0000"; "1234"; "5555"]
            "1001").
  reflexivity.
Defined.

(** X12. Whatever is typed, a login changes at most the account it is
    asked for, and of that account at most the count of failed attempts and
    the lock; it never clears a lock, and on an unknown or a locked account
    it changes nothing at all. *)
Theorem authenticate_frame w acc_no pins :
  let w' := auth_world (authenticate w acc_no pins) in
  (forall id, id <> acc_no -> mem w' !! id = mem w !! id) /\
  (mem w !! acc_no = None -> w' = w) /\
  (forall a, mem w !! acc_no = Some a ->
     (exists a', mem w' !! acc_no = Some a' /\ same_but_attempts a a' /\
                 (locked a = true -> locked a' = true)) /\
     (locked a = true -> w' = w)).
Proof.
  intros w'. subst w'.
  destruct (authenticate_trace w acc_no pins) as [Hother Htrace].
  split; [exact Hother|].
  destruct (mem w !! acc_no) as [a|] eqn:Ha.
  - split; [discriminate|]. intros a0 [= <-].
    destruct Htrace as ((a' & Ha' & Hsame & Hlk') & Hlocked & _).
    split.
    + exists a'. split_and?; [exact Ha' | exact Hsame|].
      intros Hlk. destruct (locked a') eqn:H'; [reflexivity|].
      specialize (Hlk' eq_refl). congruence.
    + intros Hlk. rewrite (Hlocked Hlk). reflexivity.
  - split; [|discriminate]. intros _. rewrite Htrace. reflexivity.
Qed.

(** ** What the banking operations do to each account *)

Lemma banking_related_refl a : banking_related a a.
Proof. unfold banking_related, same_identity. split_and?; reflexivity. Qed.

Lemma banking_related_trans a b c :
  banking_related a b -> banking_related b c -> banking_related a c.
Proof.
  unfold banking_related, same_identity.
  intros (H1 & H2 & H3) (H4 & H5 & H6). split_and?; destruct_and?; congruence.
Qed.

Lemma banking_related_reset e a :
  banking_related a (reset_daily_withdraw_if_new_day e a).
Proof.
  destruct (reset_fields e a) as (_ & _ & ? & ? & ? & ? & ? & ? & ? & _).
  unfold banking_related, same_identity. split_and?; assumption.
Qed.

Lemma banking_related_credited e a k amount n :
  banking_related a (credited e a k amount n).
Proof.
  destruct (credited_fields e a k amount n)
    as (_ & _ & _ & _ & ? & ? & ? & ? & ? & ? & ? & _).
  unfold banking_related, same_identity. split_and?; assumption.
Qed.

Lemma banking_related_debited e a k amount n :
  banking_related a (debited e a k amount n).
Proof.
  destruct (debited_fields e a k amount n)
    as (_ & _ & _ & _ & ? & ? & ? & ? & ? & ? & ? & _).
  unfold banking_related, same_identity. split_and?; assumption.
Qed.

Lemma banking_related_accrued e a :
  banking_related a (accrued e a).
Proof.
  destruct (accrued_fields e a)
    as (_ & _ & _ & _ & _ & ? & ? & ? & ? & ? & ? & ?).
  unfold banking_related, same_identity. split_and?; assumption.
Qed.

Lemma same_but_funds_refl a : same_but_funds a a.
Proof. unfold same_but_funds. split_and?; reflexivity. Qed.

Lemma same_but_funds_trans a b c :
  same_but_funds a b -> same_but_funds b c -> same_but_funds a c.
Proof.
  unfold same_but_funds. intros H1 H2. destruct_and?.
  split_and?; congruence.
Qed.

Lemma same_but_funds_credited e a k amount n :
  same_but_funds a (credited e a k amount n).
Proof.
  destruct (credited_fields e a k amount n)
    as (_ & _ & ? & ? & ? & ? & ? & ? & ? & ? & ? & ?).
  unfold same_but_funds. split_and?; assumption.
Qed.

(** *** Ledgers related account by account *)

Section LedgerRelated.
Variable R : string -> Account -> Account -> Prop.
Hypothesis R_refl : forall id a, R id a a.
Hypothesis R_trans : forall id a b c, R id a b -> R id b c -> R id a c.

Lemma ledger_related_refl m : ledger_related R m m.
Proof. intros id. destruct (m !! id); [apply R_refl | exact I]. Qed.

Lemma ledger_related_trans m1 m2 m3 :
  ledger_related R m1 m2 -> ledger_related R m2 m3 -> ledger_related R m1 m3.
Proof.
  intros H12 H23 id. specialize (H12 id). specialize (H23 id).
  destruct (m1 !! id), (m2 !! id), (m3 !! id); try done.
  eapply R_trans; eassumption.
Qed.

Lemma ledger_related_insert m k a a' :
  m !! k = Some a -> R k a a' -> ledger_related R m (<[k := a']> m).
Proof.
  intros Hk HR id. destruct (decide (id = k)) as [-> | Hne].
  - rewrite Hk, lookup_insert_eq. exact HR.
  - rewrite lookup_insert_ne by congruence.
    destruct (m !! id); [apply R_refl | exact I].
Qed.

End LedgerRelated.

(** *** The worlds the banking operations leave *)

Lemma deposit_amount_shape e w acc_no inp :
  (deposit_amount e w acc_no inp).2 = w \/
  exists amount a,
    (amount <=? 0) = false /\ mem w !! acc_no = Some a /\
    (deposit_amount e w acc_no inp).2 =
      save_accounts
        (with_mem (<[acc_no := credited e a Deposit amount CashDeposit]>
                     (mem w)) w).
Proof.
  unfold deposit_amount.
  destruct inp as [amount|]; [|left; reflexivity].
  destruct (amount <=? 0) eqn:Hpos; [left; reflexivity|].
  destruct (mem w !! acc_no) as [a|] eqn:Ha; [|left; reflexivity].
  right. exists amount, a. split_and?; done.
Qed.

Lemma withdraw_amount_shape e w acc_no inp :
  (withdraw_amount e w acc_no inp).2 = w \/
  (withdraw_amount e w acc_no inp).2 = reset_applied e w acc_no \/
  exists amount a,
    (amount <=? 0) = false /\ mem w !! acc_no = Some a /\
    (withdraw_amount e w acc_no inp).2 =
      save_accounts
        (with_mem
           (<[acc_no :=
                debited e (reset_daily_withdraw_if_new_day e a) Withdraw
                  amount CashWithdrawal]> (mem w)) w).
Proof.
  destruct inp as [amount|]; [|left; reflexivity].
  destruct (mem w !! acc_no) as [a|] eqn:Ha.
  - rewrite (withdraw_amount_cases e w acc_no a amount Ha).
    unfold reset_applied. rewrite Ha.
    destruct (amount <=? 0) eqn:Hpos; [left; reflexivity|].
    destruct (amount >? _); [right; left; reflexivity|].
    destruct (_ + amount >? _); [right; left; reflexivity|].
    right. right. exists amount, a. split_and?; done.
  - left. unfold withdraw_amount. rewrite Ha.
    destruct (amount <=? 0); reflexivity.
Qed.

Lemma transfer_funds_shape e w acc_no target_acc_no inp :
  (transfer_funds e w acc_no target_acc_no inp).2 = w \/
  (transfer_funds e w acc_no target_acc_no inp).2 = reset_applied e w acc_no \/
  exists amount a t,
    (amount <=? 0) = false /\ target_acc_no <> acc_no /\
    mem w !! acc_no = Some a /\ mem w !! target_acc_no = Some t /\
    (transfer_funds e w acc_no target_acc_no inp).2 =
      save_accounts
        (with_mem
           (<[target_acc_no :=
                credited e t TransferIn amount (TransferFrom acc_no)]>
              (<[acc_no :=
                   debited e (reset_daily_withdraw_if_new_day e a)
                     TransferOut amount (TransferTo target_acc_no)]>
                 (mem w))) w).
Proof.
  destruct (transfer_funds e w acc_no target_acc_no inp) as [r w'] eqn:Hr.
  destruct (decide (r = Success)) as [-> | Hfail].
  - right. right.
    destruct (transfer_funds_success e w acc_no target_acc_no inp w' Hr)
      as (amount & a & t & _ & Hne & Ha & Ht & Hpos & _ & _ & Hw').
    exists amount, a, t. split_and?; done.
  - destruct (transfer_funds_failure e w acc_no target_acc_no inp r w' Hr Hfail)
      as [[_ ->] | [_ ->]]; [left | right; left]; reflexivity.
Qed.

Lemma apply_interest_shape e w acc_no :
  (apply_interest_if_savings e w acc_no).2 = w \/
  exists a,
    (interest_due e a <=? 0) = false /\ mem w !! acc_no = Some a /\
    (apply_interest_if_savings e w acc_no).2 =
      save_accounts (with_mem (<[acc_no := accrued e a]> (mem w)) w).
Proof.
  destruct (mem w !! acc_no) as [a|] eqn:Ha.
  - rewrite (apply_interest_cases e w acc_no a Ha).
    repeat case_match; try (left; reflexivity).
    right. exists a. split_and?; done.
  - left. unfold apply_interest_if_savings. rewrite Ha. reflexivity.
Qed.

(** *** Sessions *)

Lemma session_related_refl acc_no id a : session_related acc_no id a a.
Proof.
  split; [apply banking_related_refl | intros _; apply same_but_funds_refl].
Qed.

Lemma session_related_trans acc_no id a b c :
  session_related acc_no id a b -> session_related acc_no id b c ->
  session_related acc_no id a c.
Proof.
  intros [H1 H2] [H3 H4]. split.
  - eapply banking_related_trans; eassumption.
  - intros Hid. eapply same_but_funds_trans; eauto.
Qed.

Lemma session_related_own acc_no a a' :
  banking_related a a' -> session_related acc_no acc_no a a'.
Proof. intros H. split; [exact H | intros Hne; contradiction]. Qed.

Lemma session_insert acc_no m k a a' :
  m !! k = Some a -> session_related acc_no k a a' ->
  ledger_related (session_related acc_no) m (<[k := a']> m).
Proof. apply ledger_related_insert, session_related_refl. Qed.

Lemma reset_applied_related e w acc_no :
  ledger_related (session_related acc_no) (mem w)
    (mem (reset_applied e w acc_no)).
Proof.
  unfold reset_applied. destruct (mem w !! acc_no) as [a|] eqn:Ha.
  - simpl. apply (session_insert acc_no _ _ a); [exact Ha|].
    apply session_related_own, banking_related_reset.
  - apply ledger_related_refl, session_related_refl.
Qed.

(** Each banking operation of a session of [acc_no] keeps the account
    numbers, the identity and the lock of every account, and pays into the
    accounts of others or leaves them alone. *)
Lemma banking_ops_related e w acc_no target_acc_no inp :
  ledger_related (session_related acc_no) (mem w)
    (mem (deposit_amount e w acc_no inp).2) /\
  ledger_related (session_related acc_no) (mem w)
    (mem (withdraw_amount e w acc_no inp).2) /\
  ledger_related (session_related acc_no) (mem w)
    (mem (transfer_funds e w acc_no target_acc_no inp).2) /\
  ledger_related (session_related acc_no) (mem w)
    (mem (apply_interest_if_savings e w acc_no).2).
Proof.
  pose proof (ledger_related_refl (session_related acc_no)
                (session_related_refl acc_no) (mem w)) as Hrefl.
  pose proof (reset_applied_related e w acc_no) as Hreset.
  split_and?.
  - destruct (deposit_amount_shape e w acc_no inp)
      as [-> | (amount & a & Hpos & Ha & ->)]; [exact Hrefl|].
    simpl. apply (session_insert acc_no _ _ a); [exact Ha|].
    apply session_related_own, banking_related_credited.
  - destruct (withdraw_amount_shape e w acc_no inp)
      as [-> | [-> | (amount & a & Hpos & Ha & ->)]];
      [exact Hrefl | exact Hreset|].
    simpl. apply (session_insert acc_no _ _ a); [exact Ha|].
    apply session_related_own.
    eapply banking_related_trans;
      [apply banking_related_reset | apply banking_related_debited].
  - destruct (transfer_funds_shape e w acc_no target_acc_no inp)
      as [-> | [-> | (amount & a & t & Hpos & Hne & Ha & Ht & ->)]];
      [exact Hrefl | exact Hreset|].
    simpl.
    eapply (ledger_related_trans _ (session_related_trans acc_no)).
    + apply (session_insert acc_no (mem w) acc_no a); [exact Ha|].
      apply session_related_own.
      eapply banking_related_trans;
        [apply banking_related_reset | apply banking_related_debited].
    + apply (session_insert acc_no _ target_acc_no t);
        [rewrite lookup_insert_ne by congruence; exact Ht|].
      split; [apply banking_related_credited|].
      intros _. apply same_but_funds_credited.
  - destruct (apply_interest_shape e w acc_no)
      as [-> | (a & Hpos & Ha & ->)]; [exact Hrefl|].
    simpl. apply (session_insert acc_no _ _ a); [exact Ha|].
    apply session_related_own, banking_related_accrued.
Qed.

Lemma ledger_related_is_Some R m m' id :
  ledger_related R m m' -> is_Some (m !! id) -> is_Some (m' !! id).
Proof.
  intros H [a Ha]. specialize (H id). rewrite Ha in H.
  destruct (m' !! id); [eauto | contradiction].
Qed.

Lemma finished_not_key_error r w :
  r <> KeyError -> finished (r, w) = Some w.
Proof. intros Hr. destruct r; try reflexivity. contradiction. Qed.

(** With the account in the dictionary no banking operation raises
    [KeyError]. *)
Lemma banking_ops_finish e w acc_no target_acc_no inp :
  is_Some (mem w !! acc_no) ->
  finished (deposit_amount e w acc_no inp)
    = Some (deposit_amount e w acc_no inp).2 /\
  finished (withdraw_amount e w acc_no inp)
    = Some (withdraw_amount e w acc_no inp).2 /\
  finished (transfer_funds e w acc_no target_acc_no inp)
    = Some (transfer_funds e w acc_no target_acc_no inp).2 /\
  finished (apply_interest_if_savings e w acc_no)
    = Some (apply_interest_if_savings e w acc_no).2.
Proof.
  intros [a Ha].
  unfold deposit_amount, withdraw_amount, transfer_funds,
    apply_interest_if_savings.
  rewrite Ha. split_and?; repeat case_match; reflexivity.
Qed.

Lemma reachable_finished e w op r :
  reachable w -> exec e w op = Some r -> reachable r.
Proof. intros Hw Hexec. exact (reachable_step e w r op Hw Hexec). Qed.

(** A session of an account of the dictionary: it never dies, and the world
    it is in is related to the one it started in, and is a world of a run
    when the first was. *)
Lemma atm_menu_run turns : forall w acc_no,
  is_Some (mem w !! acc_no) ->
  exists w',
    run_world (atm_menu w acc_no turns) = Some w' /\
    ledger_related (session_related acc_no) (mem w) (mem w') /\
    (reachable w -> reachable w').
Proof.
  induction turns as [|t turns IH]; intros w acc_no Hacc.
  - exists w. split_and?; [reflexivity| |exact id].
    apply ledger_related_refl, session_related_refl.
  - assert (Hstay : exists w',
        run_world (atm_menu w acc_no turns) = Some w' /\
        ledger_related (session_related acc_no) (mem w) (mem w') /\
        (reachable w -> reachable w')) by exact (IH w acc_no Hacc).
    assert (Hstep : forall w1 op,
        exec (atm_env t) w op = Some w1 ->
        ledger_related (session_related acc_no) (mem w) (mem w1) ->
        exists w',
          run_world (atm_menu w1 acc_no turns) = Some w' /\
          ledger_related (session_related acc_no) (mem w) (mem w') /\
          (reachable w -> reachable w')).
    { intros w1 op Hexec Hrel.
      destruct (IH w1 acc_no) as (w' & Hrun & Hrel' & Hreach).
      { eapply ledger_related_is_Some; eassumption. }
      exists w'. split_and?; [exact Hrun| |].
      - eapply ledger_related_trans;
          [apply session_related_trans | exact Hrel | exact Hrel'].
      - intros Hw. apply Hreach. exact (reachable_step _ w w1 op Hw Hexec). }
    destruct (banking_ops_finish (atm_env t) w acc_no (atm_target t)
                (atm_amount t) Hacc) as (Fd & Fw & Ft & Fi).
    destruct (banking_ops_related (atm_env t) w acc_no (atm_target t)
                (atm_amount t)) as (Rd & Rw & Rt & Ri).
    destruct Hacc as [a Ha].
    simpl. unfold check_balance, mini_statement. rewrite Ha. simpl.
    repeat case_decide.
    + exact Hstay.
    + rewrite Fd. exact (Hstep _ (OpDeposit acc_no (atm_amount t)) Fd Rd).
    + rewrite Fw. exact (Hstep _ (OpWithdraw acc_no (atm_amount t)) Fw Rw).
    + rewrite Ft.
      exact (Hstep _ (OpTransfer acc_no (atm_target t) (atm_amount t)) Ft Rt).
    + exact Hstay.
    + rewrite Fi. exact (Hstep _ (OpInterest acc_no) Fi Ri).
    + exists w. split_and?; [reflexivity| |exact id].
      apply ledger_related_refl, session_related_refl.
    + exact Hstay.
Qed.



(** ** The admin menu and the main loop *)

Lemma admin_ops_finish e w acc_no name_in pin_in pin_is_4_digits opening
    acc_type confirm :
  finished
    (create_account e w acc_no name_in pin_in pin_is_4_digits opening acc_type)
    = Some (create_account e w acc_no name_in pin_in pin_is_4_digits opening
              acc_type).2 /\
  finished (delete_account w acc_no confirm)
    = Some (delete_account w acc_no confirm).2 /\
  finished (unlock_account w acc_no) = Some (unlock_account w acc_no).2.
Proof.
  unfold create_account, delete_account, unlock_account.
  split_and?; repeat case_match; reflexivity.
Qed.

Lemma same_but_attempts_trans a b c :
  same_but_attempts a b -> same_but_attempts b c -> same_but_attempts a c.
Proof.
  unfold same_but_attempts. intros H1 H2. destruct_and?.
  split_and?; congruence.
Qed.

Lemma admin_related_refl o : admin_related o o.
Proof.
  destruct o as [a|]; [|left; reflexivity].
  right. left. exists a, a. split_and?; try reflexivity.
  apply same_but_attempts_refl.
Qed.

Lemma admin_related_trans o1 o2 o3 :
  admin_related o1 o2 -> admin_related o2 o3 -> admin_related o1 o3.
Proof.
  intros H12 [-> | [(b & c & -> & -> & Hbc) | Hnew]].
  - left. reflexivity.
  - destruct H12 as [H | [(a & b' & -> & [= <-] & Hab)
                          | (e & n & p & x & ty & b' & [= <-] & Hab)]].
    + discriminate.
    + right. left. exists a, c. split_and?; try reflexivity.
      eapply same_but_attempts_trans; eassumption.
    + right. right. exists e, n, p, x, ty, c. split; [reflexivity|].
      eapply same_but_attempts_trans; eassumption.
  - right. right. exact Hnew.
Qed.

(** One admin operation, account number by account number. *)
Lemma admin_ops_related e w acc_no name_in pin_in pin_is_4_digits opening
    acc_type confirm id :
  admin_related (mem w !! id)
    (mem (create_account e w acc_no name_in pin_in pin_is_4_digits opening
            acc_type).2 !! id)
  /\
  admin_related (mem w !! id) (mem (delete_account w acc_no confirm).2 !! id)
  /\
  admin_related (mem w !! id) (mem (unlock_account w acc_no).2 !! id).
Proof.
  split_and?.
  - destruct (create_account_shape e w acc_no name_in pin_in pin_is_4_digits
                opening acc_type)
      as [[_ ->] | (b & ty & _ & Hfresh & _ & ->)];
      [apply admin_related_refl|].
    simpl. destruct (decide (id = acc_no)) as [-> | Hne].
    + rewrite lookup_insert_eq. right. right.
      eexists e, name_in, pin_in, b, ty, _.
      split; [reflexivity | apply same_but_attempts_refl].
    + rewrite lookup_insert_ne by congruence. apply admin_related_refl.
  - unfold delete_account. repeat case_match; simpl;
      try apply admin_related_refl.
    destruct (decide (id = acc_no)) as [-> | Hne].
    + rewrite lookup_delete_eq. left. reflexivity.
    + rewrite lookup_delete_ne by congruence. apply admin_related_refl.
  - unfold unlock_account.
    destruct (mem w !! acc_no) as [a|] eqn:Ha; simpl;
      [|apply admin_related_refl].
    destruct (decide (id = acc_no)) as [-> | Hne].
    + rewrite lookup_insert_eq, Ha. right. left. eexists a, _.
      split_and?; try reflexivity.
      unfold same_but_attempts. split_and?; reflexivity.
    + rewrite lookup_insert_ne by congruence. apply admin_related_refl.
Qed.

Lemma admin_loop_run turns : forall w,
  exists w',
    run_world (admin_loop w turns) = Some w' /\
    (forall id, admin_related (mem w !! id) (mem w' !! id)) /\
    (reachable w -> reachable w').
Proof.
  induction turns as [|t turns IH]; intros w.
  - exists w. split_and?; [reflexivity | intros; apply admin_related_refl
                           | exact id].
  - assert (Hstep : forall w1 op,
        exec (adm_env t) w op = Some w1 ->
        (forall id, admin_related (mem w !! id) (mem w1 !! id)) ->
        exists w',
          run_world (admin_loop w1 turns) = Some w' /\
          (forall id, admin_related (mem w !! id) (mem w' !! id)) /\
          (reachable w -> reachable w')).
    { intros w1 op Hexec Hrel.
      destruct (IH w1) as (w' & Hrun & Hrel' & Hreach).
      exists w'. split_and?; [exact Hrun| |].
      - intros id. eapply admin_related_trans; [apply Hrel | apply Hrel'].
      - intros Hw. apply Hreach. exact (reachable_step _ w w1 op Hw Hexec). }
    destruct (admin_ops_finish (adm_env t) w (adm_acc_no t) (adm_name t)
                (adm_pin t) (adm_pin_is_4_digits t) (adm_opening t)
                (adm_type t) (adm_confirm t))
      as (Fc & Fd & Fu).
    simpl. repeat case_decide.
    + rewrite Fc.
      apply (Hstep _ (OpCreate (adm_acc_no t) (adm_name t) (adm_pin t)
                        (adm_pin_is_4_digits t) (adm_opening t) (adm_type t))
               Fc).
      intros id. apply admin_ops_related; exact "".
    + rewrite Fd.
      apply (Hstep _ (OpDelete (adm_acc_no t) (adm_confirm t)) Fd).
      intros id.
      apply (admin_ops_related (adm_env t) w (adm_acc_no t) "" "" true None ""
               (adm_confirm t) id).
    + rewrite Fu. apply (Hstep _ (OpUnlock (adm_acc_no t)) Fu).
      intros id.
      apply (admin_ops_related (adm_env t) w (adm_acc_no t) "" "" true None ""
               "" id).
    + apply IH.
    + exists w. split_and?; [reflexivity | intros; apply admin_related_refl
                             | exact id].
    + apply IH.
Qed.

(** X14. The admin menu never dies of a missing key, and without the admin
    credentials it changes nothing.  With them, whatever is chosen and
    typed, every account number ends with no account, with the account it
    had, changed at most in the lock and the count of failed attempts, or
    with an account opened anew by [create_account]: the menu cannot edit a
    balance, a history or a PIN in place. *)
Theorem admin_menu_effect w username password turns :
  exists w',
    run_world (admin_menu w username password turns) = Some w' /\
    (admin_login username password = false -> w' = w) /\
    (admin_login username password = true <->
     username = "admin" /\ password = "admin123") /\
    forall id, admin_related (mem w !! id) (mem w' !! id).
Proof.
  assert (Hcred : admin_login username password = true <->
                  username = "admin" /\ password = "admin123").
  { unfold admin_login, ADMIN_USERNAME, ADMIN_PASSWORD.
    rewrite andb_true_iff, !bool_decide_eq_true. reflexivity. }
  unfold admin_menu. destruct (admin_login username password) eqn:Hlogin; simpl.
  - destruct (admin_loop_run turns w) as (w' & Hrun & Hrel & _).
    exists w'. split_and?; [exact Hrun | discriminate | exact Hcred | exact Hrel].
  - exists w. split_and?; [reflexivity | reflexivity | exact Hcred|].
    intros id. apply admin_related_refl.
Qed.

(** The main loop: it never dies, and from a world of a run it stays in
    worlds of runs, or in the middle of a login started in one. *)
Lemma main_loop_run turns : forall w,
  match main_loop w turns with
  | Finished w' => reachable w -> reachable w'
  | Pending w' =>
      reachable w ->
      reachable w' \/
      exists w0 acc_no pins attempt,
        reachable w0 /\ authenticate w0 acc_no pins = AwaitPin attempt w'
  | Died => False
  end.
Proof.
  induction turns as [|t turns IH]; intros w; simpl.
  - intros Hw. left. exact Hw.
  - assert (Hnext : forall w1,
        (reachable w -> reachable w1) ->
        match main_loop w1 turns with
        | Finished w' => reachable w -> reachable w'
        | Pending w' =>
            reachable w ->
            reachable w' \/
            exists w0 acc_no pins attempt,
              reachable w0 /\ authenticate w0 acc_no pins = AwaitPin attempt w'
        | Died => False
        end).
    { intros w1 H1. specialize (IH w1).
      destruct (main_loop w1 turns); auto. }
    repeat case_decide.
    + destruct (authenticate w (main_acc_no t) (main_pins t))
        as [attempt w1 | r w1] eqn:Hauth.
      { intros Hw. right. exists w, (main_acc_no t), (main_pins t), attempt.
        split; [exact Hw | exact Hauth]. }
      assert (Hw1 : reachable w -> reachable w1).
      { intros Hw.
        apply (reachable_step no_clock w w1
                 (OpLogin (main_acc_no t) (main_pins t)) Hw).
        simpl. rewrite Hauth. reflexivity. }
      destruct (truthy (auth_return r)) as [acc_no|] eqn:Htruthy;
        [|apply Hnext, Hw1].
      assert (Hr : r = Authenticated acc_no).
      { destruct r as [id | | |]; simpl in Htruthy; try discriminate.
        destruct id; simpl in Htruthy; congruence. }
      subst r.
      destruct (authenticate_trace w (main_acc_no t) (main_pins t))
        as [_ Htrace].
      rewrite Hauth in Htrace. simpl in Htrace.
      destruct (mem w !! main_acc_no t) as [a|] eqn:Ha; [|discriminate].
      destruct Htrace as ((a' & Ha' & _) & _ & -> & _).
      destruct (atm_menu_run (main_atm t) w1 (main_acc_no t))
        as (w2 & Hrun & _ & Hreach); [eauto|].
      destruct (atm_menu w1 (main_acc_no t) (main_atm t)) as [w' | w' |];
        simpl in Hrun; simplify_eq.
      * apply Hnext. auto.
      * intros Hw. left. auto.
    + unfold admin_menu.
      destruct (negb (admin_login (main_username t) (main_password t)));
        [apply Hnext; auto|].
      destruct (admin_loop_run (main_admin t) w) as (w2 & Hrun & _ & Hreach).
      destruct (admin_loop w (main_admin t)) as [w' | w' |];
        simpl in Hrun; simplify_eq.
      * apply Hnext, Hreach.
      * intros Hw. left. auto.
    + auto.
    + apply Hnext. auto.
Qed.

(** X15. Whatever accounts the data file holds and whatever is typed,
    [main] never dies of a missing key: each menu of the program calls a
    banking operation only on an account that is in the dictionary. *)
Theorem main_never_dies today file turns : main today file turns <> Died.
Proof.
  unfold main. intros Hdied.
  pose proof (main_loop_run turns (load_accounts today file)) as Hrun.
  rewrite Hdied in Hrun. exact Hrun.
Qed.

(** X16. From a first start, on the default accounts, every world [main]
    is in when it returns or waits for a choice is [reachable], a world of
    a run of operations; when it waits for a PIN, it is in the middle of a
    login that started in one. *)
Theorem main_worlds_reachable today turns :
  match main today None turns with
  | Finished w => reachable w
  | Pending w =>
      reachable w \/
      exists w0 acc_no pins attempt,
        reachable w0 /\ authenticate w0 acc_no pins = AwaitPin attempt w
  | Died => False
  end.
Proof.
  unfold main.
  pose proof (main_loop_run turns (load_accounts today None)) as Hrun.
  assert (Hseed : reachable (load_accounts today None))
    by apply reachable_seed.
  destruct (main_loop (load_accounts today None) turns); auto.
Qed.

(** A first start, a login on "1001" with the sample session, and the
    exit. *)
Lemma main_worlds_reachable_witness :
  exists w,
    main day1 None
      [mkMainTurn "1" "1001" ["1234"] sample_session "" "" [];
       mkMainTurn "3" "" [] [] "" "" []] = Finished w /\
    reachable w /\ (balance <$> mem w !! "1001") = Some 14300.
Proof.
  pose proof (main_worlds_reachable day1
                [mkMainTurn "1" "1001" ["1234"] sample_session "" "" [];
                 mkMainTurn "3" "" [] [] "" "" []]) as Hrun.
  destruct (main day1 None _) as [w | w |] eqn:Hmain in Hrun |- *;
    [|vm_compute in Hmain; discriminate | contradiction].
  exists w. split; [reflexivity|]. split; [exact Hrun|].
  vm_compute in Hmain. injection Hmain as <-. reflexivity.
Defined.

(** X17. The empty account number: [create_account] accepts it as it does
    any other new number, and [authenticate] logs in on it, but the ATM
    menu never opens: the value returned is the empty string, which [main]
    takes for a refusal.  Whatever the world and whatever is typed, the
    turn of [main] that logs in on the empty number does what the login
    does and nothing else, and what is typed for the session is not run. *)
Theorem empty_account_number :
  (forall e w name_in pin_in b acc_type,
     mem w !! "" = None -> acc_type = "savings" \/ acc_type = "current" ->
     (create_account e w "" name_in pin_in true (Some b) acc_type).1
     = Success) /\
  (forall w a wrong,
     mem w !! "" = Some a -> locked a = false ->
     Forall (fun p => p <> pin a) wrong -> (length wrong < 3)%nat ->
     (failed_attempts a + Z.of_nat (length wrong) < 3)%Z ->
     exists w',
       authenticate w "" (wrong ++ [pin a]) = AuthDone (Authenticated "") w') /\
  (forall w pins atm username password admin rest,
     main_loop w (mkMainTurn "1" "" pins atm username password admin :: rest)
     = match authenticate w "" pins with
       | AwaitPin _ w' => Pending w'
       | AuthDone _ w' => main_loop w' rest
       end).
Proof.
  split_and?.
  - intros e w name_in pin_in b acc_type Hnew Hty.
    rewrite (create_account_cases e w "" name_in pin_in true b acc_type Hnew).
    simpl. destruct Hty as [-> | ->]; reflexivity.
  - intros w a wrong Ha Hlk Hwrong Hlen Hfa. eexists.
    rewrite authenticate_snoc,
      (authenticate_wrong_prefix w "" a wrong Ha Hlk Hwrong Hlen Hfa).
    simpl.
    change (pin a)
      with (pin (set_failed_attempts
                   (failed_attempts a + Z.of_nat (length wrong)) a)).
    apply submit_pin_right. simpl. apply lookup_insert_eq.
  - intros w pins atm username password admin rest.
    cbn [main_loop main_choice main_acc_no main_pins main_atm].
    destruct (decide ("1" = "1")) as [_ | Hne]; [|contradiction].
    destruct (authenticate_trace w "" pins) as [_ Htrace].
    destruct (authenticate w "" pins) as [k w' | r w']; [reflexivity|].
    destruct r as [id | | |]; try reflexivity.
    assert (Hid : id = "").
    { simpl in Htrace. destruct (mem w !! "") as [a|]; [|discriminate].
      destruct Htrace as (_ & _ & Hid & _). exact Hid. }
    subst id. reflexivity.
Qed.

(** The empty number opened on the default accounts, then a login on it
    with its PIN and the sample session typed behind: [main] is back at its
    menu, and nothing of the session has run. *)
Lemma empty_account_number_witness :
  let w1 := (create_account env2 seed_world "" "Nobody" "0000" true (Some 10)
               "current").2 in
  (create_account env2 seed_world "" "Nobody" "0000" true (Some 10)
     "current").1 = Success /\
  authenticate w1 "" ["0000"] = AuthDone (Authenticated "") w1 /\
  main_loop w1 (mkMainTurn "1" "" ["0000"] sample_session "" "" [] :: [])
  = Pending w1.
Proof.
  intros w1.
  destruct empty_account_number as (Hcreate & _ & Hmain).
  split; [apply Hcreate; [reflexivity | right; reflexivity]|].
  split; [vm_compute; reflexivity|].
  rewrite Hmain. vm_compute. reflexivity.
Defined.

(** ** What a restart can lose *)

Lemma same_but_window_refl a : same_but_window a a.
Proof. unfold same_but_window. split_and?; reflexivity. Qed.

Lemma same_but_window_trans a b c :
  same_but_window a b -> same_but_window b c -> same_but_window a c.
Proof.
  unfold same_but_window. intros H1 H2. destruct_and?.
  split_and?; congruence.
Qed.

Lemma durable_saved w : disk w = mem w -> durable w.
Proof.
  intros Heq id. rewrite Heq.
  destruct (mem w !! id); [apply same_but_window_refl | exact I].
Qed.

Lemma durable_reset e w acc_no :
  durable w -> durable (reset_applied e w acc_no).
Proof.
  intros Hw id.
  destruct (reset_applied_accounts e w acc_no) as (Hdisk & Hother & Hown & _).
  rewrite Hdisk. specialize (Hw id).
  destruct (decide (id = acc_no)) as [-> | Hne].
  - destruct (mem w !! acc_no) as [a|] eqn:Ha.
    + destruct (Hown a eq_refl) as [-> Hsame].
      destruct (disk w !! acc_no); [|contradiction].
      eapply same_but_window_trans; eassumption.
    + unfold reset_applied. rewrite Ha, Ha. exact Hw.
  - rewrite (Hother id Hne). exact Hw.
Qed.

Lemma exec_durable e w op w' :
  durable w -> exec e w op = Some w' -> durable w'.
Proof.
  intros Hw Hexec.
  assert (Hsave : forall m, durable (save_accounts (with_mem m w)))
    by (intros m; apply durable_saved; reflexivity).
  destruct op as [acc_no pins | acc_no inp | acc_no inp | acc_no target inp
                 | acc_no | acc_no name_in pin_in pin_is_4_digits opening
                                acc_type
                 | acc_no confirm | acc_no | ]; cbn [exec] in Hexec.
  - pose proof (authenticate_save_invariant w acc_no pins) as Hinv.
    destruct (authenticate w acc_no pins) as [k wk | r wr]; [discriminate|].
    simplify_eq. simpl in Hinv.
    destruct Hinv as [Hsaved | [-> _]];
      [apply durable_saved, Hsaved | exact Hw].
  - destruct (deposit_amount_shape e w acc_no inp)
      as [Heq | (amount & a & _ & _ & Heq)];
      destruct (deposit_amount e w acc_no inp) as [r wr];
      simpl in Heq; subst wr; destruct r; simpl in Hexec; simplify_eq;
      solve [exact Hw | apply Hsave].
  - destruct (withdraw_amount_shape e w acc_no inp)
      as [Heq | [Heq | (amount & a & _ & _ & Heq)]];
      destruct (withdraw_amount e w acc_no inp) as [r wr];
      simpl in Heq; subst wr; destruct r; simpl in Hexec; simplify_eq;
      solve [exact Hw | apply Hsave | apply durable_reset, Hw].
  - destruct (transfer_funds_shape e w acc_no target inp)
      as [Heq | [Heq | (amount & a & t & _ & _ & _ & _ & Heq)]];
      destruct (transfer_funds e w acc_no target inp) as [r wr];
      simpl in Heq; subst wr; destruct r; simpl in Hexec; simplify_eq;
      solve [exact Hw | apply Hsave | apply durable_reset, Hw].
  - destruct (apply_interest_shape e w acc_no)
      as [Heq | (a & _ & _ & Heq)];
      destruct (apply_interest_if_savings e w acc_no) as [r wr];
      simpl in Heq; subst wr; destruct r; simpl in Hexec; simplify_eq;
      solve [exact Hw | apply Hsave].
  - destruct (create_account_shape e w acc_no name_in pin_in pin_is_4_digits
                opening acc_type)
      as [[_ Heq] | (b & ty & _ & _ & _ & Heq)];
      destruct (create_account e w acc_no name_in pin_in pin_is_4_digits
                  opening acc_type)
        as [r wr];
      simpl in Heq; subst wr; destruct r; simpl in Hexec; simplify_eq;
      solve [exact Hw | apply Hsave].
  - unfold delete_account in Hexec.
    repeat case_match; simpl in Hexec; simplify_eq;
      solve [exact Hw | apply Hsave].
  - unfold unlock_account in Hexec.
    repeat case_match; simpl in Hexec; simplify_eq;
      solve [exact Hw | apply Hsave].
  - simplify_eq. apply durable_saved. reflexivity.
Qed.

(** X18. Between two operations of a run the data file holds the accounts
    of the dictionary in memory, number by number, each with the same
    balance, history, PIN, lock and every other key except possibly
    "withdrawn_today" and "last_withdraw_date": stopping the program
    between two operations loses at most a daily reset that a refused
    withdrawal or transfer made. *)
Theorem durable_reachable w : reachable w -> durable w.
Proof.
  induction 1 as [today | e w w' op _ IH Hexec].
  - apply durable_saved. reflexivity.
  - exact (exec_durable e w op w' IH Hexec).
Qed.

Lemma reachable_durable w : reachable w -> durable w.
Proof.
  induction 1 as [today | e w w' op _ IH Hexec];
    [apply durable_saved; reflexivity | eapply exec_durable; eassumption].
Qed.

Lemma durable_reachable_witness :
  durable (withdraw_amount env2 seed_world "1001" (Some 20000)).2 /\
  mem (withdraw_amount env2 seed_world "1001" (Some 20000)).2
  <> disk (withdraw_amount env2 seed_world "1001" (Some 20000)).2.
Proof.
  split.
  - apply durable_reachable.
    apply (reachable_step env2 seed_world _ (OpWithdraw "1001" (Some 20000))
             seed_world_reachable).
    vm_compute. reflexivity.
  - intros Heq.
    apply (f_equal (fun m => last_withdraw_date <$> m !! "1001")) in Heq.
    vm_compute in Heq. discriminate.
Defined.

(** ** What no operation changes *)

Lemma finished_snd p w' : finished p = Some w' -> w' = p.2.
Proof. destruct p as [r w]. destruct r; simpl; congruence. Qed.

Lemma same_identity_refl a : same_identity a a.
Proof. unfold same_identity. split_and?; reflexivity. Qed.

Lemma session_related_lookup acc_no m m' id a :
  ledger_related (session_related acc_no) m m' -> m !! id = Some a ->
  exists a', m' !! id = Some a' /\ same_identity a a' /\ locked a' = locked a.
Proof.
  intros Hrel Ha. specialize (Hrel id). rewrite Ha in Hrel.
  destruct (m' !! id) as [a'|]; [|contradiction].
  destruct Hrel as [(Hid & Hlk & _) _]. exists a'. split_and?; done.
Qed.

(** One operation and one account that it does not delete. *)
Lemma exec_account e w op w' id a :
  durable w -> exec e w op = Some w' -> mem w !! id = Some a ->
  op <> OpDelete id "y" ->
  exists a',
    mem w' !! id = Some a' /\ same_identity a a' /\
    (op <> OpUnlock id -> locked a' = locked a \/ locked a = false).
Proof.
  intros Hdur Hexec Ha Hdel.
  assert (Hsame : exists a',
            mem w !! id = Some a' /\ same_identity a a' /\
            (op <> OpUnlock id -> locked a' = locked a \/ locked a = false)).
  { exists a. split_and?; [exact Ha | apply same_identity_refl | auto]. }
  assert (Hsession : forall acc_no wr,
            ledger_related (session_related acc_no) (mem w) (mem wr) ->
            exists a',
              mem wr !! id = Some a' /\ same_identity a a' /\
              (op <> OpUnlock id -> locked a' = locked a \/ locked a = false)).
  { intros acc_no wr Hrel.
    destruct (session_related_lookup acc_no _ _ id a Hrel Ha)
      as (a' & Ha' & Hid & Hlk).
    exists a'. split_and?; auto. }
  destruct op as [acc_no pins | acc_no inp | acc_no inp | acc_no target inp
                 | acc_no | acc_no name_in pin_in pin_is_4_digits opening
                                acc_type
                 | acc_no confirm | acc_no | ]; cbn [exec] in Hexec.
  - destruct (authenticate_trace w acc_no pins) as [Hother Htrace].
    destruct (authenticate w acc_no pins) as [k wk | r wr]; [discriminate|].
    simplify_eq. simpl in *.
    destruct (decide (id = acc_no)) as [-> | Hne].
    + rewrite Ha in Htrace.
      destruct Htrace as ((a' & Ha' & Hsba & Hlk') & _).
      exists a'. split_and?; [exact Ha' | |].
      * unfold same_but_attempts in Hsba. unfold same_identity.
        destruct_and?. split_and?; assumption.
      * intros _. destruct (locked a') eqn:H'; destruct (locked a) eqn:H;
          auto.
    + rewrite (Hother id Hne). exact Hsame.
  - apply finished_snd in Hexec as ->.
    apply (Hsession acc_no), (banking_ops_related e w acc_no "" inp).
  - apply finished_snd in Hexec as ->.
    apply (Hsession acc_no), (banking_ops_related e w acc_no "" inp).
  - apply finished_snd in Hexec as ->.
    apply (Hsession acc_no), (banking_ops_related e w acc_no target inp).
  - apply finished_snd in Hexec as ->.
    apply (Hsession acc_no), (banking_ops_related e w acc_no "" None).
  - apply finished_snd in Hexec as ->.
    destruct (create_account_shape e w acc_no name_in pin_in pin_is_4_digits
                opening acc_type)
      as [[_ ->] | (b & ty & _ & Hfresh & _ & ->)]; [exact Hsame|].
    simpl. rewrite lookup_insert_ne by congruence. exact Hsame.
  - apply finished_snd in Hexec as ->. unfold delete_account.
    destruct (mem w !! acc_no) as [x|] eqn:Hx; [|exact Hsame].
    destruct (decide (confirm = "y")) as [-> | Hno]; [|exact Hsame].
    simpl. rewrite lookup_delete_ne by congruence. exact Hsame.
  - apply finished_snd in Hexec as ->. unfold unlock_account.
    destruct (mem w !! acc_no) as [x|] eqn:Hx; [|exact Hsame].
    simpl. destruct (decide (id = acc_no)) as [-> | Hne].
    + rewrite lookup_insert_eq. simplify_eq.
      eexists. split_and?; [reflexivity | | intros H; contradiction].
      unfold same_identity. split_and?; reflexivity.
    + rewrite lookup_insert_ne by congruence. exact Hsame.
  - simplify_eq. simpl. specialize (Hdur id). rewrite Ha in Hdur.
    destruct (disk w !! id) as [d|]; [|contradiction].
    exists d. unfold same_but_window in Hdur. unfold same_identity.
    destruct_and?. split_and?; try congruence. intros _. left. congruence.
Qed.

(** X19. Along a run a locked account stays locked, and every login on it
    is refused whatever PIN is typed, through every operation but the
    admin's unlock of this account and its deletion: no login, no banking
    operation, no other admin operation and no restart clears a lock. *)
Theorem lock_persists e w op w' id a :
  reachable w -> exec e w op = Some w' ->
  mem w !! id = Some a -> locked a = true ->
  op <> OpUnlock id -> op <> OpDelete id "y" ->
  exists a',
    mem w' !! id = Some a' /\ locked a' = true /\
    forall pins, authenticate w' id pins = AuthDone AuthLocked w'.
Proof.
  intros Hw Hexec Ha Hlk Hunlock Hdel.
  destruct (exec_account e w op w' id a (reachable_durable w Hw)
              Hexec Ha Hdel) as (a' & Ha' & _ & Hlk').
  assert (Hlocked : locked a' = true)
    by (destruct (Hlk' Hunlock); congruence).
  exists a'. split_and?; [exact Ha' | exact Hlocked|].
  intros pins. exact (authenticate_locked w' id a' pins Ha' Hlocked).
Qed.

Lemma locked_world_reachable : reachable locked_world.
Proof.
  apply (reachable_step no_clock seed_world _
           (OpLogin "1001" ["0000"; "1111"; "2222"]) seed_world_reachable).
  vm_compute. reflexivity.
Qed.

Lemma lock_persists_witness :
  exists a',
    mem (transfer_funds env2 locked_world "1002" "1001" (Some 100)).2 !! "1001"
      = Some a' /\ locked a' = true /\
    forall pins,
      authenticate (transfer_funds env2 locked_world "1002" "1001" (Some 100)).2
        "1001" pins
      = AuthDone AuthLocked
          (transfer_funds env2 locked_world "1002" "1001" (Some 100)).2.
Proof.
  apply (lock_persists env2 locked_world
           (OpTransfer "1002" "1001" (Some 100)) _ "1001"
           (set_locked true (set_failed_attempts 3 rahul))
           locked_world_reachable).
  - vm_compute. reflexivity.
  - vm_compute. reflexivity.
  - reflexivity.
  - discriminate.
  - discriminate.
Defined.

(** X20. Along a run no operation changes the name, the PIN, the type, the
    daily limit or the interest rate of an account: they are those the
    account was opened with, until it is deleted. *)
Theorem identity_fixed e w op w' id a :
  reachable w -> exec e w op = Some w' -> mem w !! id = Some a ->
  op <> OpDelete id "y" ->
  exists a',
    mem w' !! id = Some a' /\
    name a' = name a /\ pin a' = pin a /\ type a' = type a /\
    daily_limit a' = daily_limit a /\ interest_rate a' = interest_rate a.
Proof.
  intros Hw Hexec Ha Hdel.
  destruct (exec_account e w op w' id a (reachable_durable w Hw) Hexec Ha Hdel)
    as (a' & Ha' & Hid & _).
  exists a'. split; [exact Ha' | exact Hid].
Qed.

Lemma identity_fixed_witness :
  exists a',
    mem (withdraw_amount env2 seed_world "1001" (Some 5000)).2 !! "1001"
      = Some a' /\
    name a' = name rahul /\ pin a' = pin rahul /\ type a' = type rahul /\
    daily_limit a' = daily_limit rahul /\
    interest_rate a' = interest_rate rahul.
Proof.
  apply (identity_fixed env2 seed_world (OpWithdraw "1001" (Some 5000)) _
           "1001" rahul seed_world_reachable).
  - vm_compute. reflexivity.
  - exact seed_world_rahul.
  - discriminate.
Defined.

(** ** The mini statement *)

Lemma last_last_n {A} n (l : list A) :
  (0 < n)%nat -> last (last_n n l) = last l.
Proof.
  intros Hn. destruct l as [|x l] using rev_ind; [reflexivity|].
  rewrite last_n_snoc_last by exact Hn. symmetry. apply last_snoc.
Qed.

Lemma last_n_split {A} n (l : list A) :
  exists older, l = older ++ last_n n l.
Proof.
  exists (take (length l - n) l). unfold last_n. symmetry. apply take_drop.
Qed.

Lemma statement_after_log e (b : Account) k amount n acc_no w' :
  mem w' !! acc_no = Some (log_transaction e b k amount (balance b) n) ->
  mini_statement w' acc_no =
    Some (last_n 10
            (last_n 50 (transactions b ++ [entry e k amount (balance b) n])))
  /\
  (last <$> mini_statement w' acc_no)
    = Some (Some (entry e k amount (balance b) n)) /\
  check_balance w' acc_no = Some (balance b).
Proof.
  intros Ha'. unfold mini_statement, check_balance. rewrite Ha'. simpl.
  rewrite log_transaction_transactions.
  split_and?; [reflexivity | | rewrite log_transaction_eq; reflexivity].
  rewrite last_last_n by lia. rewrite last_n_snoc_last by lia. reflexivity.
Qed.

(** X22. The mini statement of an account is the end of its history: at
    most ten entries, the ten most recent when there are more, oldest
    first.  After a deposit that succeeded its last line is the "deposit"
    entry of this amount, after a withdrawal the "withdraw" entry, after a
    transfer the "transfer_out" entry that names the target, each with the
    time of the operation and, as balance, the balance that
    [check_balance] shows. *)
Theorem mini_statement_shows w acc_no a :
  mem w !! acc_no = Some a ->
  (exists older lines,
     mini_statement w acc_no = Some lines /\
     transactions a = older ++ lines /\
     length lines = Nat.min 10 (length (transactions a))) /\
  (forall e amount w',
     deposit_amount e w acc_no (Some amount) = (Success, w') ->
     exists lines bal,
       mini_statement w' acc_no = Some lines /\
       last lines = Some (entry e Deposit amount bal CashDeposit) /\
       check_balance w' acc_no = Some bal) /\
  (forall e amount w',
     withdraw_amount e w acc_no (Some amount) = (Success, w') ->
     exists lines bal,
       mini_statement w' acc_no = Some lines /\
       last lines = Some (entry e Withdraw amount bal CashWithdrawal) /\
       check_balance w' acc_no = Some bal) /\
  (forall e amount target_acc_no w',
     transfer_funds e w acc_no target_acc_no (Some amount) = (Success, w') ->
     exists lines bal,
       mini_statement w' acc_no = Some lines /\
       last lines =
         Some (entry e TransferOut amount bal (TransferTo target_acc_no)) /\
       check_balance w' acc_no = Some bal).
Proof.
  intros Ha.
  assert (Hline : forall e (b : Account) k amount n w',
      mem w' !! acc_no = Some (log_transaction e b k amount (balance b) n) ->
      exists lines bal,
        mini_statement w' acc_no = Some lines /\
        last lines = Some (entry e k amount bal n) /\
        check_balance w' acc_no = Some bal).
  { intros e b k amount n w' Hlook.
    destruct (statement_after_log e b k amount n acc_no w' Hlook)
      as (H1 & H2 & H3).
    eexists _, (balance b). split; [exact H1|]. split; [|exact H3].
    rewrite H1 in H2. simpl in H2. congruence. }
  split_and?.
  - destruct (last_n_split 10 (transactions a)) as [older Hold].
    exists older, (last_n 10 (transactions a)).
    unfold mini_statement. rewrite Ha.
    split_and?; [reflexivity | exact Hold | apply last_n_length].
  - intros e amount w' Hop.
    rewrite (deposit_amount_cases e w acc_no a amount Ha) in Hop.
    destruct (amount <=? 0); [discriminate|]. injection Hop as <-.
    apply (Hline e (set_balance (balance a + amount) a)).
    simpl. rewrite lookup_insert_eq. reflexivity.
  - intros e amount w' Hop.
    rewrite (withdraw_amount_cases e w acc_no a amount Ha) in Hop.
    repeat case_match; try discriminate. injection Hop as <-.
    set (a0 := reset_daily_withdraw_if_new_day e a).
    apply (Hline e
             (set_last_withdraw_date (today_str e)
                (set_withdrawn_today (withdrawn_today a0 + amount)
                   (set_balance (balance a0 - amount) a0)))).
    simpl. rewrite lookup_insert_eq. reflexivity.
  - intros e amount target_acc_no w' Hop.
    destruct (transfer_funds_success e w acc_no target_acc_no _ w' Hop)
      as (amount' & a1 & t & [= <-] & Hne & Ha1 & Ht & _ & _ & _ & ->).
    set (a0 := reset_daily_withdraw_if_new_day e a1).
    apply (Hline e
             (set_last_withdraw_date (today_str e)
                (set_withdrawn_today (withdrawn_today a0 + amount)
                   (set_balance (balance a0 - amount) a0)))).
    simpl. rewrite lookup_insert_ne by congruence.
    rewrite lookup_insert_eq. reflexivity.
Qed.

(** A withdrawal of 200 from "1001" after a deposit of 300: the statement
    then has two lines, and the last is the withdrawal. *)
Lemma mini_statement_shows_witness :
  let w1 := (deposit_amount env2 seed_world "1001" (Some 300)).2 in
  let w2 := (withdraw_amount env2 w1 "1001" (Some 200)).2 in
  exists first,
    mini_statement w2 "1001" =
      Some [first; entry env2 Withdraw 200 15100 CashWithdrawal] /\
    check_balance w2 "1001" = Some 15100.
Proof.
  intros w1 w2.
  destruct (mem w1 !! "1001") as [a|] eqn:Ha; [|vm_compute in Ha; discriminate].
  destruct (mini_statement_shows w1 "1001" a Ha) as (_ & _ & Hwithdraw & _).
  destruct (Hwithdraw env2 200 w2) as (lines & bal & Hlines & Hlast & Hbal).
  { vm_compute. reflexivity. }
  eexists. split; [vm_compute; reflexivity|].
  rewrite Hbal. vm_compute in Hlines. injection Hlines as <-.
  simpl in Hlast. injection Hlast as <-. reflexivity.
Defined.

(** ** Amounts that are not numbers *)

(** X23. The amount "nan" passes every test of an amount, for each of
    [amount <= 0], [amount > balance] and [withdrawn_today + amount > limit]
    is false of NaN: a deposit, a withdrawal and a transfer of NaN succeed
    on every existing account, whatever its balance and its daily window,
    and leave NaN as the balance, of the target of the transfer too.  An
    account whose balance is NaN is never refused for insufficient
    funds. *)
Theorem nan_accepted e w acc_no target_acc_no a t :
  mem w !! acc_no = Some a -> mem w !! target_acc_no = Some t ->
  target_acc_no <> acc_no ->
  let d := deposit_amount e w acc_no (Some nan) in
  let wd := withdraw_amount e w acc_no (Some nan) in
  let tr := transfer_funds e w acc_no target_acc_no (Some nan) in
  (d.1 = Success /\
   exists a', mem d.2 !! acc_no = Some a' /\ is_nan (balance a') = true) /\
  (wd.1 = Success /\
   exists a', mem wd.2 !! acc_no = Some a' /\ is_nan (balance a') = true /\
              is_nan (withdrawn_today a') = true) /\
  (tr.1 = Success /\
   exists a' t',
     mem tr.2 !! acc_no = Some a' /\ mem tr.2 !! target_acc_no = Some t' /\
     is_nan (balance a') = true /\ is_nan (withdrawn_today a') = true /\
     is_nan (balance t') = true) /\
  (is_nan (balance a) = true ->
   forall amount,
     (withdraw_amount e w acc_no (Some amount)).1 <> InsufficientFunds /\
     (transfer_funds e w acc_no target_acc_no (Some amount)).1
     <> InsufficientFunds).
Proof.
  intros Ha Ht Hne d wd tr. subst d wd tr.
  set (a0 := reset_daily_withdraw_if_new_day e a).
  assert (Hnan : is_nan nan = true) by reflexivity.
  assert (Hfunds : (balance a0 <? nan) = false) by apply ltb_nan_r, Hnan.
  assert (Hcap : (daily_limit a0 <? withdrawn_today a0 + nan) = false)
    by apply ltb_nan_r, add_nan, Hnan.
  split; [|split; [|split]].
  - rewrite (deposit_amount_cases e w acc_no a nan Ha). simpl.
    split; [reflexivity|]. eexists. rewrite lookup_insert_eq.
    split; [reflexivity|].
    destruct (credited_fields e a Deposit nan CashDeposit) as (-> & _).
    apply add_nan, Hnan.
  - rewrite (withdraw_amount_cases e w acc_no a nan Ha). fold a0.
    change (nan <=? 0) with false. cbv iota. rewrite Hfunds, Hcap. simpl.
    split; [reflexivity|]. eexists. rewrite lookup_insert_eq.
    split; [reflexivity|].
    destruct (debited_fields e a0 Withdraw nan CashWithdrawal)
      as (-> & -> & _).
    split; [apply sub_nan | apply add_nan]; exact Hnan.
  - rewrite (transfer_funds_cases e w acc_no target_acc_no a t nan Ha Ht Hne).
    fold a0. change (nan <=? 0) with false. cbv iota.
    rewrite Hfunds, Hcap. simpl.
    split; [reflexivity|]. eexists _, _.
    rewrite lookup_insert_ne by congruence. rewrite !lookup_insert_eq.
    split; [reflexivity|]. split; [reflexivity|].
    destruct (debited_fields e a0 TransferOut nan (TransferTo target_acc_no))
      as (-> & -> & _).
    destruct (credited_fields e t TransferIn nan (TransferFrom acc_no))
      as (-> & _).
    split_and?; [apply sub_nan | apply add_nan | apply add_nan]; exact Hnan.
  - intros Hbal amount.
    assert (Hnever : (balance a0 <? amount) = false).
    { destruct (reset_fields e a) as (Hb & _). fold a0 in Hb.
      rewrite ltb_spec. rewrite Hb. apply is_nan_Prim2SF in Hbal.
      rewrite Hbal. reflexivity. }
    rewrite (withdraw_amount_cases e w acc_no a amount Ha),
      (transfer_funds_cases e w acc_no target_acc_no a t amount Ha Ht Hne).
    fold a0. rewrite Hnever.
    split; repeat case_match; simpl; discriminate.
Qed.

(** "nan" typed as the amount of a withdrawal from the first default
    account. *)
Lemma nan_accepted_witness :
  (withdraw_amount env2 seed_world "1001" (Some nan)).1 = Success /\
  exists a',
    mem (withdraw_amount env2 seed_world "1001" (Some nan)).2 !! "1001"
      = Some a' /\
    is_nan (balance a') = true /\ is_nan (withdrawn_today a') = true.
Proof.
  destruct (nan_accepted env2 seed_world "1001" "1002" rahul priya_seed)
    as (_ & Hwithdraw & _).
  - exact seed_world_rahul.
  - reflexivity.
  - discriminate.
  - exact Hwithdraw.
Defined.
